(** * Hyy_MVA_Training: the H->yy MVA training notebook

    A shallow embedding of [Hyy_MVA_Training.ipynb]: the per-file loader
    with its cut sequence and feature engineering
    ([load_and_preprocess_mc_for_mva]), and the notebook cells that assemble
    the dataset, split and scale it, train, evaluate and save.

    Numbers are IEEE binary64 values ([PrimFloat.float]), which is what
    Python and numpy compute with on float64 arrays; the branches are read
    as such.  numpy's remainder is defined on them, bit for bit.  Library
    routines that the notebook only calls (vector, uproot, scikit-learn,
    matplotlib, numpy's [tanh], power and random generator) are interfaces;
    the notebook's own control flow, filters and formulas are definitions. *)

From Stdlib Require Import Floats List Ascii String ZArith Bool Arith Lia Permutation.
Import ListNotations.

Set Warnings "-inexact-float".
Set Implicit Arguments.

(** ** Exceptions and results *)

Inductive Exception : Type :=
| IndexError
| AttributeError (name : string)
| KeyError (key : string)
| NameError (name : string)
| ValueError
| KeyInFileError (key : string)
| FileNotFoundError (path : string)
| OtherError (what : string).

(** A computation that may raise. *)
Definition Result (A : Type) : Type := (Exception + A)%type.

Definition ok {A} (a : A) : Result A := inr a.
Definition raise {A} (e : Exception) : Result A := inl e.

Definition rbind {A B} (m : Result A) (f : A -> Result B) : Result B :=
  match m with
  | inl e => inl e
  | inr a => f a
  end.

Declare Scope result_scope.
Delimit Scope result_scope with result.
Notation "x <- m ;; k" := (rbind m (fun x => k))
  (at level 61, m at next level, right associativity) : result_scope.
Notation "m ;;; k" := (rbind m (fun _ => k))
  (at level 61, right associativity) : result_scope.

Fixpoint mapM {A B} (f : A -> Result B) (l : list A) : Result (list B) :=
  match l with
  | [] => ok []
  | a :: l' =>
      (b <- f a ;;
       bs <- mapM f l' ;;
       ok (b :: bs))%result
  end.

(** ** Arrays of events *)

(** One photon candidate: the six [photon_*] branches at one position.  The
    branches of an entry hold one value per candidate, so an entry carries
    them as one sequence of candidates. *)
Record Photon : Type := mkPhoton {
  photon_pt : float;
  photon_eta : float;
  photon_phi : float;
  photon_e : float;
  photon_isTightID : bool;
  photon_ptcone20 : float
}.

(** One entry of the tree.  [W] is the type of the [mcEventWeight] entry:
    [float] for a one-dimensional branch, [list float] when the branch holds
    a sequence per event, [unit] when the tree has no such branch. *)
Record Event (W : Type) : Type := mkEvent {
  photons : list Photon;
  mcEventWeight : W
}.

Arguments mkEvent {W} _ _.
Arguments photons {W} _.
Arguments mcEventWeight {W} _.

(** Python comparisons on floats. *)
Definition gt (a b : float) : bool := PrimFloat.ltb b a.
Definition lt (a b : float) : bool := PrimFloat.ltb a b.

(** [events[mask]]: selection by a boolean mask. *)
Fixpoint select {A} (mask : list bool) (l : list A) : list A :=
  match mask, l with
  | b :: mask', a :: l' => if b then a :: select mask' l' else select mask' l'
  | _, _ => []
  end.

(** [len(events) == 0] *)
Definition is_empty {A} (l : list A) : bool :=
  match l with [] => true | _ => false end.

(** [(x[:,0], x[:,1])]: the two leading photons of every event.  Indexing
    past the end of a sublist raises. *)
Definition leading_pair {W} (ev : Event W) : Result (Photon * Photon) :=
  match photons ev with
  | p0 :: p1 :: _ => ok (p0, p1)
  | _ => raise IndexError
  end.

Definition leading {W} (events : list (Event W)) : Result (list (Photon * Photon)) :=
  mapM leading_pair events.

(** *** The cuts, as predicates on the two leading photons *)

Definition tight_id (p : Photon * Photon) : bool :=
  Bool.eqb (photon_isTightID (fst p)) true && Bool.eqb (photon_isTightID (snd p)) true.

Definition pt_thresholds (p : Photon * Photon) : bool :=
  gt (photon_pt (fst p)) 50 && gt (photon_pt (snd p)) 30.

Definition isolation (p : Photon * Photon) : bool :=
  lt (photon_ptcone20 (fst p) / photon_pt (fst p)) 0.055
  && lt (photon_ptcone20 (snd p) / photon_pt (snd p)) 0.055.

(** [~((np.abs(eta) > 1.37) & (np.abs(eta) < 1.52))] *)
Definition eta_cut (eta : float) : bool :=
  negb (gt (abs eta) 1.37 && lt (abs eta) 1.52).

Definition eta_transition (p : Photon * Photon) : bool :=
  eta_cut (photon_eta (fst p)) && eta_cut (photon_eta (snd p)).

(** ** Library routines the notebook calls on numbers

    [vector] builds the four-momentum of a photon from (pt, eta, phi, e),
    adds two of them and reads the mass and the transverse momentum of the
    sum; numpy supplies [tanh] and the power.  They are taken as given: the
    notebook fixes which of them is called on what. *)
Record Numerics : Type := mkNumerics {
  diphoton_mass : Photon -> Photon -> float;  (* (p4[:,0] + p4[:,1]).mass *)
  diphoton_pt : Photon -> Photon -> float;    (* (p4[:,0] + p4[:,1]).pt *)
  np_tanh : float -> float;
  np_power : float -> float -> float
}.

(** [np.pi], the binary64 value nearest to pi. *)
Definition np_pi : float := 0x1.921fb54442d18p+1.

(** ** numpy's remainder on binary64

    [np.mod] on float64 is [npy_remainder]: C's [fmod], moved by one divisor
    when its sign differs from the divisor's, and a zero that takes the sign
    of the divisor. *)

(** C's [fmod] on the parts of two numbers.  The remainder of the truncated
    division is computed on the two mantissas brought to the smaller
    exponent; it has the sign of the dividend and is representable, so
    normalizing it does not round. *)
Definition SFfmod (x y : spec_float) : spec_float :=
  match x, y with
  | S754_nan, _ | _, S754_nan => S754_nan
  | S754_infinity _, _ => S754_nan
  | _, S754_zero _ => S754_nan
  | S754_zero _, _ => x
  | S754_finite _ _ _, S754_infinity _ => x
  | S754_finite sx mx ex, S754_finite _ my ey =>
      let ez := Z.min ex ey in
      let r := ((Zpos mx * 2 ^ (ex - ez)) mod (Zpos my * 2 ^ (ey - ez)))%Z in
      if (r =? 0)%Z then S754_zero sx
      else binary_normalize prec emax (cond_Zopp sx r) ez false
  end.

Definition np_fmod (x1 x2 : float) : float :=
  SF2Prim (SFfmod (Prim2SF x1) (Prim2SF x2)).

(** [npy_copysign] *)
Definition np_copysign (x1 x2 : float) : float :=
  if get_sign x2 then (- abs x1)%float else abs x1.

(** [np.mod(x1, x2)]:
    [mod = fmod(x1, x2); if (!x2) return mod;
     if (mod) { if ((x2 < 0) != (mod < 0)) mod += x2; }
     else mod = copysign(0, x2);] *)
Definition np_mod (x1 x2 : float) : float :=
  let r := np_fmod x1 x2 in
  if (x2 =? 0)%float then r
  else if negb (r =? 0)%float then
    if negb (Bool.eqb (x2 <? 0)%float (r <? 0)%float) then (r + x2)%float else r
  else np_copysign 0 x2.

(** ** Fields of a loaded array *)

Definition has_field (fields : list string) (name : string) : bool :=
  existsb (String.eqb name) fields.

(** [events.<name>]: attribute access on the record array. *)
Definition field (fields : list string) (name : string) : Result unit :=
  if has_field fields name then ok tt else raise (AttributeError name).

Definition photon_branches : list string :=
  ["photon_pt"; "photon_eta"; "photon_phi"; "photon_e";
   "photon_isTightID"; "photon_ptcone20"]%string.

Definition has_photon_fields (fields : list string) : bool :=
  forallb (has_field fields) photon_branches.

Section Preselection.

Variable num : Numerics.
Variable W : Type.
Variable fields : list string.

Local Open Scope result_scope.
Local Open Scope string_scope.

(** [(pt[:,0] / m_yy > 0.35) & (pt[:,1] / m_yy > 0.35)] *)
Definition mass_isolation (p : Photon * Photon) : bool :=
  let m_yy := diphoton_mass num (fst p) (snd p) in
  gt (photon_pt (fst p) / m_yy) 0.35 && gt (photon_pt (snd p) / m_yy) 0.35.

(** The cut sequence of [load_and_preprocess_mc_for_mva], from
    [n_photons = ak.num(events.photon_pt)] to the mass-based isolation.
    [ok []] stands for the [continue] taken when no event is left. *)
Definition preselection (events : list (Event W)) : Result (list (Event W)) :=
  field fields "photon_pt" ;;;
  let n_photons := map (fun ev => List.length (photons ev)) events in
  let events := select (map (fun n => 2 <=? n)%nat n_photons) events in
  if is_empty events then ok [] else
  field fields "photon_isTightID" ;;;
  p <- leading events ;;
  let tight_id_cut := map tight_id p in
  let events := select tight_id_cut events in
  if is_empty events then ok [] else
  p <- leading events ;;
  let pt_cut := map pt_thresholds p in
  let events := select pt_cut events in
  if is_empty events then ok [] else
  field fields "photon_ptcone20" ;;;
  p <- leading events ;;
  let iso_cut := map isolation p in
  let events := select iso_cut events in
  if is_empty events then ok [] else
  field fields "photon_eta" ;;;
  p <- leading events ;;
  let eta_cuts := map eta_transition p in
  let events := select eta_cuts events in
  if is_empty events then ok [] else
  field fields "photon_phi" ;;;
  field fields "photon_e" ;;;
  p4_photons <- leading events ;;
  let mass_iso_cut := map mass_isolation p4_photons in
  let events := select mass_iso_cut events in
  ok events.

(** *** The six predicates, per event *)

Definition n_photons_cut (ev : Event W) : bool :=
  (2 <=? List.length (photons ev))%nat.

(** A predicate on the leading pair, read on an event; an event without two
    photons has no leading pair. *)
Definition on_leading (cut : Photon * Photon -> bool) (ev : Event W) : bool :=
  match leading_pair ev with
  | inr p => cut p
  | inl _ => false
  end.

Definition cuts : list (Event W -> bool) :=
  [ n_photons_cut;
    on_leading tight_id;
    on_leading pt_thresholds;
    on_leading isolation;
    on_leading eta_transition;
    on_leading mass_isolation ].

Definition passes_all_cuts (ev : Event W) : bool :=
  forallb (fun cut => cut ev) cuts.

(** The cuts applied one after the other, in the order given. *)
Definition apply_cuts (cs : list (Event W -> bool)) (events : list (Event W))
  : list (Event W) :=
  fold_left (fun evs cut => filter cut evs) cs events.

End Preselection.

(** ** Data frames *)

Inductive Cell : Type :=
| CFloat (x : float)
| CInt (n : Z).

(** A table: column labels and rows, each row holding one cell per column. *)
Record DataFrame : Type := mkDataFrame {
  columns : list string;
  rows : list (list Cell)
}.

(** [pd.DataFrame()] *)
Definition pd_DataFrame : DataFrame := mkDataFrame [] [].

(** [df.empty]: some axis has length zero. *)
Definition empty (df : DataFrame) : bool :=
  is_empty (columns df) || is_empty (rows df).

(** [df.shape] *)
Definition shape (df : DataFrame) : nat * nat :=
  (List.length (rows df), List.length (columns df)).

(** [pd.concat(frames, ignore_index=True)] for frames with the same columns,
    which is how the notebook uses it: every frame it concatenates was built
    from the keys of [df_dict]. *)
Definition pd_concat (frames : list DataFrame) : DataFrame :=
  match frames with
  | [] => pd_DataFrame
  | df :: _ => mkDataFrame (columns df) (flat_map rows frames)
  end.

Definition isna (c : Cell) : bool :=
  match c with
  | CFloat x => PrimFloat.is_nan x
  | CInt _ => false
  end.

(** [df.dropna()]: the rows without a missing value. *)
Definition dropna (df : DataFrame) : DataFrame :=
  mkDataFrame (columns df) (filter (fun row => negb (existsb isna row)) (rows df)).

Fixpoint index_of (name : string) (names : list string) : option nat :=
  match names with
  | [] => None
  | n :: names' =>
      if String.eqb name n then Some 0%nat
      else option_map S (index_of name names')
  end.

(** Position of a column label; a label that is not a column raises. *)
Definition column_position (df : DataFrame) (name : string) : Result nat :=
  match index_of name (columns df) with
  | Some i => ok i
  | None => raise (KeyError name)
  end.

Definition cell_at (row : list Cell) (i : nat) : Result Cell :=
  match nth_error row i with
  | Some c => ok c
  | None => raise IndexError
  end.

(** [df[name]] *)
Definition get_column (df : DataFrame) (name : string) : Result (list Cell) :=
  (i <- column_position df name ;;
   mapM (fun row => cell_at row i) (rows df))%result.

(** [df[names]] *)
Definition get_columns (df : DataFrame) (names : list string) : Result DataFrame :=
  (positions <- mapM (column_position df) names ;;
   rows' <- mapM (fun row => mapM (cell_at row) positions) (rows df) ;;
   ok (mkDataFrame names rows'))%result.

(** [name in df.columns] *)
Definition in_columns (df : DataFrame) (name : string) : bool :=
  existsb (String.eqb name) (columns df).

Definition cell_eqb (a b : Cell) : bool :=
  match a, b with
  | CFloat x, CFloat y => PrimFloat.eqb x y
  | CInt m, CInt n => Z.eqb m n
  | CFloat x, CInt n => false
  | CInt m, CFloat y => false
  end.

(** [series == 1] and [series == 0] on one cell. *)
Definition equals_one (c : Cell) : bool :=
  match c with
  | CFloat x => PrimFloat.eqb x 1
  | CInt n => Z.eqb n 1
  end.

Definition equals_zero (c : Cell) : bool :=
  match c with
  | CFloat x => PrimFloat.eqb x 0
  | CInt n => Z.eqb n 0
  end.

Fixpoint distinct (l : list Cell) : list Cell :=
  match l with
  | [] => []
  | c :: l' => if existsb (cell_eqb c) l' then distinct l' else c :: distinct l'
  end.

(** [series.nunique()]: the number of distinct values, missing ones left out. *)
Definition nunique (series : list Cell) : nat :=
  List.length (distinct (filter (fun c => negb (isna c)) series)).

(** [a[indices]]: rows at the given positions. *)
Definition take {A} (l : list A) (indices : list nat) : Result (list A) :=
  mapM (fun i => match nth_error l i with
                 | Some a => ok a
                 | None => raise IndexError
                 end) indices.

(** ** Feature engineering *)

(** What [event_weights] holds: a number per event ([ndim] 1), or a
    sequence per event ([ndim] 2). *)
Inductive WeightArray : Type :=
| W1 (values : list float)
| W2 (values : list (list float)).

(** [event_weights.type.content.length] on a sequence per event:
    [event_weights.type] is an array type, whose [content] is the type of
    one event's sequence, a list type.  List types have a [content] and no
    [length], so the attribute access raises. *)
Definition type_content_length (values : list (list float)) : Result Z :=
  raise (AttributeError "length").

(** [x[:,0]] on a sequence per event. *)
Definition first_of (l : list float) : Result float :=
  match l with
  | x :: _ => ok x
  | [] => raise IndexError
  end.

Definition df_dict_keys : list string :=
  ["ph1_pt_norm"; "ph2_pt_norm"; "ph1_eta"; "ph2_eta";
   "delta_eta_yy"; "delta_phi_yy"; "delta_R_yy";
   "ph1_ptcone20_norm"; "ph2_ptcone20_norm"; "cos_theta_cs_yy";
   "m_yy"; "pt_yy"; "eventWeight"; "isSignal"]%string.

Section Features.

Variable num : Numerics.

Local Open Scope float_scope.

Definition delta_eta_yy (ph1_eta ph2_eta : float) : float :=
  abs (ph1_eta - ph2_eta).

Definition delta_phi_yy (ph1_phi ph2_phi : float) : float :=
  let delta_phi_yy_raw := ph1_phi - ph2_phi in
  abs (np_mod (delta_phi_yy_raw + np_pi) (2 * np_pi) - np_pi).

Definition delta_R_yy (delta_eta delta_phi : float) : float :=
  PrimFloat.sqrt (np_power num delta_eta 2 + np_power num delta_phi 2).

Definition cos_theta_cs_yy (ph1_eta ph2_eta : float) : float :=
  abs (np_tanh num (0.5 * (ph1_eta - ph2_eta))).

(** One row of [df_dict], in the order of its keys. *)
Definition feature_row (is_signal_flag : Z) (p : Photon * Photon) (event_weight : float)
  : list Cell :=
  let ph1 := fst p in
  let ph2 := snd p in
  let m_yy_final := diphoton_mass num ph1 ph2 in
  let pt_yy_final := diphoton_pt num ph1 ph2 in
  let d_eta := delta_eta_yy (photon_eta ph1) (photon_eta ph2) in
  let d_phi := delta_phi_yy (photon_phi ph1) (photon_phi ph2) in
  [ CFloat (photon_pt ph1 / m_yy_final);
    CFloat (photon_pt ph2 / m_yy_final);
    CFloat (photon_eta ph1);
    CFloat (photon_eta ph2);
    CFloat d_eta;
    CFloat d_phi;
    CFloat (delta_R_yy d_eta d_phi);
    CFloat (photon_ptcone20 ph1 / photon_pt ph1);
    CFloat (photon_ptcone20 ph2 / photon_pt ph2);
    CFloat (cos_theta_cs_yy (photon_eta ph1) (photon_eta ph2));
    CFloat m_yy_final;
    CFloat pt_yy_final;
    CFloat event_weight;
    CInt is_signal_flag ].

Variable W : Type.
Variable fields : list string.

(** [events.mcEventWeight] on the surviving events. *)
Variable weight_column : list (Event W) -> Result WeightArray.

Local Open Scope result_scope.
Local Open Scope string_scope.

(** [events.mcEventWeight if "mcEventWeight" in events.fields else
    ak.ones_like(ph1_pt)] *)
Definition event_weights (events : list (Event W)) (ph1_pt : list float)
  : Result WeightArray :=
  if has_field fields "mcEventWeight"
  then weight_column events
  else ok (W1 (map (fun _ => 1%float) ph1_pt)).

(** The [if hasattr(event_weights, "ndim") and event_weights.ndim > 1 and
    event_weights.type.content.length > 0] lines.  With a number per event
    the second test fails and the array is kept; with a sequence per event
    the third test is evaluated before [event_weights[:,0]] is. *)
Definition nominal_weights (event_weights : WeightArray) : Result WeightArray :=
  match event_weights with
  | W1 values => ok (W1 values)
  | W2 values =>
      n <- type_content_length values ;;
      if (0 <? n)%Z
      then (firsts <- mapM first_of values ;; ok (W1 firsts))
      else ok (W2 values)
  end.

(** The body of the loop over files, from the cuts to [pd.DataFrame(df_dict)].
    [None] is a [continue]: the file adds no frame to [df_list].  The frame
    takes one-dimensional columns of one length; anything else raises. *)
Definition frame_of_events (is_signal_flag : Z) (events : list (Event W))
  : Result (option DataFrame) :=
  events <- preselection num fields events ;;
  if is_empty events then ok None else
  p <- leading events ;;
  w <- event_weights events (map (fun q => photon_pt (fst q)) p) ;;
  w <- nominal_weights w ;;
  match w with
  | W1 values =>
      if (List.length values =? List.length p)%nat
      then ok (Some (mkDataFrame df_dict_keys
                       (map (fun pw => feature_row is_signal_flag (fst pw) (snd pw))
                            (List.combine p values))))
      else raise ValueError
  | W2 _ => raise ValueError
  end.

End Features.

(** ** Files and trees *)

(** The entries of a tree, by the kind of its [mcEventWeight] branch. *)
Inductive Entries : Type :=
| NoWeightBranch (events : list (Event unit))
| FlatWeights (events : list (Event float))
| NestedWeights (events : list (Event (list float))).

(** A tree of a ROOT file: the names of its branches and its entries. *)
Record Tree : Type := mkTree {
  tree_keys : list string;
  tree_entries : Entries
}.

(** An awkward record array as [tree.arrays] returns it: the fields that were
    read, and the entries. *)
Record Array : Type := mkArray {
  fields : list string;
  entries : Entries
}.

(** [tree.arrays(branches, library="ak")]: uproot raises [KeyInFileError] on
    the first requested name that is not a branch of the tree; otherwise the
    array has exactly the requested fields. *)
Definition tree_arrays (tree : Tree) (branches : list string) : Result Array :=
  match find (fun b => negb (has_field (tree_keys tree) b)) branches with
  | Some b => raise (KeyInFileError b)
  | None => ok (mkArray branches (tree_entries tree))
  end.

(** [len(events)] *)
Definition len (events : Array) : nat :=
  match entries events with
  | NoWeightBranch evs => List.length evs
  | FlatWeights evs => List.length evs
  | NestedWeights evs => List.length evs
  end.

(** What the notebook reads from outside: the file names a pattern matches,
    in the order [glob.glob] lists them, the result of opening
    ["<path>:<tree>"] with uproot, and the working directory. *)
Record World : Type := mkWorld {
  os_getcwd : string;
  glob_glob : string -> list string;
  uproot_open : string -> Result Tree
}.

(** ** Output and effects of a run *)

Inductive Message : Type :=
| NoFilesFound (pattern : string)
| ProcessingFiles (n : nat) (pattern : string)
| ErrorReadingFile (file_path : string) (e : Exception)
| NoEventsIn (file_path : string)
| FinishedProcessing (shape : nat * nat)
| ConfigurationSet (signal background model scaler : string)
| FunctionDefined
| LoadedSignal (shape : nat * nat)
| LoadedBackground (shape : nat * nat)
| ColumnsOf (which : string) (columns : list string)
| HeadOf (which : string) (rows : list (list Cell))
| CombinedShape (shape : nat * nat)
| WarningBackgroundEmpty
| WarningSignalEmpty
| ErrorBothEmpty
| WarningFeatureNotFound (feature : string)
| SkippingFeaturePlots
| ErrorMissingFeatures (missing_features : list string)
| AvailableColumns (columns : list string)
| FeaturesDefined (x_shape : nat * nat) (y_shape w_shape : nat)
| CannotDefineXy
| TrainingSetSize (n : nat)
| TestSetSize (n : nat)
| FeaturesScaled
| SkippingSplit
| TrainingModel
| TrainingComplete
| ModelAccuracy (accuracy : float)
| SkippingTraining
| ConfusionMatrix (cm : list (list float))
| SkippingEvaluation
| ModelSaved (path : string)
| ScalerSaved (path : string)
| SkippingSaving.

Inductive Artifact : Type := TheModel | TheScaler.

(** What a run does besides computing: it prints, shows figures, calls into
    scikit-learn and writes files. *)
Inductive Effect : Type :=
| Stdout (m : Message)
| PltShow (figure : string)
| TrainTestSplit (stratified : bool)
| ScalerFit (n_rows : nat)
| ScalerTransform (n_rows : nat)
| ClassifierFit (n_rows : nat)
| ClassifierScore
| ClassifierPredict
| RocCurve
| JoblibDump (what : Artifact) (path : string).

(** A cell: the effects so far, and a value or the exception that stopped it. *)
Definition Run (A : Type) : Type := (list Effect * Result A)%type.

Definition ret {A} (a : A) : Run A := ([], ok a).

Definition bind {A B} (m : Run A) (f : A -> Run B) : Run B :=
  match snd m with
  | inl e => (fst m, inl e)
  | inr a => (fst m ++ fst (f a), snd (f a))
  end.

Definition tell (effects : list Effect) : Run unit := (effects, ok tt).
Definition print (m : Message) : Run unit := tell [Stdout m].

(** A library call whose exception is not caught. *)
Definition lift {A} (r : Result A) : Run A := ([], r).

Definition effects {A} (m : Run A) : list Effect := fst m.
Definition outcome {A} (m : Run A) : Result A := snd m.

Declare Scope run_scope.
Delimit Scope run_scope with run.
Notation "x <- m ;; k" := (bind m (fun x => k))
  (at level 61, m at next level, right associativity) : run_scope.
Notation "m ;;; k" := (bind m (fun _ => k))
  (at level 61, right associativity) : run_scope.

(** ** Configuration (the second cell) *)

Local Open Scope string_scope.

Definition ends_with_slash (s : string) : bool :=
  match get (String.length s - 1) s with
  | Some c => Ascii.eqb c "/"%char
  | None => false
  end.

(** [os.path.join(a, b)] for a relative [b]. *)
Definition os_path_join (a b : string) : string :=
  if String.eqb a "" then b
  else if ends_with_slash a then a ++ b
  else a ++ "/" ++ b.

Definition tree_name : string := "analysis".

Definition branches_to_read_mc : list string :=
  ["photon_pt"; "photon_eta"; "photon_phi"; "photon_e";
   "photon_isTightID"; "photon_ptcone20";
   "mcEventWeight"].

Definition mva_features_list : list string :=
  ["ph1_pt_norm"; "ph2_pt_norm";
   "ph1_eta"; "ph2_eta";
   "delta_eta_yy"; "delta_phi_yy"; "delta_R_yy";
   "ph1_ptcone20_norm"; "ph2_ptcone20_norm";
   "cos_theta_cs_yy"].

Section Configuration.

Variable world : World.

Definition notebook_base_dir : string := os_getcwd world.
Definition data_dir : string := os_path_join notebook_base_dir "data".
Definition mc_signal_hyy_file_pattern : string :=
  os_path_join data_dir "DAOD_PHYSLITE.38191712.*.pool.root.1".
Definition mc_background_hyy_file_pattern : string :=
  os_path_join data_dir "DAOD_PHYSLITE.37110937._000011.pool.root.1".
Definition output_model_dir : string := notebook_base_dir.
Definition mva_model_path : string := os_path_join output_model_dir "hyy_mva_model.pkl".
Definition mva_scaler_path : string := os_path_join output_model_dir "hyy_mva_scaler.pkl".

End Configuration.

(** ** The loader: [load_and_preprocess_mc_for_mva] *)

Section Loader.

Variable num : Numerics.
Variable world : World.

Local Open Scope run_scope.

(** The [try] block: open the tree and read the branches. *)
Definition read_events (file_path tree_name_param : string) (branches_param : list string)
  : Result Array :=
  rbind (uproot_open world (file_path ++ ":" ++ tree_name_param))
        (fun tree => tree_arrays tree branches_param).

(** Cuts and features on a loaded array, whatever the kind of its weights. *)
Definition frame_of_array (is_signal_flag : Z) (events : Array) : Result (option DataFrame) :=
  match entries events with
  | NoWeightBranch evs =>
      frame_of_events num (fields events)
        (fun _ => raise (AttributeError "mcEventWeight")) is_signal_flag evs
  | FlatWeights evs =>
      frame_of_events num (fields events)
        (fun evs' => ok (W1 (map mcEventWeight evs'))) is_signal_flag evs
  | NestedWeights evs =>
      frame_of_events num (fields events)
        (fun evs' => ok (W2 (map mcEventWeight evs'))) is_signal_flag evs
  end.

(** The loop over [all_files]; [df_list] is the list built so far. *)
Fixpoint load_files (is_signal_flag : Z) (tree_name_param : string)
    (branches_param : list string) (all_files : list string) (df_list : list DataFrame)
  : Run (list DataFrame) :=
  match all_files with
  | [] => ret df_list
  | file_path :: rest =>
      match read_events file_path tree_name_param branches_param with
      | inl e =>
          print (ErrorReadingFile file_path e) ;;;
          load_files is_signal_flag tree_name_param branches_param rest df_list
      | inr events =>
          if (len events =? 0)%nat then
            print (NoEventsIn file_path) ;;;
            load_files is_signal_flag tree_name_param branches_param rest df_list
          else
            frame <- lift (frame_of_array is_signal_flag events) ;;
            match frame with
            | None =>
                load_files is_signal_flag tree_name_param branches_param rest df_list
            | Some df =>
                load_files is_signal_flag tree_name_param branches_param rest
                  (df_list ++ [df])%list
            end
      end
  end.

Definition load_and_preprocess_mc_for_mva (file_paths_pattern : string)
    (is_signal_flag : Z) (tree_name_param : string) (branches_param : list string)
  : Run DataFrame :=
  let all_files := glob_glob world file_paths_pattern in
  if is_empty all_files then
    print (NoFilesFound file_paths_pattern) ;;;
    ret pd_DataFrame
  else
    print (ProcessingFiles (List.length all_files) file_paths_pattern) ;;;
    df_list <- load_files is_signal_flag tree_name_param branches_param all_files [] ;;
    if is_empty df_list then ret pd_DataFrame
    else
      let final_df := dropna (pd_concat df_list) in
      print (FinishedProcessing (shape final_df)) ;;;
      ret final_df.

End Loader.

(** ** The libraries behind the later cells

    pandas' seeded shuffle and scikit-learn's split, scaler, classifier and
    metrics are called with fixed seeds and settings, so each is a function
    of its arguments; a call may raise.  [plt.hist] is given the values and
    their weights, and may raise too (numpy refuses to bin a range that is
    not finite).  [train_test_split] is given the number of rows and the
    [stratify] argument and returns the positions of the training and of the
    test rows; the notebook's three arrays are then indexed with them. *)
Record Libraries (Scaler Model : Type) : Type := mkLibraries {
  sample_order : nat -> list nat;
  plt_hist : list Cell -> list Cell -> Result unit;
  train_test_split : nat -> option (list Cell) -> Result (list nat * list nat);
  StandardScaler_fit : list (list Cell) -> Result Scaler;
  StandardScaler_transform : Scaler -> list (list Cell) -> Result (list (list float));
  MLPClassifier_fit : list (list float) -> list Cell -> Result Model;
  MLPClassifier_score : Model -> list (list float) -> list Cell -> Result float;
  MLPClassifier_predict_proba : Model -> list (list float) -> Result (list float);
  MLPClassifier_predict : Model -> list (list float) -> Result (list Cell);
  roc_auc : list Cell -> list float -> list Cell -> Result float;
  confusion_matrix : list Cell -> list Cell -> list Cell -> Result (list (list float))
}.

(** [array.size] of a two-dimensional array. *)
Definition size (a : list (list float)) : nat := List.length (List.concat a).

Section Notebook.

Variable num : Numerics.
Variable world : World.
Variables Scaler Model : Type.
Variable lib : Libraries Scaler Model.

Local Open Scope run_scope.

(** *** "Load and Process MC Signal and Background Data" *)

Definition describe (which : string) (df : DataFrame) : Run unit :=
  if negb (empty df) then
    print (ColumnsOf which (columns df)) ;;;
    print (HeadOf which (firstn 5 (rows df)))
  else ret tt.

(** The [if]/[elif] chain that builds [df_combined_mc]. *)
Definition combine_mc (df_signal_mc df_background_mc : DataFrame) : Run DataFrame :=
  if negb (empty df_signal_mc) && negb (empty df_background_mc) then
    let df_combined_mc := pd_concat [df_signal_mc; df_background_mc] in
    print (CombinedShape (shape df_combined_mc)) ;;;
    shuffled <- lift (take (rows df_combined_mc)
                        (sample_order lib (List.length (rows df_combined_mc)))) ;;
    let df_combined_mc := mkDataFrame (columns df_combined_mc) shuffled in
    print (HeadOf "Combined MC" (firstn 5 (rows df_combined_mc))) ;;;
    ret df_combined_mc
  else if negb (empty df_signal_mc) then
    print WarningBackgroundEmpty ;;;
    ret df_signal_mc
  else if negb (empty df_background_mc) then
    print WarningSignalEmpty ;;;
    ret df_background_mc
  else
    print ErrorBothEmpty ;;;
    ret pd_DataFrame.

(** *** "Quick Check of Feature Distributions" *)

(** [df[df['isSignal'] == k]]: the rows whose label passes the test. *)
Definition rows_where (df : DataFrame) (test : Cell -> bool) : Result DataFrame :=
  (isSignal <- get_column df "isSignal" ;;
   ok (mkDataFrame (columns df) (select (map test isSignal) (rows df))))%result.

(** One [plt.hist(df[df['isSignal'] == k][feature], ...,
    weights=df[df['isSignal'] == k]['eventWeight'])]. *)
Definition hist (df : DataFrame) (test : Cell -> bool) (feature : string) : Result unit :=
  (selected <- rows_where df test ;;
   x <- get_column selected feature ;;
   selected <- rows_where df test ;;
   weights <- get_column selected "eventWeight" ;;
   plt_hist lib x weights)%result.

Fixpoint plot_features (df_combined_mc : DataFrame) (features : list string) : Run unit :=
  match features with
  | [] => ret tt
  | feature :: rest =>
      (if in_columns df_combined_mc feature then
         lift (hist df_combined_mc equals_one feature) ;;;
         lift (hist df_combined_mc equals_zero feature) ;;;
         tell [PltShow feature]
       else print (WarningFeatureNotFound feature)) ;;;
      plot_features df_combined_mc rest
  end.

Definition quick_check (df_combined_mc : DataFrame) : Run unit :=
  if negb (empty df_combined_mc) then plot_features df_combined_mc mva_features_list
  else print SkippingFeaturePlots.

(** *** "Define Features (X) and Target (y)" *)

Definition missing_features (df_combined_mc : DataFrame) : list string :=
  filter (fun f => negb (in_columns df_combined_mc f)) mva_features_list.

Definition define_X_y (df_combined_mc : DataFrame)
  : Run (DataFrame * list Cell * list Cell) :=
  if negb (empty df_combined_mc) then
    if negb (is_empty (missing_features df_combined_mc)) then
      print (ErrorMissingFeatures (missing_features df_combined_mc)) ;;;
      print (AvailableColumns (columns df_combined_mc)) ;;;
      ret (pd_DataFrame, [], [])
    else
      X <- lift (get_columns df_combined_mc mva_features_list) ;;
      y <- lift (get_column df_combined_mc "isSignal") ;;
      weights <- lift (get_column df_combined_mc "eventWeight") ;;
      print (FeaturesDefined (shape X) (List.length y) (List.length weights)) ;;;
      ret (X, y, weights)
  else
    print CannotDefineXy ;;;
    ret (pd_DataFrame, [], []).

(** *** "Split Data and Scale Features" *)

(** The variables this cell leaves behind; [scaler] stays unbound ([None])
    when the cell takes its [else] branch. *)
Record SplitData : Type := mkSplitData {
  X_train_scaled : list (list float);
  X_test_scaled : list (list float);
  y_train : list Cell;
  y_test : list Cell;
  w_train : list Cell;
  w_test : list Cell;
  scaler : option Scaler
}.

(** [stratify=y if y.nunique() > 1 else None] *)
Definition stratify_argument (y : list Cell) : option (list Cell) :=
  if (1 <? nunique y)%nat then Some y else None.

Definition split_and_scale (X : DataFrame) (y weights : list Cell) : Run SplitData :=
  if negb (empty X) then
    let stratify := stratify_argument y in
    tell [TrainTestSplit (match stratify with Some _ => true | None => false end)] ;;;
    parts <- lift (train_test_split lib (List.length (rows X)) stratify) ;;
    X_train <- lift (take (rows X) (fst parts)) ;;
    X_test <- lift (take (rows X) (snd parts)) ;;
    y_train <- lift (take y (fst parts)) ;;
    y_test <- lift (take y (snd parts)) ;;
    w_train <- lift (take weights (fst parts)) ;;
    w_test <- lift (take weights (snd parts)) ;;
    print (TrainingSetSize (List.length X_train)) ;;;
    print (TestSetSize (List.length X_test)) ;;;
    tell [ScalerFit (List.length X_train)] ;;;
    scaler <- lift (StandardScaler_fit lib X_train) ;;
    tell [ScalerTransform (List.length X_train)] ;;;
    X_train_scaled <- lift (StandardScaler_transform lib scaler X_train) ;;
    tell [ScalerTransform (List.length X_test)] ;;;
    X_test_scaled <- lift (StandardScaler_transform lib scaler X_test) ;;
    print FeaturesScaled ;;;
    ret (mkSplitData X_train_scaled X_test_scaled y_train y_test w_train w_test
           (Some scaler))
  else
    print SkippingSplit ;;;
    ret (mkSplitData [] [] [] [] [] [] None).

(** *** "Train Neural Network" *)

Definition train (d : SplitData) : Run (option Model) :=
  if (0 <? size (X_train_scaled d))%nat then
    print TrainingModel ;;;
    tell [ClassifierFit (List.length (X_train_scaled d))] ;;;
    mlp_model <- lift (MLPClassifier_fit lib (X_train_scaled d) (y_train d)) ;;
    print TrainingComplete ;;;
    tell [ClassifierScore] ;;;
    accuracy <- lift (MLPClassifier_score lib mlp_model (X_test_scaled d) (y_test d)) ;;
    print (ModelAccuracy accuracy) ;;;
    ret (Some mlp_model)
  else
    print SkippingTraining ;;;
    ret None.

(** *** "Evaluate Model Performance" *)

Definition evaluate (mlp_model : option Model) (d : SplitData) : Run unit :=
  match mlp_model with
  | Some model =>
      if (0 <? size (X_test_scaled d))%nat then
        tell [ClassifierPredict] ;;;
        y_pred_proba <- lift (MLPClassifier_predict_proba lib model (X_test_scaled d)) ;;
        y_pred_class <- lift (MLPClassifier_predict lib model (X_test_scaled d)) ;;
        tell [RocCurve] ;;;
        lift (roc_auc lib (y_test d) y_pred_proba (w_test d)) ;;;
        tell [PltShow "Receiver Operating Characteristic (ROC) - Test Set"] ;;;
        cm <- lift (confusion_matrix lib (y_test d) y_pred_class (w_test d)) ;;
        print (ConfusionMatrix cm) ;;;
        tell [PltShow "MVA Output Score Distribution (Test Set)"]
      else print SkippingEvaluation
  | None => print SkippingEvaluation
  end.

(** *** "Save Model and Scaler" *)

(** [if mlp_model and scaler:]; the name [scaler] is looked up only when
    [mlp_model] is not [None]. *)
Definition save (mlp_model : option Model) (d : SplitData) : Run unit :=
  match mlp_model with
  | Some model =>
      match scaler d with
      | Some s =>
          tell [JoblibDump TheModel (mva_model_path world)] ;;;
          print (ModelSaved (mva_model_path world)) ;;;
          tell [JoblibDump TheScaler (mva_scaler_path world)] ;;;
          print (ScalerSaved (mva_scaler_path world))
      | None => lift (raise (NameError "scaler"))
      end
  | None => print SkippingSaving
  end.

(** *** The cells in order *)

(** The cells from "Define Features" on, given the assembled dataset. *)
Definition train_and_save (df_combined_mc : DataFrame) : Run (option Model * SplitData) :=
  Xyw <- define_X_y df_combined_mc ;;
  d <- split_and_scale (fst (fst Xyw)) (snd (fst Xyw)) (snd Xyw) ;;
  mlp_model <- train d ;;
  evaluate mlp_model d ;;;
  save mlp_model d ;;;
  ret (mlp_model, d).

(** The cells after the two calls of the loader. *)
Definition assemble_and_train (df_signal_mc df_background_mc : DataFrame)
  : Run (option Model * SplitData) :=
  df_combined_mc <- combine_mc df_signal_mc df_background_mc ;;
  quick_check df_combined_mc ;;;
  train_and_save df_combined_mc.

(** The whole notebook, run from the top. *)
Definition run_all : Run (option Model * SplitData) :=
  print (ConfigurationSet (mc_signal_hyy_file_pattern world)
           (mc_background_hyy_file_pattern world)
           (mva_model_path world) (mva_scaler_path world)) ;;;
  print FunctionDefined ;;;
  df_signal_mc <- load_and_preprocess_mc_for_mva num world
                    (mc_signal_hyy_file_pattern world) 1 tree_name branches_to_read_mc ;;
  print (LoadedSignal (shape df_signal_mc)) ;;;
  describe "Signal MC" df_signal_mc ;;;
  df_background_mc <- load_and_preprocess_mc_for_mva num world
                        (mc_background_hyy_file_pattern world) 0 tree_name
                        branches_to_read_mc ;;
  print (LoadedBackground (shape df_background_mc)) ;;;
  describe "Background MC" df_background_mc ;;;
  assemble_and_train df_signal_mc df_background_mc.

End Notebook.

(** ** Closed instances

    Stand-ins for the libraries, a small file system and a few events, on
    which the definitions above run to a value. *)

(** Every pair taken back to back at equal rapidity: mass [2 sqrt(pt1 pt2)];
    [tanh] and the power are the simplest functions of their type. *)
Definition example_numerics : Numerics :=
  mkNumerics
    (fun p q => 2 * PrimFloat.sqrt (photon_pt p * photon_pt q))%float
    (fun p q => abs (photon_pt p - photon_pt q))%float
    (fun x => x)
    (fun x k => x * x)%float.

(** A split that keeps the order of the rows: the last [ceil(0.3 n)] rows are
    the test rows; an empty training part raises, as scikit-learn does. *)
Definition example_split (n : nat) (stratify : option (list Cell))
  : Result (list nat * list nat) :=
  let n_test := ((3 * n + 9) / 10)%nat in
  let n_train := (n - n_test)%nat in
  if (n_train =? 0)%nat then raise ValueError
  else ok (seq 0 n_train, seq n_train n_test).

Definition cell_value (c : Cell) : float :=
  match c with
  | CFloat x => x
  | CInt n => PrimFloat.of_uint63 (Uint63.of_Z n)
  end.

(** Mean and scale of each column of a training table, summed in row order;
    a zero deviation is replaced by one. *)
Definition column_mean (col : list float) : float :=
  (fold_left PrimFloat.add col 0
   / PrimFloat.of_uint63 (Uint63.of_Z (Z.of_nat (List.length col))))%float.

Definition column_scale (col : list float) : float :=
  let m := column_mean col in
  let v := column_mean (map (fun x => (x - m) * (x - m))%float col) in
  if PrimFloat.eqb v 0 then 1%float else PrimFloat.sqrt v.

Fixpoint column_stats (width : nat) (table : list (list float)) : list (float * float) :=
  match width with
  | O => []
  | S w =>
      let col := map (fun row => hd 0%float row) table in
      (column_mean col, column_scale col) :: column_stats w (map (@tl float) table)
  end.

Definition example_fit (X : list (list Cell)) : Result (list (float * float)) :=
  match X with
  | [] => raise ValueError
  | row :: _ => ok (column_stats (List.length row) (map (map cell_value) X))
  end.

Definition example_transform (s : list (float * float)) (X : list (list Cell))
  : Result (list (list float)) :=
  ok (map (fun row =>
             map (fun xs => ((cell_value (fst xs) - fst (snd xs)) / snd (snd xs))%float)
               (List.combine row s)) X).

(** A histogram that refuses an infinite value. *)
Definition example_hist (x weights : list Cell) : Result unit :=
  if existsb (fun c => match c with
                       | CFloat v => PrimFloat.is_infinity v
                       | CInt _ => false
                       end) x
  then raise ValueError else ok tt.

Definition example_libraries : Libraries (list (float * float)) unit :=
  mkLibraries
    (fun n => rev (seq 0 n))
    example_hist
    example_split
    example_fit
    example_transform
    (fun X y => ok tt)
    (fun model X y => ok 1%float)
    (fun model X => ok (map (fun _ => 0.5%float) X))
    (fun model X => ok (map (fun _ => CInt 1) X))
    (fun y p w => ok 0.5%float)
    (fun y p w => ok [[0; 0]; [0; 1]]%float).

Definition example_photon_1 : Photon := mkPhoton 60 0.1 0.5 60.3 true 0.6.
Definition example_photon_2 : Photon := mkPhoton 35 0.2 (-2.6) 35.7 true 0.35.
(** A leading photon in the transition region, [|eta| = 1.40]. *)
Definition example_photon_crack : Photon := mkPhoton 60 1.40 0.5 129 true 0.6.
(** Photons exactly on the two edges of the region. *)
Definition example_photon_edge_1 : Photon := mkPhoton 60 1.37 0.5 126 true 0.6.
Definition example_photon_edge_2 : Photon := mkPhoton 35 (-1.52) (-2.6) 84 true 0.35.

Definition example_events : list (Event float) :=
  [ mkEvent [example_photon_1; example_photon_2] 1.5%float;
    mkEvent [example_photon_crack; example_photon_2] 0.7%float;
    mkEvent [example_photon_1] 2%float;
    mkEvent [example_photon_edge_1; example_photon_edge_2; example_photon_2] 0.25%float ].

Definition example_events_nested : list (Event (list float)) :=
  [ mkEvent [example_photon_1; example_photon_2] [1.5; 1.4; 1.6]%float;
    mkEvent [example_photon_1] [2; 2; 2]%float;
    mkEvent [example_photon_edge_1; example_photon_edge_2] [0.25; 0.3; 0.2]%float ].

Definition example_events_unweighted : list (Event unit) :=
  [ mkEvent [example_photon_1; example_photon_2] tt;
    mkEvent [example_photon_crack; example_photon_2] tt ].

(** Three files match the signal pattern: one that cannot be opened, one with
    all seven branches, one whose tree has no [mcEventWeight] branch.  The
    background pattern matches one file, with a weight sequence per event. *)
Definition example_world : World :=
  mkWorld "/work"
    (fun pattern =>
       if String.eqb pattern "/work/data/DAOD_PHYSLITE.38191712.*.pool.root.1"
       then ["/work/data/DAOD_PHYSLITE.38191712._000001.pool.root.1";
             "/work/data/DAOD_PHYSLITE.38191712._000002.pool.root.1";
             "/work/data/DAOD_PHYSLITE.38191712._000003.pool.root.1"]
       else if String.eqb pattern "/work/data/DAOD_PHYSLITE.37110937._000011.pool.root.1"
       then ["/work/data/DAOD_PHYSLITE.37110937._000011.pool.root.1"]
       else [])
    (fun path =>
       if String.eqb path "/work/data/DAOD_PHYSLITE.38191712._000002.pool.root.1:analysis"
       then ok (mkTree branches_to_read_mc (FlatWeights example_events))
       else if String.eqb path "/work/data/DAOD_PHYSLITE.38191712._000003.pool.root.1:analysis"
       then ok (mkTree photon_branches (NoWeightBranch example_events_unweighted))
       else if String.eqb path "/work/data/DAOD_PHYSLITE.37110937._000011.pool.root.1:analysis"
       then ok (mkTree branches_to_read_mc (NestedWeights example_events_nested))
       else raise (FileNotFoundError path)).

(** The run recorded in the notebook's outputs: the signal pattern matched
    seventeen names and the background pattern one, and none of them could
    be opened. *)
Definition recorded_signal_files : list string :=
  map (fun k => "/work/data/DAOD_PHYSLITE.38191712._0000" ++ k ++ ".pool.root.1")
      ["16"; "06"; "13"; "10"; "05"; "19"; "09"; "20"; "12"; "07"; "02"; "17";
       "14"; "08"; "01"; "18"; "11"].

Definition recorded_world : World :=
  mkWorld "/work"
    (fun pattern =>
       if String.eqb pattern "/work/data/DAOD_PHYSLITE.38191712.*.pool.root.1"
       then recorded_signal_files
       else if String.eqb pattern "/work/data/DAOD_PHYSLITE.37110937._000011.pool.root.1"
       then ["/work/data/DAOD_PHYSLITE.37110937._000011.pool.root.1"]
       else [])
    (fun path => raise (FileNotFoundError path)).

(** A table that lacks eight of the ten features. *)
Definition example_incomplete : DataFrame :=
  mkDataFrame ["ph1_eta"; "ph2_eta"; "m_yy"; "eventWeight"; "isSignal"]
    [ [CFloat 0.1; CFloat 0.2; CFloat 91.6; CFloat 1.5; CInt 1];
      [CFloat 1.37; CFloat (-1.52); CFloat 91.6; CFloat 0.25; CInt 0] ].

(** Four rows of signal and no background: a dataset with one label. *)
Definition example_signal_only : DataFrame :=
  Eval vm_compute in
    match outcome (load_and_preprocess_mc_for_mva example_numerics example_world
                     (mc_signal_hyy_file_pattern example_world) 1 tree_name
                     branches_to_read_mc) with
    | inr df => pd_concat [df; df]
    | inl _ => pd_DataFrame
    end.

(** Feature tables of four rows that agree on rows 0 and 1 and differ on
    rows 2 and 3, with their labels and weights. *)
Definition example_X : DataFrame :=
  mkDataFrame mva_features_list
    [ map CFloat [0.65; 0.38; 0.1; 0.2; 0.1; 3.1; 3.1; 0.01; 0.01; 0.05]%float;
      map CFloat [0.60; 0.40; 1.37; -1.52; 2.89; 3.0; 4.2; 0.02; 0.01; 0.9]%float;
      map CFloat [0.55; 0.45; -0.3; 0.4; 0.7; 2.5; 2.6; 0.03; 0.02; 0.3]%float;
      map CFloat [0.70; 0.36; 2.0; 1.9; 0.1; 2.9; 2.9; 0.00; 0.05; 0.05]%float ].

Definition example_X' : DataFrame :=
  mkDataFrame mva_features_list
    [ map CFloat [0.65; 0.38; 0.1; 0.2; 0.1; 3.1; 3.1; 0.01; 0.01; 0.05]%float;
      map CFloat [0.60; 0.40; 1.37; -1.52; 2.89; 3.0; 4.2; 0.02; 0.01; 0.9]%float;
      map CFloat [1000; -1000; 7; 7; 7; 7; 7; 7; 7; 7]%float;
      map CFloat [0; 0; 0; 0; 0; 0; 0; 0; 0; 0]%float ].

Definition example_y : list Cell := [CInt 1; CInt 0; CInt 1; CInt 0].
Definition example_weights : list Cell := map CFloat [1.5; 0.25; 1; 2]%float.

(** A fit of the scaler. *)
Definition is_scaler_fit (e : Effect) : bool :=
  match e with
  | ScalerFit _ => true
  | _ => false
  end.

(** What a file contributes when its surviving events carry the weights
    [ws]: nothing when there is no survivor, and otherwise a frame with one
    row per survivor whose [eventWeight] column is [ws]. *)
Definition emits_weights (frame : Result (option DataFrame)) (ws : list float) : Prop :=
  match ws with
  | [] => frame = ok None
  | _ :: _ =>
      exists df,
        frame = ok (Some df)
        /\ List.length (rows df) = List.length ws
        /\ get_column df "eventWeight" = ok (map CFloat ws)
  end.

(** The arrays of the files that could be read, in the order of the files. *)
Definition loaded (world : World) (tree_name_param : string) (branches_param : list string)
    (all_files : list string) : list Array :=
  flat_map (fun file_path =>
              match read_events world file_path tree_name_param branches_param with
              | inr events => [events]
              | inl _ => []
              end) all_files.

(** The frames a list of loaded arrays contributes to [df_list]: none for an
    array without entries or without survivors. *)
Fixpoint frames_of (num : Numerics) (is_signal_flag : Z) (arrays : list Array)
  : Result (list DataFrame) :=
  match arrays with
  | [] => ok []
  | events :: rest =>
      if (len events =? 0)%nat then frames_of num is_signal_flag rest
      else
        (frame <- frame_of_array num is_signal_flag events ;;
         frames <- frames_of num is_signal_flag rest ;;
         ok (match frame with
             | Some df => df :: frames
             | None => frames
             end))%result
  end.

(** An effect that is only a line of output. *)
Definition is_output (e : Effect) : bool :=
  match e with
  | Stdout _ => true
  | _ => false
  end.

(** ** Reading the rows of a frame *)

(** A row built from a leading pair that passes the five cuts on pairs. *)
Definition survivor_row (num : Numerics) (is_signal_flag : Z) (row : list Cell) : Prop :=
  exists p w,
    row = feature_row num is_signal_flag p w
    /\ tight_id p = true
    /\ pt_thresholds p = true
    /\ isolation p = true
    /\ eta_transition p = true
    /\ mass_isolation num p = true.

(** The cuts as they can be read back from a row of fourteen cells:
    [ph1_pt_norm] and [ph2_pt_norm] above 0.35, [ph1_eta] and [ph2_eta]
    outside the transition region, both [ptcone20_norm] below 0.055, and the
    label in [isSignal]. *)
Definition row_within_cuts (is_signal_flag : Z) (row : list Cell) : bool :=
  match row with
  | [ CFloat ph1_pt_norm; CFloat ph2_pt_norm; CFloat ph1_eta; CFloat ph2_eta;
      CFloat _; CFloat _; CFloat _;
      CFloat ph1_ptcone20_norm; CFloat ph2_ptcone20_norm; CFloat _;
      CFloat _; CFloat _; CFloat _; CInt isSignal ] =>
      gt ph1_pt_norm 0.35 && gt ph2_pt_norm 0.35
      && eta_cut ph1_eta && eta_cut ph2_eta
      && lt ph1_ptcone20_norm 0.055 && lt ph2_ptcone20_norm 0.055
      && Z.eqb isSignal is_signal_flag
  | _ => false
  end.

(** The cells of column [i] in the rows whose [isSignal] cell, the last of
    fourteen, passes the test. *)
Definition cells_where (df : DataFrame) (test : Cell -> bool) (i : nat) : list Cell :=
  map (fun row => nth i row (CInt 0))
      (filter (fun row => test (nth 13 row (CInt 0))) (rows df)).

(** Position of a label among the keys of [df_dict]. *)
Definition key_position (name : string) : nat :=
  match index_of name df_dict_keys with
  | Some i => i
  | None => 0%nat
  end.

(** The two [plt.hist] calls of a feature, on a table with the columns of
    [df_dict]: signal first, then background, each with the values of the
    feature and the weights of the same rows.  Both return, or the first
    that raises does so with [e]. *)
Definition hist_returns {Scaler Model} (lib : Libraries Scaler Model) (df : DataFrame)
    (feature : string) : Prop :=
  plt_hist lib (cells_where df equals_one (key_position feature))
               (cells_where df equals_one 12) = ok tt
  /\ plt_hist lib (cells_where df equals_zero (key_position feature))
                  (cells_where df equals_zero 12) = ok tt.

Definition hist_raises {Scaler Model} (lib : Libraries Scaler Model) (df : DataFrame)
    (feature : string) (e : Exception) : Prop :=
  plt_hist lib (cells_where df equals_one (key_position feature))
               (cells_where df equals_one 12) = raise e
  \/ (plt_hist lib (cells_where df equals_one (key_position feature))
                   (cells_where df equals_one 12) = ok tt
      /\ plt_hist lib (cells_where df equals_zero (key_position feature))
                      (cells_where df equals_zero 12) = raise e).

(** The first example event with a diphoton mass of +0: its row passes the
    cuts with infinite normalized pt. *)
Definition example_zero_mass : DataFrame :=
  Eval vm_compute in
    match frame_of_array
            (mkNumerics (fun _ _ => 0%float) (diphoton_pt example_numerics)
               (np_tanh example_numerics) (np_power example_numerics))
            1 (mkArray branches_to_read_mc (FlatWeights (firstn 1 example_events))) with
    | inr (Some df) => dropna df
    | _ => pd_DataFrame
    end.

(** A cell that holds an integer, as the labels do. *)
Definition is_int (c : Cell) : Prop := exists n, c = CInt n.


(** ** Values of binary64 numbers

    What the statements about rounding are written with: the value of a
    finite number as an integer multiple of the smallest positive number
    [2^-1074], and the rounding of an exact value to the format. *)

Section Binary64Values.

Local Open Scope Z_scope.

(** The mantissa has the number of digits the exponent asks for. *)
Definition canonical (m : positive) (e : Z) : Prop :=
  canonical_mantissa prec emax m e = true.

(** [m * 2^e] in units of [2^-1074]. *)
Definition sv (m : positive) (e : Z) : Z := Zpos m * 2 ^ (e + 1074).

Definition Zval (x : spec_float) : Z :=
  match x with
  | S754_finite s m e => cond_Zopp s (sv m e)
  | _ => 0
  end.

(** Neither NaN nor infinite. *)
Definition is_fin (x : spec_float) : bool :=
  match x with
  | S754_finite _ _ _ | S754_zero _ => true
  | _ => false
  end.

(** [r] is [M] shifted right by [k] digits, with what was shifted out. *)
Definition shr_inv (M k : Z) (r : shr_record) : Prop :=
  exists rem,
    M = shr_m r * 2 ^ k + rem /\ 0 <= rem < 2 ^ k
    /\ (shr_r r || shr_s r = true -> 0 < rem) /\ 0 <= shr_m r.

(** [m3 * 2^e3] is [m * 2^e] rounded to the format: no number of the format
    lies strictly between the two. *)
Definition faithful (m : positive) (e : Z) (m3 : positive) (e3 : Z) : Prop :=
  canonical m3 e3
  /\ (forall my ey, canonical my ey -> sv my ey <= sv m e -> sv my ey <= sv m3 e3)
  /\ (forall my ey, canonical my ey -> sv m e <= sv my ey -> sv m3 e3 <= sv my ey).

(** A rounded mantissa and exponent as a number: infinite past the largest
    exponent. *)
Definition rounded (s : bool) (m3 : positive) (e3 : Z) : spec_float :=
  if e3 <=? 971 then S754_finite s m3 e3 else S754_infinity s.

(** [2 * np.pi] and [np.pi] by sign, mantissa and exponent. *)
Definition two_pi : spec_float := Eval vm_compute in Prim2SF (2 * np_pi)%float.
Definition pi_ : spec_float := Eval vm_compute in Prim2SF np_pi.

End Binary64Values.

(** * Properties *)

Local Open Scope list_scope.

(** ** Results and masks *)

Lemma rbind_ok {A B} (a : A) (f : A -> Result B) : rbind (ok a) f = f a.
Proof. reflexivity. Qed.

Lemma select_map_filter {A} (f : A -> bool) (l : list A) :
  select (map f l) l = filter f l.
Proof.
  induction l as [|a l IH]; simpl; [reflexivity|].
  rewrite IH. reflexivity.
Qed.

Lemma filter_filter {A} (f g : A -> bool) (l : list A) :
  filter g (filter f l) = filter (fun a => f a && g a) l.
Proof.
  induction l as [|a l IH]; simpl; [reflexivity|].
  destruct (f a); simpl; [destruct (g a)|]; rewrite IH; reflexivity.
Qed.

Lemma is_empty_nil {A} (l : list A) : is_empty l = true -> l = [].
Proof. destruct l; [reflexivity|discriminate]. Qed.

Section PreselectionFacts.

Variable num : Numerics.
Variable W : Type.

(** On events with two photons, [x[:,0]] and [x[:,1]] do not raise, and a
    mask computed from them is the predicate read on each event. *)
Lemma leading_mask (cut : Photon * Photon -> bool) (events : list (Event W)) :
  Forall (fun ev => @n_photons_cut W ev = true) events ->
  exists p, leading events = ok p /\ map cut p = map (on_leading cut) events.
Proof.
  induction 1 as [|ev events Hev _ IH].
  - exists []. split; reflexivity.
  - destruct IH as [p [Hp Hmap]].
    unfold n_photons_cut in Hev.
    exists ((match photons ev with
             | p0 :: p1 :: _ => (p0, p1)
             | _ => (mkPhoton 0 0 0 0 false 0, mkPhoton 0 0 0 0 false 0)
             end) :: p).
    unfold leading in *. cbn [mapM map]. rewrite Hp, Hmap.
    unfold on_leading, leading_pair.
    destruct (photons ev) as [|p0 [|p1 rest]]; simpl in Hev; try discriminate.
    split; reflexivity.
Qed.

Lemma leading_select (cut : Photon * Photon -> bool) (events : list (Event W)) :
  Forall (fun ev => @n_photons_cut W ev = true) events ->
  exists p, leading events = ok p /\ select (map cut p) events = filter (on_leading cut) events.
Proof.
  intros H. destruct (leading_mask cut H) as [p [Hp Hmap]].
  exists p. split; [exact Hp|]. rewrite Hmap. apply select_map_filter.
Qed.

Lemma Forall_filter_keeps {A} (P : A -> Prop) (f : A -> bool) (l : list A) :
  Forall P l -> Forall P (filter f l).
Proof.
  induction 1 as [|a l Ha _ IH]; simpl; [constructor|].
  destruct (f a); [constructor; assumption|assumption].
Qed.

Lemma n_photons_filtered (events : list (Event W)) :
  Forall (fun ev => @n_photons_cut W ev = true) (filter (@n_photons_cut W) events).
Proof.
  apply Forall_forall. intros ev Hin. apply filter_In in Hin. tauto.
Qed.

Lemma photon_fields_readable (fields : list string) :
  has_photon_fields fields = true ->
  field fields "photon_pt" = ok tt /\
  field fields "photon_eta" = ok tt /\
  field fields "photon_phi" = ok tt /\
  field fields "photon_e" = ok tt /\
  field fields "photon_isTightID" = ok tt /\
  field fields "photon_ptcone20" = ok tt.
Proof.
  unfold has_photon_fields, field. intros H.
  rewrite forallb_forall in H.
  repeat split; rewrite H; try reflexivity; simpl; tauto.
Qed.

(** One stage: the two leading photons are read, the mask is computed and
    applied. *)
Ltac cut_stage cut H :=
  let p := fresh "p" in
  let Hp := fresh "Hp" in
  let Hs := fresh "Hs" in
  destruct (leading_select cut H) as [p [Hp Hs]];
  rewrite Hp, rbind_ok, Hs; clear p Hp Hs.

(** The cut sequence computes the six filters, one after the other. *)
Lemma preselection_filters (fields : list string) (events : list (Event W)) :
  has_photon_fields fields = true ->
  preselection num fields events = ok (apply_cuts (cuts num W) events).
Proof.
  intros Hf.
  destruct (photon_fields_readable fields Hf)
    as (F_photon_pt & F_photon_eta & F_photon_phi & F_photon_e
        & F_photon_isTightID & F_photon_ptcone20).
  unfold preselection, apply_cuts, cuts. cbn [fold_left]. cbv zeta.
  rewrite F_photon_pt, rbind_ok, map_map.
  change (map (fun ev : Event W => (2 <=? List.length (photons ev))%nat) events)
    with (map (@n_photons_cut W) events).
  rewrite select_map_filter.
  pose proof (n_photons_filtered events) as H1.
  set (e1 := filter (@n_photons_cut W) events) in *.
  destruct (is_empty e1) eqn:E1.
  { apply is_empty_nil in E1. rewrite E1. reflexivity. }
  rewrite F_photon_isTightID, rbind_ok.
  cut_stage tight_id H1.
  pose proof (Forall_filter_keeps (on_leading tight_id) H1) as H2.
  set (e2 := filter (on_leading tight_id) e1) in *.
  destruct (is_empty e2) eqn:E2.
  { apply is_empty_nil in E2. rewrite E2. reflexivity. }
  cut_stage pt_thresholds H2.
  pose proof (Forall_filter_keeps (on_leading pt_thresholds) H2) as H3.
  set (e3 := filter (on_leading pt_thresholds) e2) in *.
  destruct (is_empty e3) eqn:E3.
  { apply is_empty_nil in E3. rewrite E3. reflexivity. }
  rewrite F_photon_ptcone20, rbind_ok.
  cut_stage isolation H3.
  pose proof (Forall_filter_keeps (on_leading isolation) H3) as H4.
  set (e4 := filter (on_leading isolation) e3) in *.
  destruct (is_empty e4) eqn:E4.
  { apply is_empty_nil in E4. rewrite E4. reflexivity. }
  rewrite F_photon_eta, rbind_ok.
  cut_stage eta_transition H4.
  pose proof (Forall_filter_keeps (on_leading eta_transition) H4) as H5.
  set (e5 := filter (on_leading eta_transition) e4) in *.
  destruct (is_empty e5) eqn:E5.
  { apply is_empty_nil in E5. rewrite E5. reflexivity. }
  rewrite F_photon_phi, rbind_ok, F_photon_e, rbind_ok.
  cut_stage (mass_isolation num) H5.
  reflexivity.
Qed.

End PreselectionFacts.

(** ** The cut sequence is the conjunction of the six predicates *)

Section CutOrder.

Variable A : Type.

Lemma filters_in_sequence (cs : list (A -> bool)) (l : list A) :
  fold_left (fun evs cut => filter cut evs) cs l
  = filter (fun a => forallb (fun cut => cut a) cs) l.
Proof.
  revert l. induction cs as [|c cs IH]; intros l; cbn [fold_left forallb].
  - induction l as [|a l IHl]; simpl; [reflexivity|]. rewrite <- IHl. reflexivity.
  - rewrite IH. apply filter_filter.
Qed.

Lemma forallb_permutation (a : A) (cs cs' : list (A -> bool)) :
  Permutation cs cs' ->
  forallb (fun cut => cut a) cs = forallb (fun cut => cut a) cs'.
Proof.
  induction 1 as [|c l l' _ IH|c d l|l l' l'' _ IH1 _ IH2]; cbn [forallb].
  - reflexivity.
  - rewrite IH. reflexivity.
  - destruct (c a), (d a); reflexivity.
  - rewrite IH1. exact IH2.
Qed.

End CutOrder.

Lemma preselection_survivors (num : Numerics) (W : Type) (fields : list string)
    (events : list (Event W)) :
  has_photon_fields fields = true ->
  preselection num fields events = ok (filter (passes_all_cuts num (W:=W)) events).
Proof.
  intros Hf. rewrite (preselection_filters num fields events Hf).
  unfold apply_cuts. rewrite filters_in_sequence. reflexivity.
Qed.

(** C1. On an array that has the six photon fields, the cut sequence of
    [load_and_preprocess_mc_for_mva] returns, without raising, exactly the
    events that satisfy all six predicates, in their order: at least two
    photons; both leading photons tight; leading pt > 50 and sub-leading
    pt > 30; ptcone20/pt < 0.055 for both; |eta| of both outside
    (1.37, 1.52); pt/m_yy > 0.35 for both.  An event is in the output iff it
    is in the input and satisfies the six, and applying the six filters in
    any other order gives the same events. *)
Theorem preselection_is_conjunction
    (num : Numerics) (W : Type) (fields : list string) (events : list (Event W)) :
  has_photon_fields fields = true ->
  preselection num fields events = ok (filter (passes_all_cuts num (W:=W)) events)
  /\ (forall ev : Event W,
        In ev (filter (passes_all_cuts num (W:=W)) events) <->
        In ev events /\
        exists p0 p1 rest,
          photons ev = p0 :: p1 :: rest
          /\ photon_isTightID p0 = true /\ photon_isTightID p1 = true
          /\ gt (photon_pt p0) 50 = true /\ gt (photon_pt p1) 30 = true
          /\ lt (photon_ptcone20 p0 / photon_pt p0) 0.055 = true
          /\ lt (photon_ptcone20 p1 / photon_pt p1) 0.055 = true
          /\ eta_cut (photon_eta p0) = true /\ eta_cut (photon_eta p1) = true
          /\ gt (photon_pt p0 / diphoton_mass num p0 p1) 0.35 = true
          /\ gt (photon_pt p1 / diphoton_mass num p0 p1) 0.35 = true)
  /\ (forall cs : list (Event W -> bool),
        Permutation (cuts num W) cs ->
        apply_cuts cs events = filter (passes_all_cuts num (W:=W)) events).
Proof.
  intros Hf. split; [|split].
  - exact (preselection_survivors num fields events Hf).
  - intros ev. rewrite filter_In.
    unfold passes_all_cuts, cuts. cbn [forallb].
    unfold n_photons_cut, on_leading, leading_pair.
    unfold tight_id, pt_thresholds, isolation, eta_transition, mass_isolation.
    split.
    + intros [Hin Hall]. split; [exact Hin|].
      destruct (photons ev) as [|p0 [|p1 rest]]; try discriminate Hall.
      exists p0, p1, rest. cbn [ok fst snd] in Hall.
      repeat rewrite andb_true_iff in Hall.
      destruct (photon_isTightID p0), (photon_isTightID p1); cbn in Hall;
        intuition (try discriminate; auto).
    + intros [Hin (p0 & p1 & rest & Hp & Ht0 & Ht1 & H50 & H30 & Hi0 & Hi1
                   & He0 & He1 & Hm0 & Hm1)].
      split; [exact Hin|]. rewrite Hp. cbn [ok fst snd List.length].
      rewrite Ht0, Ht1, H50, H30, Hi0, Hi1, He0, He1, Hm0, Hm1. reflexivity.
  - intros cs Hperm. unfold apply_cuts. rewrite filters_in_sequence.
    apply filter_ext. intros ev. unfold passes_all_cuts.
    symmetry. apply (forallb_permutation ev Hperm).
Qed.

Lemma preselection_is_conjunction_witness :
  has_photon_fields branches_to_read_mc = true
  /\ preselection example_numerics branches_to_read_mc example_events
     = ok (filter (passes_all_cuts example_numerics (W:=float)) example_events)
  /\ List.length (filter (passes_all_cuts example_numerics (W:=float)) example_events) = 2%nat.
Proof.
  split; [reflexivity|]. split.
  - apply (@preselection_is_conjunction example_numerics float
             branches_to_read_mc example_events). reflexivity.
  - vm_compute. reflexivity.
Defined.

(** ** The transition-region veto at its edges *)

(** C9. The veto is [~((|eta| > 1.37) & (|eta| < 1.52))] with both
    comparisons strict: a pair of leading photons whose |eta| is exactly 1.37
    or exactly 1.52 passes it, and so does the event that carries them. *)
Theorem eta_cut_keeps_both_endpoints (W : Type) (ev : Event W) (p0 p1 : Photon)
    (rest : list Photon) :
  photons ev = p0 :: p1 :: rest ->
  (abs (photon_eta p0) = 1.37%float \/ abs (photon_eta p0) = 1.52%float) ->
  (abs (photon_eta p1) = 1.37%float \/ abs (photon_eta p1) = 1.52%float) ->
  eta_cut (photon_eta p0) = true
  /\ eta_cut (photon_eta p1) = true
  /\ on_leading eta_transition ev = true.
Proof.
  intros Hp H0 H1.
  assert (E0 : eta_cut (photon_eta p0) = true).
  { unfold eta_cut. destruct H0 as [-> | ->]; vm_compute; reflexivity. }
  assert (E1 : eta_cut (photon_eta p1) = true).
  { unfold eta_cut. destruct H1 as [-> | ->]; vm_compute; reflexivity. }
  split; [exact E0|]. split; [exact E1|].
  unfold on_leading, leading_pair, eta_transition. rewrite Hp.
  cbn [ok fst snd]. rewrite E0, E1. reflexivity.
Qed.

Lemma eta_cut_keeps_both_endpoints_witness :
  eta_cut 1.37 = true /\ eta_cut (-1.52) = true
  /\ on_leading eta_transition
       (mkEvent [example_photon_edge_1; example_photon_edge_2] tt) = true.
Proof.
  apply (@eta_cut_keeps_both_endpoints unit
           (mkEvent [example_photon_edge_1; example_photon_edge_2] tt)
           example_photon_edge_1 example_photon_edge_2 []).
  - reflexivity.
  - left. reflexivity.
  - right. reflexivity.
Defined.

(** Inside the region the veto drops the photon: |eta| = 1.40. *)
Example eta_cut_drops_crack : eta_cut 1.40 = false /\ eta_cut (-1.40) = false.
Proof. split; vm_compute; reflexivity. Qed.

(** ** The angular difference *)

Section Binary64.

Local Open Scope Z_scope.

(** *** Digits and shifts *)

Lemma fexp_eq (x : Z) : fexp prec emax x = Z.max (x - 53) (-1074).
Proof. reflexivity. Qed.

(** A mantissa of [d] digits lies between [2^(d-1)] and [2^d]. *)
Lemma digits2_pos_bounds (m : positive) :
  2 ^ (Zpos (digits2_pos m) - 1) <= Zpos m < 2 ^ Zpos (digits2_pos m).
Proof.
  induction m as [m IH|m IH|]; cbn [digits2_pos].
  - rewrite Pos2Z.inj_succ, (Pos2Z.inj_xI m).
    replace (Z.succ (Zpos (digits2_pos m)) - 1) with (Z.succ (Zpos (digits2_pos m) - 1)) by lia.
    rewrite !Z.pow_succ_r by lia. lia.
  - rewrite Pos2Z.inj_succ, (Pos2Z.inj_xO m).
    replace (Z.succ (Zpos (digits2_pos m)) - 1) with (Z.succ (Zpos (digits2_pos m) - 1)) by lia.
    rewrite !Z.pow_succ_r by lia. lia.
  - cbn. lia.
Qed.

Lemma digits2_pos_unique (m d : positive) :
  2 ^ (Zpos d - 1) <= Zpos m < 2 ^ Zpos d -> digits2_pos m = d.
Proof.
  intros [Hlo Hhi]. destruct (digits2_pos_bounds m) as [Hlo' Hhi'].
  assert (H1 : Zpos d - 1 < Zpos (digits2_pos m)).
  { apply (Z.pow_lt_mono_r_iff 2); lia. }
  assert (H2 : Zpos (digits2_pos m) - 1 < Zpos d).
  { apply (Z.pow_lt_mono_r_iff 2); lia. }
  lia.
Qed.

Lemma iter_xO (m d : positive) : Zpos (Pos.iter xO m d) = Zpos m * 2 ^ Zpos d.
Proof.
  induction d as [|d IH] using Pos.peano_ind.
  - cbn. lia.
  - rewrite Pos.iter_succ, (Pos2Z.inj_xO (Pos.iter xO m d)), IH, Pos2Z.inj_succ, Z.pow_succ_r by lia. lia.
Qed.

Lemma digits2_pos_iter_xO (m d : positive) :
  digits2_pos (Pos.iter xO m d) = (digits2_pos m + d)%positive.
Proof.
  induction d as [|d IH] using Pos.peano_ind.
  - cbn. lia.
  - rewrite Pos.iter_succ. cbn [digits2_pos]. rewrite IH. lia.
Qed.

Lemma shr_1_inv (M k : Z) (r : shr_record) :
  0 <= k -> shr_inv M k r -> shr_inv M (k + 1) (shr_1 r).
Proof.
  intros Hk (rem & HM & Hrem & Hrs & Hm). unfold shr_inv.
  destruct r as [m r s]. cbn [shr_m shr_r shr_s] in *.
  assert (Hpow : 2 ^ (k + 1) = 2 * 2 ^ k) by (rewrite Z.pow_add_r, Z.pow_1_r; lia).
  rewrite Hpow.
  assert (Hp : 0 < 2 ^ k) by (apply Z.pow_pos_nonneg; lia).
  assert (Hrs' : forall b, b || (r || s) = true -> b = false -> 0 < rem).
  { intros b H Hb. subst b. apply Hrs. exact H. }
  destruct m as [|[p|p|]|p]; cbn [shr_1 shr_m shr_r shr_s]; try lia.
  - exists rem. repeat split; try lia. intros H. apply (Hrs' false); auto.
  - exists (2 ^ k + rem). rewrite (Pos2Z.inj_xI p) in HM. repeat split; try lia.
  - exists rem. rewrite (Pos2Z.inj_xO p) in HM. repeat split; try lia.
    intros H. apply (Hrs' false); auto.
  - exists (2 ^ k + rem). repeat split; try lia.
Qed.

(** [p] shifts by one digit are one shift by [p] digits. *)
Lemma iter_pos_shr_inv (p : positive) :
  forall (M k : Z) (r : shr_record),
    0 <= k -> shr_inv M k r -> shr_inv M (k + Zpos p) (SpecFloat.iter_pos shr_1 p r).
Proof.
  induction p as [p IH|p IH|]; intros M k r Hk H; cbn [SpecFloat.iter_pos].
  - replace (k + Zpos p~1) with (k + 1 + Zpos p + Zpos p) by lia.
    apply IH; [lia|]. apply IH; [lia|]. apply shr_1_inv; assumption.
  - replace (k + Zpos p~0) with (k + Zpos p + Zpos p) by lia.
    apply IH; [lia|]. apply IH; assumption.
  - apply shr_1_inv; assumption.
Qed.

Lemma shr_inv_start (m : Z) : 0 <= m -> shr_inv m 0 (Build_shr_record m false false).
Proof.
  intros H. exists 0. cbn [shr_m shr_r shr_s orb]. rewrite Z.pow_0_r.
  repeat split; first [lia | discriminate].
Qed.

(** Rounding keeps the shifted mantissa or adds one, and adds one only when
    something was shifted out. *)
Lemma round_nearest_even_cases (r : shr_record) :
  round_nearest_even (shr_m r) (loc_of_shr_record r) = shr_m r
  \/ (round_nearest_even (shr_m r) (loc_of_shr_record r) = shr_m r + 1
      /\ shr_r r || shr_s r = true).
Proof.
  destruct r as [m [|] [|]]; cbn; auto.
  destruct (Z.even m); auto.
Qed.

(** *** Canonical mantissas *)

Lemma canonical_iff (m : positive) (e : Z) :
  canonical m e <-> Z.max (Zpos (digits2_pos m) + e - 53) (-1074) = e.
Proof.
  unfold canonical, canonical_mantissa. rewrite fexp_eq. apply Z.eqb_eq.
Qed.

Lemma canonical_facts (m : positive) (e : Z) :
  canonical m e ->
  -1074 <= e /\ Zpos m < 2 ^ 53 /\ (-1074 < e -> 2 ^ 52 <= Zpos m).
Proof.
  intros H. apply canonical_iff in H.
  destruct (digits2_pos_bounds m) as [Hlo Hhi].
  assert (Hd : Zpos (digits2_pos m) <= 53) by lia.
  split; [lia|]. split.
  - apply Z.lt_le_trans with (1 := Hhi). apply Z.pow_le_mono_r; lia.
  - intros He. assert (Hd' : Zpos (digits2_pos m) = 53) by lia.
    rewrite Hd' in Hlo. exact Hlo.
Qed.

Lemma pow2_pos (k : Z) : 0 <= k -> 0 < 2 ^ k.
Proof. intros H. apply Z.pow_pos_nonneg; lia. Qed.

Lemma pow2_split (a b : Z) : 0 <= a -> 0 <= b -> 2 ^ (a + b) = 2 ^ a * 2 ^ b.
Proof. intros Ha Hb. apply Z.pow_add_r; assumption. Qed.

Lemma sv_pos (m : positive) (e : Z) : -1074 <= e -> 0 < sv m e.
Proof.
  intros He. unfold sv. pose proof (@pow2_pos (e + 1074)). nia.
Qed.

Lemma scale_lt (m c u : Z) : m < c * 2 -> 0 < u -> m * u < c * 2 * u.
Proof. intros. nia. Qed.

Lemma scale_le (c m a u : Z) :
  0 <= c <= m -> 0 < a -> 0 < u -> c * 2 * u <= m * (a * 2 * u).
Proof.
  intros. assert (c * (2 * u) <= m * (2 * u)) by nia.
  assert (1 * (m * (2 * u)) <= a * (m * (2 * u))) by (apply Z.mul_le_mono_nonneg_r; nia).
  lia.
Qed.

(** Among canonical numbers the exponent decides the order. *)
Lemma sv_lt_of_exp_lt (m1 m2 : positive) (e1 e2 : Z) :
  canonical m1 e1 -> canonical m2 e2 -> e1 < e2 -> sv m1 e1 < sv m2 e2.
Proof.
  intros H1 H2 Hlt.
  destruct (canonical_facts H1) as (He1 & Hm1 & _).
  destruct (canonical_facts H2) as (He2 & _ & Hm2).
  specialize (Hm2 ltac:(lia)). unfold sv.
  replace (e2 + 1074) with ((e2 - e1 - 1) + 1 + (e1 + 1074)) by lia.
  rewrite (@pow2_split (e2 - e1 - 1 + 1) (e1 + 1074)) by lia.
  rewrite (@pow2_split (e2 - e1 - 1) 1) by lia. rewrite Z.pow_1_r.
  pose proof (@pow2_pos (e2 - e1 - 1) ltac:(lia)) as Ha.
  pose proof (@pow2_pos (e1 + 1074) ltac:(lia)) as Hu.
  change (2 ^ 53) with (2 ^ 52 * 2) in Hm1.
  pose proof (scale_lt _ Hm1 Hu) as H.
  pose proof (@scale_le (2 ^ 52) (Zpos m2) _ _ ltac:(lia) Ha Hu) as H'.
  lia.
Qed.

(** A canonical value on the grid of exponent [fe]: a multiple of the grid
    step, or below the smallest normal mantissa at that exponent. *)
Lemma on_grid (my : positive) (ey fe : Z) :
  canonical my ey -> -1074 <= fe ->
  (exists K, sv my ey = K * 2 ^ (fe + 1074))
  \/ sv my ey < 2 ^ 52 * 2 ^ (fe + 1074).
Proof.
  intros Hc Hfe. destruct (canonical_facts Hc) as (He & Hm & _).
  destruct (Z_le_gt_dec fe ey) as [Hle|Hgt].
  - left. exists (Zpos my * 2 ^ (ey - fe)). unfold sv.
    replace (ey + 1074) with ((ey - fe) + (fe + 1074)) by lia.
    rewrite (@pow2_split (ey - fe) (fe + 1074)) by lia. ring.
  - right. unfold sv.
    replace (fe + 1074) with ((fe - ey - 1) + 1 + (ey + 1074)) by lia.
    rewrite (@pow2_split (fe - ey - 1 + 1) (ey + 1074)) by lia.
    rewrite (@pow2_split (fe - ey - 1) 1) by lia. rewrite Z.pow_1_r.
    pose proof (@pow2_pos (fe - ey - 1) ltac:(lia)) as Ha.
    pose proof (@pow2_pos (ey + 1074) ltac:(lia)) as Hu.
    change (2 ^ 53) with (2 ^ 52 * 2) in Hm.
    pose proof (scale_lt _ Hm Hu) as H.
    pose proof (@scale_le (2 ^ 52) (2 ^ 52) _ _ ltac:(lia) Ha Hu) as H'.
    lia.
Qed.

(** The arithmetic of rounding a quotient [q] with remainder [rem] on a grid
    of step [P * u]. *)
Lemma faithful_arith (q q' rem P u Y : Z) :
  0 < u -> 0 < P -> 0 <= rem < P -> 2 ^ 52 <= q ->
  q' = q \/ (q' = q + 1 /\ 0 < rem) ->
  (exists K, Y = K * (P * u)) \/ Y < 2 ^ 52 * (P * u) ->
  (Y <= (q * P + rem) * u -> Y <= q' * (P * u))
  /\ ((q * P + rem) * u <= Y -> q' * (P * u) <= Y).
Proof.
  intros Hu HP Hrem Hq Hq' HY.
  assert (HPu : 0 < P * u) by nia.
  assert (Hqq : q <= q') by lia.
  destruct HY as [[K ->]|HY].
  - split; intros H.
    + assert (H1 : K * P < (q + 1) * P) by nia.
      assert (H2 : K < q + 1) by nia.
      assert (H3 : K <= q') by lia.
      apply Z.mul_le_mono_nonneg_r; lia.
    + destruct Hq' as [->|[-> Hr]].
      * assert (H1 : q * P <= K * P) by nia.
        assert (H2 : q <= K) by nia.
        apply Z.mul_le_mono_nonneg_r; lia.
      * assert (H1 : q * P < K * P) by nia.
        assert (H2 : q < K) by nia.
        apply Z.mul_le_mono_nonneg_r; lia.
  - assert (H0 : 2 ^ 52 * (P * u) <= q * (P * u)) by (apply Z.mul_le_mono_nonneg_r; lia).
    assert (H1 : q * (P * u) <= q' * (P * u)) by (apply Z.mul_le_mono_nonneg_r; lia).
    split; intros H; [lia|].
    assert (H2 : q * (P * u) <= (q * P + rem) * u) by nia.
    lia.
Qed.

Lemma faithful_exact (m : positive) (e : Z) (m3 : positive) (e3 : Z) :
  canonical m3 e3 -> sv m3 e3 = sv m e -> faithful m e m3 e3.
Proof.
  intros Hc Heq. split; [exact Hc|]. rewrite Heq. split; intros; assumption.
Qed.

(** *** Rounding to nearest lies between neighbours of the format *)

Lemma binary_round_aux_canonical (s : bool) (m : positive) (e : Z) :
  canonical m e ->
  binary_round_aux prec emax s (Zpos m) e loc_Exact = rounded s m e.
Proof.
  intros Hc. unfold canonical, canonical_mantissa in Hc. apply Z.eqb_eq in Hc.
  unfold binary_round_aux, shr_fexp. cbn [Zdigits2 shr_record_of_loc].
  rewrite Hc, Z.sub_diag. cbn [shr shr_m loc_of_shr_record round_nearest_even Zdigits2].
  rewrite Hc, Z.sub_diag. cbn [shr shr_m]. reflexivity.
Qed.

Lemma canonical_of_digits (m : positive) (e : Z) :
  Zpos (digits2_pos m) = 53 -> -1074 <= e -> canonical m e.
Proof. intros Hd He. apply canonical_iff. lia. Qed.

Lemma digits_53 (q : Z) :
  2 ^ 52 <= q < 2 ^ 53 -> exists pq, q = Zpos pq /\ Zpos (digits2_pos pq) = 53.
Proof.
  intros [Hlo Hhi]. destruct q as [|pq|pq]; try (cbn in Hlo; lia).
  exists pq. split; [reflexivity|].
  rewrite (@digits2_pos_unique pq 53); [reflexivity|]. split; assumption.
Qed.

(** A mantissa with more digits than the format has: shifted, rounded, and
    shifted once more when rounding carries into a new digit. *)
Lemma binary_round_aux_shift (s : bool) (m : positive) (e : Z) :
  -1074 <= e -> 53 < Zpos (digits2_pos m) ->
  exists m3 e3,
    faithful m e m3 e3
    /\ binary_round_aux prec emax s (Zpos m) e loc_Exact = rounded s m3 e3.
Proof.
  intros He Hd.
  set (d := Zpos (digits2_pos m)) in *.
  set (fe := d + e - 53).
  destruct (digits2_pos_bounds m) as [Hmlo Hmhi]. fold d in Hmlo, Hmhi.
  (* the first shift *)
  assert (Hn : exists p, d - 53 = Zpos p).
  { destruct (d - 53) as [|p|p] eqn:E; try lia. exists p. reflexivity. }
  destruct Hn as [p Hp].
  assert (Hfirst : shr_fexp prec emax (Zpos m) e loc_Exact
                   = (SpecFloat.iter_pos shr_1 p (Build_shr_record (Zpos m) false false), fe)).
  { unfold shr_fexp. cbn [Zdigits2 shr_record_of_loc]. fold d. rewrite fexp_eq.
    replace (Z.max (d + e - 53) (-1074) - e) with (Zpos p) by lia.
    cbn [shr]. f_equal. unfold fe. lia. }
  pose proof (@iter_pos_shr_inv p (Zpos m) 0 _ ltac:(lia) (@shr_inv_start (Zpos m) ltac:(lia)))
    as Hinv.
  set (rec1 := SpecFloat.iter_pos shr_1 p _) in *.
  destruct Hinv as (rem & HM & Hrem & Hrs & Hq0).
  rewrite Z.add_0_l in HM, Hrem. rewrite <- Hp in HM, Hrem.
  set (q := shr_m rec1) in *.
  set (P := 2 ^ (d - 53)) in *.
  assert (HP : 0 < P) by (apply pow2_pos; lia).
  assert (Hd52 : 2 ^ (d - 1) = 2 ^ 52 * P).
  { unfold P. rewrite <- pow2_split by lia. f_equal. lia. }
  assert (Hd53 : 2 ^ d = 2 ^ 53 * P).
  { unfold P. rewrite <- pow2_split by lia. f_equal. lia. }
  assert (Hq : 2 ^ 52 <= q < 2 ^ 53).
  { rewrite Hd52 in Hmlo. rewrite Hd53 in Hmhi. split; nia. }
  (* rounding *)
  destruct (round_nearest_even_cases rec1) as [Hr|[Hr Hin]]; fold q in Hr.
  - (* the mantissa is kept *)
    destruct (digits_53 Hq) as (pq & Hpq & Hdq).
    exists pq, fe. split.
    + split; [apply canonical_of_digits; [exact Hdq | unfold fe; lia]|].
      assert (Hgrid : forall my ey, canonical my ey ->
                (sv my ey <= sv m e -> sv my ey <= sv pq fe)
                /\ (sv m e <= sv my ey -> sv pq fe <= sv my ey)).
      { intros my ey Hc.
        assert (Hu : 0 < 2 ^ (e + 1074)) by (apply pow2_pos; lia).
        assert (Hfe : 2 ^ (fe + 1074) = P * 2 ^ (e + 1074)).
        { unfold P, fe. rewrite <- pow2_split by lia. f_equal. lia. }
        unfold sv at 2 4 5 7. rewrite <- Hpq, Hfe, HM.
        apply (@faithful_arith q q rem P (2 ^ (e + 1074)) (sv my ey)); try assumption;
          try lia.
        rewrite <- Hfe. apply on_grid; [exact Hc | unfold fe; lia]. }
      split; intros my ey Hc; apply (Hgrid my ey Hc).
    + unfold binary_round_aux. rewrite Hfirst. cbv beta iota. fold q. rewrite Hr, Hpq.
      unfold shr_fexp. cbn [Zdigits2 shr_record_of_loc]. rewrite Hdq, fexp_eq.
      replace (Z.max (53 + fe - 53) (-1074) - fe) with 0 by (unfold fe; lia).
      cbn [shr shr_m]. reflexivity.
  - (* the mantissa is incremented *)
    assert (Hrem' : 0 < rem) by (apply Hrs; exact Hin).
    assert (Hgrid : forall my ey, canonical my ey ->
              (sv my ey <= sv m e -> sv my ey <= (q + 1) * (P * 2 ^ (e + 1074)))
              /\ (sv m e <= sv my ey -> (q + 1) * (P * 2 ^ (e + 1074)) <= sv my ey)).
    { intros my ey Hc.
      assert (Hu : 0 < 2 ^ (e + 1074)) by (apply pow2_pos; lia).
      assert (Hfe : 2 ^ (fe + 1074) = P * 2 ^ (e + 1074)).
      { unfold P, fe. rewrite <- pow2_split by lia. f_equal. lia. }
      unfold sv at 2 4. rewrite HM.
      apply (@faithful_arith q (q + 1) rem P (2 ^ (e + 1074)) (sv my ey)); try assumption;
        try lia.
      rewrite <- Hfe. apply on_grid; [exact Hc | unfold fe; lia]. }
    assert (Hfe : 2 ^ (fe + 1074) = P * 2 ^ (e + 1074)).
    { unfold P, fe. rewrite <- pow2_split by lia. f_equal. lia. }
    destruct (Z_lt_le_dec (q + 1) (2 ^ 53)) as [Hlt|Hge].
    + destruct (@digits_53 (q + 1) ltac:(lia)) as (pq & Hpq & Hdq).
      exists pq, fe. split.
      * split; [apply canonical_of_digits; [exact Hdq | unfold fe; lia]|].
        assert (Hsv : sv pq fe = (q + 1) * (P * 2 ^ (e + 1074))).
        { unfold sv. rewrite <- Hpq, Hfe. reflexivity. }
        rewrite Hsv. split; intros my ey Hc; apply (Hgrid my ey Hc).
      * unfold binary_round_aux. rewrite Hfirst. cbv beta iota. fold q. rewrite Hr, Hpq.
        unfold shr_fexp. cbn [Zdigits2 shr_record_of_loc]. rewrite Hdq, fexp_eq.
        replace (Z.max (53 + fe - 53) (-1074) - fe) with 0 by (unfold fe; lia).
        cbn [shr shr_m]. reflexivity.
    + assert (Hq1 : q + 1 = 2 ^ 53) by lia.
      exists (4503599627370496%positive), (fe + 1). split.
      * split; [apply canonical_of_digits; [reflexivity | unfold fe; lia]|].
        assert (Hsv : sv 4503599627370496 (fe + 1) = (q + 1) * (P * 2 ^ (e + 1074))).
        { unfold sv. replace (fe + 1 + 1074) with (1 + (fe + 1074)) by lia.
          rewrite (@pow2_split 1 (fe + 1074)) by (unfold fe; lia).
          rewrite Hfe, Hq1. change (2 ^ 53) with (Zpos 4503599627370496 * 2 ^ 1). ring. }
        rewrite Hsv. split; intros my ey Hc; apply (Hgrid my ey Hc).
      * unfold binary_round_aux. rewrite Hfirst. cbv beta iota. fold q. rewrite Hr, Hq1.
        unfold shr_fexp. rewrite fexp_eq.
        change (Zdigits2 (2 ^ 53)) with 54.
        replace (Z.max (54 + fe - 53) (-1074) - fe) with 1 by (unfold fe; lia).
        cbn [shr shr_record_of_loc SpecFloat.iter_pos].
        change (shr_1 {| shr_m := 2 ^ 53; shr_r := false; shr_s := false |})
          with {| shr_m := 4503599627370496; shr_r := false; shr_s := false |}.
        cbn [shr_m]. reflexivity.
Qed.

(** Rounding an exact value [m * 2^e] is faithful, whatever the mantissa. *)
Lemma binary_round_spec (s : bool) (m : positive) (e : Z) :
  -1074 <= e ->
  exists m3 e3,
    faithful m e m3 e3 /\ binary_round prec emax s m e = rounded s m3 e3.
Proof.
  intros He. unfold binary_round. rewrite fexp_eq.
  set (d := Zpos (digits2_pos m)).
  unfold shl_align.
  destruct (Z.max (d + e - 53) (-1074) - e) as [|p|p] eqn:E.
  - (* already canonical *)
    assert (Hc : canonical m e) by (apply canonical_iff; fold d; lia).
    exists m, e. split; [apply faithful_exact; [exact Hc | reflexivity]|].
    apply binary_round_aux_canonical. exact Hc.
  - (* too many digits *)
    apply binary_round_aux_shift; [exact He | fold d; lia].
  - (* fewer digits than the format has *)
    set (fe := Z.max (d + e - 53) (-1074)) in *.
    assert (Hc : canonical (Pos.iter xO m p) fe).
    { apply canonical_iff. rewrite digits2_pos_iter_xO, Pos2Z.inj_add. fold d.
      unfold fe. lia. }
    exists (Pos.iter xO m p), fe. split.
    + apply faithful_exact; [exact Hc|]. unfold sv. rewrite iter_xO.
      replace (e + 1074) with (Zpos p + (fe + 1074)) by lia.
      rewrite (@pow2_split (Zpos p) (fe + 1074)) by (unfold fe; lia). ring.
    + apply binary_round_aux_canonical. exact Hc.
Qed.

(** *** Comparisons read on values *)

Lemma valid_finite (s : bool) (m : positive) (e : Z) :
  valid_binary (S754_finite s m e) = true <-> canonical m e /\ e <= 971.
Proof.
  cbn [SpecFloat.valid_binary]. unfold bounded. rewrite andb_true_iff, Z.leb_le.
  reflexivity.
Qed.

(** Comparison of finite numbers is comparison of their values. *)
Lemma SFcompare_Zval (x y : spec_float) :
  valid_binary x = true -> valid_binary y = true ->
  is_fin x = true -> is_fin y = true ->
  SFcompare x y = Some (Zval x ?= Zval y).
Proof.
  intros Hx Hy Fx Fy.
  destruct x as [sx| | |sx mx ex]; try discriminate Fx;
    destruct y as [sy| | |sy my ey]; try discriminate Fy; cbn [SFcompare Zval].
  - reflexivity.
  - apply valid_finite in Hy. destruct Hy as [Hc _].
    pose proof (sv_pos my (proj1 (canonical_facts Hc))) as Hp.
    destruct sy; cbn [cond_Zopp]; f_equal; symmetry;
      [apply Z.compare_gt_iff | apply Z.compare_lt_iff]; lia.
  - apply valid_finite in Hx. destruct Hx as [Hc _].
    pose proof (sv_pos mx (proj1 (canonical_facts Hc))) as Hp.
    destruct sx; cbn [cond_Zopp]; f_equal; symmetry;
      [apply Z.compare_lt_iff | apply Z.compare_gt_iff]; lia.
  - apply valid_finite in Hx, Hy. destruct Hx as [Hcx _], Hy as [Hcy _].
    pose proof (sv_pos mx (proj1 (canonical_facts Hcx))) as Hpx.
    pose proof (sv_pos my (proj1 (canonical_facts Hcy))) as Hpy.
    assert (Hcmp : (sv mx ex ?= sv my ey)
                   = match ex ?= ey with
                     | Lt => Lt
                     | Gt => Gt
                     | Eq => Pos.compare_cont Eq mx my
                     end).
    { destruct (Z.compare_spec ex ey) as [Heq|Hlt|Hgt].
      - subst ey. change (Pos.compare_cont Eq mx my) with (Zpos mx ?= Zpos my).
        unfold sv. pose proof (@pow2_pos (ex + 1074) ltac:(pose proof (canonical_facts Hcx); lia)).
        destruct (Z.compare_spec (Zpos mx) (Zpos my)) as [H1|H1|H1].
        + rewrite H1. apply Z.compare_refl.
        + apply Z.compare_lt_iff. nia.
        + apply Z.compare_gt_iff. nia.
      - apply Z.compare_lt_iff. apply sv_lt_of_exp_lt; assumption.
      - apply Z.compare_gt_iff. apply sv_lt_of_exp_lt; assumption. }
    destruct sx, sy; cbn [cond_Zopp]; f_equal.
    + rewrite Z.compare_opp, (Z.compare_antisym (sv mx ex)), Hcmp.
      destruct (ex ?= ey); reflexivity.
    + symmetry. apply Z.compare_lt_iff. lia.
    + symmetry. apply Z.compare_gt_iff. lia.
    + rewrite Hcmp. reflexivity.
Qed.

(** *** Sums and differences stay between bounds of the format *)

Lemma rounded_below (s : bool) (m3 : positive) (e3 : Z) (my : positive) (ey : Z) :
  canonical m3 e3 -> canonical my ey -> ey <= 971 -> sv m3 e3 <= sv my ey ->
  rounded s m3 e3 = S754_finite s m3 e3 /\ e3 <= 971.
Proof.
  intros H3 Hy Hey Hle. unfold rounded.
  destruct (Z.leb_spec e3 971) as [H|H]; [split; [reflexivity | exact H]|].
  pose proof (@sv_lt_of_exp_lt my m3 ey e3 Hy H3 ltac:(lia)). lia.
Qed.

(** Rounding is monotone against numbers of the format: an exact value
    between two of them rounds to a finite number between the same two. *)
Lemma binary_normalize_bounds (M e : Z) (lo hi : spec_float) :
  -1074 <= e ->
  valid_binary lo = true -> valid_binary hi = true ->
  is_fin lo = true -> is_fin hi = true ->
  Zval lo <= M * 2 ^ (e + 1074) <= Zval hi ->
  is_fin (binary_normalize prec emax M e false) = true
  /\ valid_binary (binary_normalize prec emax M e false) = true
  /\ Zval lo <= Zval (binary_normalize prec emax M e false) <= Zval hi.
Proof.
  intros He Vlo Vhi Flo Fhi [Hlo Hhi].
  destruct M as [|m|m]; cbn [binary_normalize].
  - cbn. lia.
  - destruct (binary_round_spec false m He) as (m3 & e3 & (Hc & Hdn & Hup) & ->).
    fold (sv m e) in Hlo, Hhi.
    pose proof (sv_pos m He) as Hpos.
    pose proof (sv_pos m3 (proj1 (canonical_facts Hc))) as Hpos3.
    destruct hi as [sh| | |sh mh eh]; try discriminate Fhi; cbn [Zval] in Hhi; [lia|].
    apply valid_finite in Vhi. destruct Vhi as [Hch Heh].
    pose proof (sv_pos mh (proj1 (canonical_facts Hch))) as Hposh.
    destruct sh; cbn [cond_Zopp] in Hhi; [lia|].
    pose proof (Hup mh eh Hch Hhi) as Hle.
    destruct (@rounded_below false m3 e3 mh eh Hc Hch Heh Hle) as [-> He3].
    split; [reflexivity|]. split; [apply valid_finite; split; assumption|].
    cbn [Zval cond_Zopp]. split; [|exact Hle].
    destruct lo as [sl| | |sl ml el]; try discriminate Flo; cbn [Zval] in *; [lia|].
    apply valid_finite in Vlo. destruct Vlo as [Hcl _].
    pose proof (sv_pos ml (proj1 (canonical_facts Hcl))) as Hposl.
    destruct sl; cbn [cond_Zopp] in *; [lia|].
    apply Hdn; assumption.
  - destruct (binary_round_spec true m He) as (m3 & e3 & (Hc & Hdn & Hup) & ->).
    change (Z.neg m * 2 ^ (e + 1074)) with (- (Zpos m) * 2 ^ (e + 1074)) in Hlo, Hhi.
    rewrite Z.mul_opp_l in Hlo, Hhi. fold (sv m e) in Hlo, Hhi.
    pose proof (sv_pos m He) as Hpos.
    pose proof (sv_pos m3 (proj1 (canonical_facts Hc))) as Hpos3.
    destruct lo as [sl| | |sl ml el]; try discriminate Flo; cbn [Zval] in Hlo; [lia|].
    apply valid_finite in Vlo. destruct Vlo as [Hcl Hel].
    pose proof (sv_pos ml (proj1 (canonical_facts Hcl))) as Hposl.
    destruct sl; cbn [cond_Zopp] in Hlo; [|lia].
    pose proof (Hup ml el Hcl ltac:(lia)) as Hle.
    destruct (@rounded_below true m3 e3 ml el Hc Hcl Hel Hle) as [-> He3].
    split; [reflexivity|]. split; [apply valid_finite; split; assumption|].
    cbn [Zval cond_Zopp]. split; [lia|].
    destruct hi as [sh| | |sh mh eh]; try discriminate Fhi; cbn [Zval] in *; [lia|].
    apply valid_finite in Vhi. destruct Vhi as [Hch _].
    pose proof (sv_pos mh (proj1 (canonical_facts Hch))) as Hposh.
    destruct sh; cbn [cond_Zopp] in *; [|lia].
    pose proof (Hdn mh eh Hch ltac:(lia)). lia.
Qed.

Lemma shl_align_sv (mx : positive) (ex ez : Z) :
  ez <= ex -> -1074 <= ez ->
  Zpos (fst (shl_align mx ex ez)) * 2 ^ (ez + 1074) = sv mx ex.
Proof.
  intros Hle Hez. unfold shl_align, sv.
  destruct (ez - ex) as [|p|p] eqn:E; cbn [fst].
  - replace ez with ex by lia. reflexivity.
  - lia.
  - rewrite iter_xO. replace (ex + 1074) with (Zpos p + (ez + 1074)) by lia.
    rewrite (@pow2_split (Zpos p) (ez + 1074)) by lia. ring.
Qed.

Lemma aligned_sum (sx sy : bool) (mx my : positive) (ex ey : Z) (op : Z -> Z -> Z) :
  -1074 <= ex -> -1074 <= ey ->
  (forall a b c, op a b * c = op (a * c) (b * c)) ->
  op (cond_Zopp sx (Zpos (fst (shl_align mx ex (Z.min ex ey)))))
     (cond_Zopp sy (Zpos (fst (shl_align my ey (Z.min ex ey)))))
  * 2 ^ (Z.min ex ey + 1074)
  = op (Zval (S754_finite sx mx ex)) (Zval (S754_finite sy my ey)).
Proof.
  intros Hex Hey Hop. rewrite Hop. cbn [Zval].
  rewrite <- (@shl_align_sv mx ex (Z.min ex ey)) by lia.
  rewrite <- (@shl_align_sv my ey (Z.min ex ey)) by lia.
  destruct sx, sy; cbn [cond_Zopp]; rewrite ?Z.mul_opp_l; reflexivity.
Qed.

(** A sum whose exact value lies between two numbers of the format is
    finite and lies between the same two. *)
Lemma SFadd_bounds (x y lo hi : spec_float) :
  valid_binary x = true -> valid_binary y = true ->
  valid_binary lo = true -> valid_binary hi = true ->
  is_fin x = true -> is_fin y = true -> is_fin lo = true -> is_fin hi = true ->
  Zval lo <= Zval x + Zval y <= Zval hi ->
  is_fin (SF64add x y) = true /\ Zval lo <= Zval (SF64add x y) <= Zval hi.
Proof.
  intros Vx Vy Vlo Vhi Fx Fy Flo Fhi H.
  destruct x as [sx| | |sx mx ex]; try discriminate Fx;
    destruct y as [sy| | |sy my ey]; try discriminate Fy.
  - cbn [Zval] in H. destruct sx, sy; cbn; lia.
  - cbn [Zval] in H. cbn [SF64add SFadd is_fin]. split; [reflexivity|].
    cbn [Zval]. lia.
  - cbn [Zval] in H. cbn [SF64add SFadd is_fin]. split; [reflexivity|].
    cbn [Zval]. lia.
  - unfold SF64add. cbn [SFadd]. cbv zeta.
    apply valid_finite in Vx, Vy. destruct Vx as [Hcx _], Vy as [Hcy _].
    pose proof (proj1 (canonical_facts Hcx)) as Hex.
    pose proof (proj1 (canonical_facts Hcy)) as Hey.
    rewrite <- (@aligned_sum sx sy mx my ex ey Z.add Hex Hey Z.mul_add_distr_r) in H.
    destruct (@binary_normalize_bounds _ (Z.min ex ey) lo hi ltac:(lia) Vlo Vhi Flo Fhi H)
      as (Hf & _ & Hb).
    split; assumption.
Qed.

(** The same for a difference. *)
Lemma SFsub_bounds (x y lo hi : spec_float) :
  valid_binary x = true -> valid_binary y = true ->
  valid_binary lo = true -> valid_binary hi = true ->
  is_fin x = true -> is_fin y = true -> is_fin lo = true -> is_fin hi = true ->
  Zval lo <= Zval x - Zval y <= Zval hi ->
  is_fin (SF64sub x y) = true /\ Zval lo <= Zval (SF64sub x y) <= Zval hi.
Proof.
  intros Vx Vy Vlo Vhi Fx Fy Flo Fhi H.
  destruct x as [sx| | |sx mx ex]; try discriminate Fx;
    destruct y as [sy| | |sy my ey]; try discriminate Fy.
  - cbn [Zval] in H. destruct sx, sy; cbn; lia.
  - cbn [Zval] in H. cbn [SF64sub SFsub is_fin]. split; [reflexivity|].
    cbn [Zval]. destruct sy; cbn [negb cond_Zopp] in *; lia.
  - cbn [Zval] in H. cbn [SF64sub SFsub is_fin]. split; [reflexivity|].
    cbn [Zval]. lia.
  - unfold SF64sub. cbn [SFsub]. cbv zeta.
    apply valid_finite in Vx, Vy. destruct Vx as [Hcx _], Vy as [Hcy _].
    pose proof (proj1 (canonical_facts Hcx)) as Hex.
    pose proof (proj1 (canonical_facts Hcy)) as Hey.
    rewrite <- (@aligned_sum sx sy mx my ex ey Z.sub Hex Hey Z.mul_sub_distr_r) in H.
    destruct (@binary_normalize_bounds _ (Z.min ex ey) lo hi ltac:(lia) Vlo Vhi Flo Fhi H)
      as (Hf & _ & Hb).
    split; assumption.
Qed.

(** *** From floats to their values *)

Lemma is_finite_spec (x : float) : is_finite x = is_fin (Prim2SF x).
Proof.
  unfold is_finite, is_nan, is_infinity.
  rewrite !FloatAxioms.eqb_spec, FloatAxioms.abs_spec.
  change (Prim2SF infinity) with (S754_infinity false).
  destruct (Prim2SF x) as [s|s| |s m e]; try destruct s; try reflexivity;
    unfold SFeqb; cbn [SFabs SFcompare]; rewrite Z.compare_refl;
    change (Pos.compare_cont Eq m m) with (m ?= m)%positive;
    rewrite Pos.compare_refl; reflexivity.
Qed.

Lemma leb_Zval (x y : float) :
  is_fin (Prim2SF x) = true -> is_fin (Prim2SF y) = true ->
  (x <=? y)%float = (Zval (Prim2SF x) <=? Zval (Prim2SF y)).
Proof.
  intros Fx Fy. rewrite FloatAxioms.leb_spec. unfold SFleb.
  rewrite (@SFcompare_Zval _ _ (Prim2SF_valid x) (Prim2SF_valid y) Fx Fy).
  unfold Z.leb. destruct (_ ?= _); reflexivity.
Qed.

Lemma ltb_Zval (x y : float) :
  is_fin (Prim2SF x) = true -> is_fin (Prim2SF y) = true ->
  (x <? y)%float = (Zval (Prim2SF x) <? Zval (Prim2SF y)).
Proof.
  intros Fx Fy. rewrite FloatAxioms.ltb_spec. unfold SFltb.
  rewrite (@SFcompare_Zval _ _ (Prim2SF_valid x) (Prim2SF_valid y) Fx Fy).
  unfold Z.ltb. destruct (_ ?= _); reflexivity.
Qed.

Lemma eqb_Zval (x y : float) :
  is_fin (Prim2SF x) = true -> is_fin (Prim2SF y) = true ->
  (x =? y)%float = (Zval (Prim2SF x) =? Zval (Prim2SF y)).
Proof.
  intros Fx Fy. rewrite FloatAxioms.eqb_spec. unfold SFeqb.
  rewrite (@SFcompare_Zval _ _ (Prim2SF_valid x) (Prim2SF_valid y) Fx Fy).
  rewrite Z.eqb_compare. destruct (_ ?= _); reflexivity.
Qed.

(** *** The remainder is bounded by the divisor *)

(** [fmod] by a finite divisor, of a finite number: finite, and no larger in
    magnitude than the divisor. *)
Lemma SFfmod_bounds (x : spec_float) (sy : bool) (my : positive) (ey : Z) :
  valid_binary x = true -> is_fin x = true ->
  valid_binary (S754_finite sy my ey) = true ->
  is_fin (SFfmod x (S754_finite sy my ey)) = true
  /\ valid_binary (SFfmod x (S754_finite sy my ey)) = true
  /\ - sv my ey <= Zval (SFfmod x (S754_finite sy my ey)) <= sv my ey.
Proof.
  intros Vx Fx Vy.
  pose proof Vy as Vy'. apply valid_finite in Vy'. destruct Vy' as [Hcy Hey].
  pose proof (proj1 (canonical_facts Hcy)) as Hey'.
  pose proof (sv_pos my Hey') as Hpy.
  destruct x as [sx| | |sx mx ex]; try discriminate Fx.
  - cbn [SFfmod is_fin SpecFloat.valid_binary Zval]. repeat split; lia.
  - pose proof Vx as Vx'. apply valid_finite in Vx'. destruct Vx' as [Hcx _].
    pose proof (proj1 (canonical_facts Hcx)) as Hex.
    cbn [SFfmod]. cbv zeta.
    set (ez := Z.min ex ey).
    set (bz := Zpos my * 2 ^ (ey - ez)).
    set (r := (Zpos mx * 2 ^ (ex - ez)) mod bz).
    assert (Hbz : 0 < bz).
    { unfold bz. pose proof (@pow2_pos (ey - ez) ltac:(unfold ez; lia)). nia. }
    assert (Hr : 0 <= r < bz) by (apply Z.mod_pos_bound; exact Hbz).
    destruct (Z.eqb_spec r 0) as [Hr0|Hr0];
      [cbn [is_fin SpecFloat.valid_binary Zval]; repeat split; lia|].
    assert (Hu : 0 < 2 ^ (ez + 1074)) by (apply pow2_pos; unfold ez; lia).
    assert (Hsv : bz * 2 ^ (ez + 1074) = sv my ey).
    { unfold bz, sv. replace (ey + 1074) with ((ey - ez) + (ez + 1074)) by lia.
      rewrite (@pow2_split (ey - ez) (ez + 1074)) by (unfold ez; lia). ring. }
    assert (Hb : Zval (S754_finite true my ey)
                 <= cond_Zopp sx r * 2 ^ (ez + 1074)
                 <= Zval (S754_finite false my ey)).
    { cbn [Zval cond_Zopp]. rewrite <- Hsv.
      destruct sx; cbn [cond_Zopp]; nia. }
    destruct (@binary_normalize_bounds (cond_Zopp sx r) ez
                (S754_finite true my ey) (S754_finite false my ey)
                ltac:(unfold ez; lia) Vy Vy eq_refl eq_refl Hb) as (Hf & Hv & Hz).
    cbn [Zval cond_Zopp] in Hz. split; [exact Hf|]. split; [exact Hv | exact Hz].
Qed.

(** *** The remainder by [2 * np.pi] *)

Lemma Prim2SF_two_pi : Prim2SF (2 * np_pi)%float = two_pi.
Proof. vm_compute. reflexivity. Qed.

Lemma Prim2SF_pi : Prim2SF np_pi = pi_.
Proof. vm_compute. reflexivity. Qed.

Lemma Zval_two_pi : Zval two_pi = 2 * Zval pi_.
Proof. vm_compute. reflexivity. Qed.

Lemma Zval_pi_pos : 0 < Zval pi_.
Proof. vm_compute. reflexivity. Qed.

(** [np.mod(x, 2 * np.pi)] of a finite [x] is finite and lies in [0, 2 pi]. *)
Lemma np_mod_two_pi (x : float) :
  is_finite x = true ->
  is_fin (Prim2SF (np_mod x (2 * np_pi))) = true
  /\ 0 <= Zval (Prim2SF (np_mod x (2 * np_pi))) <= Zval two_pi.
Proof.
  intros Hx. rewrite is_finite_spec in Hx.
  destruct (@SFfmod_bounds (Prim2SF x) false 7074237752028440 (-50)
              (Prim2SF_valid x) Hx eq_refl) as (Ff & Vf & Hf).
  change (S754_finite false 7074237752028440 (-50)) with two_pi in *.
  change (sv 7074237752028440 (-50)) with (Zval two_pi) in Hf.
  assert (Hr : Prim2SF (np_fmod x (2 * np_pi)) = SFfmod (Prim2SF x) two_pi).
  { unfold np_fmod. rewrite Prim2SF_two_pi. apply Prim2SF_SF2Prim. exact Vf. }
  unfold np_mod. cbv zeta.
  set (r := np_fmod x (2 * np_pi)) in *.
  change ((2 * np_pi =? 0)%float) with false.
  change ((2 * np_pi <? 0)%float) with false.
  cbv beta iota.
  assert (Fr : is_fin (Prim2SF r) = true) by (rewrite Hr; exact Ff).
  rewrite (@eqb_Zval r 0 Fr eq_refl), (@ltb_Zval r 0 Fr eq_refl).
  change (Zval (Prim2SF 0)) with 0. rewrite Hr.
  set (F := SFfmod (Prim2SF x) two_pi) in *.
  destruct (Z.eqb_spec (Zval F) 0) as [H0|H0]; cbn [negb].
  - change (Prim2SF (np_copysign 0 (2 * np_pi))) with (S754_zero false).
    cbn [is_fin Zval]. split; [reflexivity|]. pose proof Zval_two_pi. pose proof Zval_pi_pos. lia.
  - destruct (Z.ltb_spec (Zval F) 0) as [Hneg|Hpos]; cbn [Bool.eqb negb].
    + rewrite FloatAxioms.add_spec, Hr, Prim2SF_two_pi. fold F.
      apply (@SFadd_bounds F two_pi (S754_zero false) two_pi); try reflexivity; try assumption.
      cbn [Zval] in *. fold (Zval two_pi). lia.
    + rewrite Hr. fold F. split; [exact Ff|]. lia.
Qed.

(** The feature on a finite argument: finite, and between 0 and [np.pi]. *)
Lemma delta_phi_yy_finite (ph1_phi ph2_phi : float) :
  is_finite (ph1_phi - ph2_phi + np_pi)%float = true ->
  is_fin (Prim2SF (delta_phi_yy ph1_phi ph2_phi)) = true
  /\ 0 <= Zval (Prim2SF (delta_phi_yy ph1_phi ph2_phi)) <= Zval pi_.
Proof.
  intros Hfin. unfold delta_phi_yy. cbv zeta.
  destruct (np_mod_two_pi _ Hfin) as [Fm Hm].
  set (m := np_mod (ph1_phi - ph2_phi + np_pi) (2 * np_pi)) in *.
  destruct (@SFsub_bounds (Prim2SF m) pi_ (SFopp pi_) pi_
              (Prim2SF_valid m) eq_refl eq_refl eq_refl Fm eq_refl eq_refl eq_refl)
    as [Fd Hd].
  { pose proof Zval_two_pi. change (Zval (SFopp pi_)) with (- Zval pi_). lia. }
  change (Zval (SFopp pi_)) with (- Zval pi_) in Hd.
  assert (Hsub : Prim2SF (m - np_pi) = SF64sub (Prim2SF m) pi_)
    by (rewrite FloatAxioms.sub_spec, Prim2SF_pi; reflexivity).
  rewrite <- Hsub in Fd, Hd.
  set (d := (m - np_pi)%float) in *.
  rewrite FloatAxioms.abs_spec.
  destruct (Prim2SF d) as [s|s| |s mm e]; try discriminate Fd.
  - cbn [SFabs is_fin Zval]. pose proof Zval_pi_pos. split; [reflexivity | lia].
  - cbn [SFabs is_fin Zval] in *. split; [reflexivity|].
    assert (0 <= sv mm e) by (unfold sv; pose proof (Z.pow_nonneg 2 (e + 1074)); nia).
    destruct s; cbn [cond_Zopp] in *; lia.
Qed.

(** Past the finite numbers the feature is NaN. *)
Lemma delta_phi_yy_not_finite (ph1_phi ph2_phi : float) :
  is_finite (ph1_phi - ph2_phi + np_pi)%float = false ->
  delta_phi_yy ph1_phi ph2_phi = nan.
Proof.
  intros Hfin. unfold delta_phi_yy. cbv zeta.
  set (x := (ph1_phi - ph2_phi + np_pi)%float) in *.
  rewrite is_finite_spec in Hfin.
  assert (Hr : np_fmod x (2 * np_pi) = nan).
  { unfold np_fmod. rewrite Prim2SF_two_pi.
    destruct (Prim2SF x); try discriminate Hfin; reflexivity. }
  unfold np_mod. rewrite Hr. vm_compute. reflexivity.
Qed.

End Binary64.

(** The remainder on a few arguments: the sign of the divisor, a zero of the
    divisor's sign, a sum that rounds up to the divisor, and the cases
    without a value. *)
Example np_mod_on_examples :
  np_mod 5.5 3 = 2.5%float
  /\ np_mod (-5.5) 3 = 0.5%float
  /\ np_mod 5.5 (-3) = (-0.5)%float
  /\ np_mod (-5.5) (-3) = (-2.5)%float
  /\ np_mod (-0) 3 = 0%float
  /\ np_mod (-6) 3 = 0%float
  /\ np_mod (3 - -3 + np_pi) (2 * np_pi) = 2.8584073464102069%float
  /\ np_mod (-1e-17) (2 * np_pi) = (2 * np_pi)%float
  /\ np_mod (-5) infinity = infinity
  /\ np_mod 3 0 = nan
  /\ np_mod infinity 3 = nan.
Proof. repeat split; vm_compute; reflexivity. Qed.

(** The claim as stated, for any values: 1e308 and -1e308 are binary64
    values, their difference overflows, and the feature is NaN, which lies
    in no interval. *)
Lemma delta_phi_yy_overflows :
  (1e308 - -1e308)%float = infinity
  /\ delta_phi_yy 1e308 (-1e308) = nan
  /\ (0 <=? delta_phi_yy 1e308 (-1e308))%float = false
  /\ (delta_phi_yy 1e308 (-1e308) <=? np_pi)%float = false.
Proof. repeat split; vm_compute; reflexivity. Qed.

(** C2 (amended). For every pair of binary64 angles for which
    [ph1_phi - ph2_phi + np.pi] is finite (no angle is NaN or infinite, and
    the difference does not overflow), the computed feature
    [delta_phi_yy = |((ph1_phi - ph2_phi + pi) mod 2pi) - pi|] lies in the
    closed interval from 0 to [np.pi]. *)
Theorem delta_phi_yy_in_range (ph1_phi ph2_phi : float) :
  is_finite (ph1_phi - ph2_phi + np_pi)%float = true ->
  (0 <=? delta_phi_yy ph1_phi ph2_phi)%float = true
  /\ (delta_phi_yy ph1_phi ph2_phi <=? np_pi)%float = true.
Proof.
  intros Hfin.
  destruct (delta_phi_yy_finite ph1_phi ph2_phi Hfin) as [Fd Hd].
  rewrite (@leb_Zval 0 (delta_phi_yy ph1_phi ph2_phi) eq_refl Fd).
  rewrite (@leb_Zval (delta_phi_yy ph1_phi ph2_phi) np_pi Fd eq_refl).
  rewrite Prim2SF_pi. change (Zval (Prim2SF 0)) with 0%Z.
  split; apply Z.leb_le; lia.
Qed.

(** The wrap-around case of the claim: 3.0 and -3.0 are less than a third of
    a radian apart. *)
Lemma delta_phi_yy_in_range_witness :
  is_finite (3 - -3 + np_pi)%float = true
  /\ ((0 <=? delta_phi_yy 3 (-3))%float = true
      /\ (delta_phi_yy 3 (-3) <=? np_pi)%float = true)
  /\ delta_phi_yy 3 (-3) = 0.28318530717958623%float
  /\ (delta_phi_yy 3 (-3) <? 0.5)%float = true.
Proof.
  split; [reflexivity|].
  split; [apply delta_phi_yy_in_range; reflexivity|].
  split; reflexivity.
Defined.

(** ** Cells: effects and outcomes *)

Lemma bind_ok {A B} (m : Run A) (f : A -> Run B) (a : A) :
  outcome m = ok a ->
  bind m f = (effects m ++ effects (f a), outcome (f a)).
Proof. unfold bind, outcome, effects. intros ->. reflexivity. Qed.

Lemma bind_raise {A B} (m : Run A) (f : A -> Run B) (e : Exception) :
  outcome m = raise e -> bind m f = (effects m, raise e).
Proof. unfold bind, outcome, effects. intros ->. reflexivity. Qed.

Lemma run_eta {A} (m : Run A) : m = (effects m, outcome m).
Proof. destruct m; reflexivity. Qed.

Lemma bind_print {B} (msg : Message) (k : Run B) :
  bind (print msg) (fun _ => k) = (Stdout msg :: effects k, outcome k).
Proof. reflexivity. Qed.

Lemma bind_tell {B} (l : list Effect) (k : Run B) :
  bind (tell l) (fun _ => k) = (l ++ effects k, outcome k).
Proof. reflexivity. Qed.

Lemma bind_ret {A B} (a : A) (f : A -> Run B) : bind (ret a) f = f a.
Proof. unfold bind, ret. simpl. apply (eq_sym (run_eta (f a))). Qed.

Lemma bind_lift_ok {A B} (a : A) (f : A -> Run B) : bind (lift (ok a)) f = f a.
Proof. unfold bind, lift. simpl. apply (eq_sym (run_eta (f a))). Qed.

(** ** The loader only prints *)

Section LoaderEffects.

Variable num : Numerics.
Variable world : World.

Lemma load_files_only_prints (is_signal_flag : Z) (tree : string) (branches : list string)
    (all_files : list string) (df_list : list DataFrame) :
  forallb is_output
    (effects (load_files num world is_signal_flag tree branches all_files df_list)) = true.
Proof.
  revert df_list. induction all_files as [|f rest IH]; intros df_list; cbn [load_files].
  - reflexivity.
  - destruct (read_events world f tree branches) as [e|events].
    + rewrite bind_print. cbn [effects fst forallb is_output]. apply IH.
    + destruct (len events =? 0)%nat.
      * rewrite bind_print. cbn [effects fst forallb is_output]. apply IH.
      * destruct (frame_of_array num is_signal_flag events) as [e|[df|]].
        -- reflexivity.
        -- rewrite bind_lift_ok. apply IH.
        -- rewrite bind_lift_ok. apply IH.
Qed.

Lemma loader_only_prints (pattern : string) (is_signal_flag : Z) (tree : string)
    (branches : list string) :
  forallb is_output
    (effects (load_and_preprocess_mc_for_mva num world pattern is_signal_flag tree branches))
  = true.
Proof.
  unfold load_and_preprocess_mc_for_mva.
  destruct (is_empty (glob_glob world pattern)).
  - reflexivity.
  - rewrite bind_print. cbn [effects fst forallb is_output andb].
    pose proof (load_files_only_prints is_signal_flag tree branches
                  (glob_glob world pattern) []) as H.
    destruct (load_files num world is_signal_flag tree branches
                (glob_glob world pattern) []) as [eff [e|df_list]].
    + exact H.
    + unfold bind. cbn [snd fst effects] in *.
      destruct (is_empty df_list); cbn [ret fst];
        rewrite forallb_app, H; reflexivity.
Qed.

End LoaderEffects.

(** ** Both tables empty *)

(** C4. When the signal and the background tables are both empty, the cells
    after the loader report the error "both ... are empty, cannot proceed"
    and do nothing else but report that each later step is skipped: no
    split, no scaler, no classifier is fitted ([mlp_model] is [None]), no
    evaluation is run and nothing is written.  For the whole notebook: if
    both calls of the loader return empty tables, every effect of the run
    is a line of output, the error is among them and the run ends with no
    model and no scaler. *)
Theorem both_tables_empty_stops_pipeline
    (num : Numerics) (world : World) (Scaler Model : Type)
    (lib : Libraries Scaler Model) (df_signal_mc df_background_mc : DataFrame) :
  empty df_signal_mc = true ->
  empty df_background_mc = true ->
  assemble_and_train world lib df_signal_mc df_background_mc
  = ([ Stdout ErrorBothEmpty;
       Stdout SkippingFeaturePlots;
       Stdout CannotDefineXy;
       Stdout SkippingSplit;
       Stdout SkippingTraining;
       Stdout SkippingEvaluation;
       Stdout SkippingSaving ],
     ok (None, mkSplitData [] [] [] [] [] [] None))
  /\ (outcome (load_and_preprocess_mc_for_mva num world
                 (mc_signal_hyy_file_pattern world) 1 tree_name branches_to_read_mc)
      = ok df_signal_mc ->
      outcome (load_and_preprocess_mc_for_mva num world
                 (mc_background_hyy_file_pattern world) 0 tree_name branches_to_read_mc)
      = ok df_background_mc ->
      outcome (run_all num world lib) = ok (None, mkSplitData [] [] [] [] [] [] None)
      /\ forallb is_output (effects (run_all num world lib)) = true
      /\ In (Stdout ErrorBothEmpty) (effects (run_all num world lib))).
Proof.
  intros Hs Hb.
  assert (Hcells :
    assemble_and_train world lib df_signal_mc df_background_mc
    = ([ Stdout ErrorBothEmpty; Stdout SkippingFeaturePlots; Stdout CannotDefineXy;
         Stdout SkippingSplit; Stdout SkippingTraining; Stdout SkippingEvaluation;
         Stdout SkippingSaving ],
       ok (None, mkSplitData [] [] [] [] [] [] None))).
  { unfold assemble_and_train, combine_mc. rewrite Hs, Hb. reflexivity. }
  split; [exact Hcells|].
  intros Ls Lb.
  pose proof (loader_only_prints num world (mc_signal_hyy_file_pattern world) 1
                tree_name branches_to_read_mc) as Ps.
  pose proof (loader_only_prints num world (mc_background_hyy_file_pattern world) 0
                tree_name branches_to_read_mc) as Pb.
  unfold run_all.
  rewrite !bind_print.
  rewrite (@bind_ok _ _ _ _ _ Ls), bind_print.
  unfold describe. rewrite Hs. cbn [negb]. rewrite bind_ret.
  rewrite (@bind_ok _ _ _ _ _ Lb), bind_print.
  rewrite Hb. cbn [negb]. rewrite bind_ret.
  rewrite Hcells.
  cbn [effects outcome fst snd].
  split; [reflexivity|]. split.
  - cbn [forallb is_output andb]. rewrite forallb_app, Ps.
    cbn [forallb is_output andb]. rewrite forallb_app, Pb. reflexivity.
  - do 2 right. apply in_or_app. right. right.
    apply in_or_app. right. right. left. reflexivity.
Qed.

Lemma both_tables_empty_stops_pipeline_witness :
  effects (run_all example_numerics recorded_world example_libraries)
  = [ Stdout (ConfigurationSet "/work/data/DAOD_PHYSLITE.38191712.*.pool.root.1"
                "/work/data/DAOD_PHYSLITE.37110937._000011.pool.root.1"
                "/work/hyy_mva_model.pkl" "/work/hyy_mva_scaler.pkl");
      Stdout FunctionDefined;
      Stdout (ProcessingFiles 17 "/work/data/DAOD_PHYSLITE.38191712.*.pool.root.1") ]
    ++ map (fun f => Stdout (ErrorReadingFile f (FileNotFoundError (f ++ ":analysis")%string)))
         recorded_signal_files
    ++ [ Stdout (LoadedSignal (0, 0)%nat);
         Stdout (ProcessingFiles 1 "/work/data/DAOD_PHYSLITE.37110937._000011.pool.root.1");
         Stdout (ErrorReadingFile "/work/data/DAOD_PHYSLITE.37110937._000011.pool.root.1"
                   (FileNotFoundError
                      "/work/data/DAOD_PHYSLITE.37110937._000011.pool.root.1:analysis"));
         Stdout (LoadedBackground (0, 0)%nat);
         Stdout ErrorBothEmpty;
         Stdout SkippingFeaturePlots;
         Stdout CannotDefineXy;
         Stdout SkippingSplit;
         Stdout SkippingTraining;
         Stdout SkippingEvaluation;
         Stdout SkippingSaving ]
  /\ outcome (run_all example_numerics recorded_world example_libraries)
     = ok (None, mkSplitData [] [] [] [] [] [] None)
  /\ forallb is_output (effects (run_all example_numerics recorded_world example_libraries))
     = true.
Proof.
  split; [vm_compute; reflexivity|].
  pose proof (@both_tables_empty_stops_pipeline example_numerics recorded_world
                (list (float * float)) unit example_libraries pd_DataFrame pd_DataFrame
                eq_refl eq_refl) as [_ H].
  destruct H as [Ho [Hp _]]; [vm_compute; reflexivity | vm_compute; reflexivity |].
  split; [exact Ho | exact Hp].
Defined.

(** ** Missing features *)

Lemma missing_features_spec (df : DataFrame) (f : string) :
  In f (missing_features df) <-> In f mva_features_list /\ in_columns df f = false.
Proof.
  unfold missing_features. rewrite filter_In, negb_true_iff. reflexivity.
Qed.

(** The empty table [pd.DataFrame()] has none of the features, yet the cells
    from "Define Features" on report only that the table is empty: neither
    the missing names nor the available columns are printed. *)
Lemma empty_table_reports_no_names :
  empty pd_DataFrame = true
  /\ missing_features pd_DataFrame = mva_features_list
  /\ train_and_save example_world example_libraries pd_DataFrame
     = ([ Stdout CannotDefineXy;
          Stdout SkippingSplit;
          Stdout SkippingTraining;
          Stdout SkippingEvaluation;
          Stdout SkippingSaving ],
        ok (None, mkSplitData [] [] [] [] [] [] None)).
Proof. repeat split. Qed.

(** C5 (amended). For every non-empty assembled dataset, if a name of
    [mva_features_list] is not among its columns, the cells from "Define
    Features" on print the error with exactly the missing names (the listed
    features that are not columns, in the order of the list) and the
    available columns, and then only report that splitting, training,
    evaluation and saving are skipped: nothing is split, fitted, scored or
    written, and [mlp_model] is [None]. *)
Theorem missing_feature_is_fatal
    (world : World) (Scaler Model : Type) (lib : Libraries Scaler Model)
    (df_combined_mc : DataFrame) :
  empty df_combined_mc = false ->
  missing_features df_combined_mc <> [] ->
  train_and_save world lib df_combined_mc
  = ([ Stdout (ErrorMissingFeatures (missing_features df_combined_mc));
       Stdout (AvailableColumns (columns df_combined_mc));
       Stdout SkippingSplit;
       Stdout SkippingTraining;
       Stdout SkippingEvaluation;
       Stdout SkippingSaving ],
     ok (None, mkSplitData [] [] [] [] [] [] None))
  /\ (forall f : string,
        In f (missing_features df_combined_mc) <->
        In f mva_features_list /\ in_columns df_combined_mc f = false).
Proof.
  intros Hne Hmiss. split; [|apply missing_features_spec].
  unfold train_and_save, define_X_y. rewrite Hne. cbn [negb].
  destruct (missing_features df_combined_mc) as [|f l] eqn:E; [contradiction|].
  reflexivity.
Qed.

Lemma missing_feature_is_fatal_witness :
  missing_features example_incomplete
  = [ "ph1_pt_norm"; "ph2_pt_norm"; "delta_eta_yy"; "delta_phi_yy"; "delta_R_yy";
      "ph1_ptcone20_norm"; "ph2_ptcone20_norm"; "cos_theta_cs_yy" ]%string
  /\ train_and_save example_world example_libraries example_incomplete
     = ([ Stdout (ErrorMissingFeatures (missing_features example_incomplete));
          Stdout (AvailableColumns (columns example_incomplete));
          Stdout SkippingSplit;
          Stdout SkippingTraining;
          Stdout SkippingEvaluation;
          Stdout SkippingSaving ],
        ok (None, mkSplitData [] [] [] [] [] [] None)).
Proof.
  split; [reflexivity|].
  apply (@missing_feature_is_fatal example_world (list (float * float)) unit
           example_libraries example_incomplete).
  - reflexivity.
  - discriminate.
Defined.

(** ** The split-and-scale cell *)

Section SplitAndScale.

Variables Scaler Model : Type.
Variable lib : Libraries Scaler Model.

Lemma bind_lift_raise {A B} (e : Exception) (f : A -> Run B) :
  bind (lift (inl e)) f = ([], inl e).
Proof. reflexivity. Qed.

(** What the cell leaves when the library calls return. *)
Lemma split_and_scale_runs (X : DataFrame) (y weights : list Cell)
    (parts : list nat * list nat) (X_train X_test : list (list Cell))
    (y_train y_test w_train w_test : list Cell) (s : Scaler)
    (X_train_scaled X_test_scaled : list (list float)) :
  empty X = false ->
  train_test_split lib (List.length (rows X)) (stratify_argument y) = ok parts ->
  take (rows X) (fst parts) = ok X_train ->
  take (rows X) (snd parts) = ok X_test ->
  take y (fst parts) = ok y_train ->
  take y (snd parts) = ok y_test ->
  take weights (fst parts) = ok w_train ->
  take weights (snd parts) = ok w_test ->
  StandardScaler_fit lib X_train = ok s ->
  StandardScaler_transform lib s X_train = ok X_train_scaled ->
  StandardScaler_transform lib s X_test = ok X_test_scaled ->
  split_and_scale lib X y weights
  = ([ TrainTestSplit (match stratify_argument y with Some _ => true | None => false end);
       Stdout (TrainingSetSize (List.length X_train));
       Stdout (TestSetSize (List.length X_test));
       ScalerFit (List.length X_train);
       ScalerTransform (List.length X_train);
       ScalerTransform (List.length X_test);
       Stdout FeaturesScaled ],
     ok (mkSplitData X_train_scaled X_test_scaled y_train y_test w_train w_test (Some s))).
Proof.
  intros Hne Hsplit HXtr HXte Hytr Hyte Hwtr Hwte Hfit Htr Hte.
  unfold split_and_scale. rewrite Hne. cbn [negb]. cbv zeta.
  rewrite bind_tell, Hsplit, bind_lift_ok.
  rewrite HXtr, bind_lift_ok, HXte, bind_lift_ok.
  rewrite Hytr, bind_lift_ok, Hyte, bind_lift_ok.
  rewrite Hwtr, bind_lift_ok, Hwte, bind_lift_ok.
  rewrite !bind_print, bind_tell.
  rewrite Hfit, bind_lift_ok, bind_tell, Htr, bind_lift_ok, bind_tell, Hte.
  reflexivity.
Qed.

(** Conversely, a cell that returns went through every library call. *)
Lemma split_and_scale_returned (X : DataFrame) (y weights : list Cell) (d : SplitData _) :
  empty X = false ->
  outcome (split_and_scale lib X y weights) = ok d ->
  exists parts X_train X_test s,
    train_test_split lib (List.length (rows X)) (stratify_argument y) = ok parts
    /\ take (rows X) (fst parts) = ok X_train
    /\ take (rows X) (snd parts) = ok X_test
    /\ take y (fst parts) = ok (y_train d)
    /\ take y (snd parts) = ok (y_test d)
    /\ take weights (fst parts) = ok (w_train d)
    /\ take weights (snd parts) = ok (w_test d)
    /\ StandardScaler_fit lib X_train = ok s
    /\ StandardScaler_transform lib s X_train = ok (X_train_scaled d)
    /\ StandardScaler_transform lib s X_test = ok (X_test_scaled d)
    /\ scaler d = Some s.
Proof.
  intros Hne H.
  unfold split_and_scale in H. rewrite Hne in H. cbn [negb] in H. cbv zeta in H.
  rewrite bind_tell in H. cbn [outcome snd] in H.
  destruct (train_test_split lib (List.length (rows X)) (stratify_argument y))
    as [e|parts] eqn:E1; [discriminate H|].
  rewrite bind_lift_ok in H.
  destruct (take (rows X) (fst parts)) as [e|X_train] eqn:E2; [discriminate H|].
  rewrite bind_lift_ok in H.
  destruct (take (rows X) (snd parts)) as [e|X_test] eqn:E3; [discriminate H|].
  rewrite bind_lift_ok in H.
  destruct (take y (fst parts)) as [e|ytr] eqn:E4; [discriminate H|].
  rewrite bind_lift_ok in H.
  destruct (take y (snd parts)) as [e|yte] eqn:E5; [discriminate H|].
  rewrite bind_lift_ok in H.
  destruct (take weights (fst parts)) as [e|wtr] eqn:E6; [discriminate H|].
  rewrite bind_lift_ok in H.
  destruct (take weights (snd parts)) as [e|wte] eqn:E7; [discriminate H|].
  rewrite bind_lift_ok, !bind_print, bind_tell in H. cbn [outcome snd] in H.
  destruct (StandardScaler_fit lib X_train) as [e|s] eqn:E8; [discriminate H|].
  rewrite bind_lift_ok, bind_tell in H. cbn [outcome snd] in H.
  destruct (StandardScaler_transform lib s X_train) as [e|A] eqn:E9; [discriminate H|].
  rewrite bind_lift_ok, bind_tell in H. cbn [outcome snd] in H.
  destruct (StandardScaler_transform lib s X_test) as [e|B] eqn:E10; [discriminate H|].
  rewrite bind_lift_ok, bind_print in H. cbn [outcome snd ret] in H.
  injection H as <-. cbn.
  exists parts, X_train, X_test, s. repeat split; assumption.
Qed.

End SplitAndScale.

Lemma take_ext {A} (l l' : list A) (indices : list nat) :
  (forall i, In i indices -> nth_error l i = nth_error l' i) ->
  take l indices = take l' indices.
Proof.
  unfold take. induction indices as [|i indices IH]; intros H; cbn [mapM].
  - reflexivity.
  - rewrite (H i) by (left; reflexivity).
    rewrite IH by (intros j Hj; apply H; right; exact Hj).
    reflexivity.
Qed.

(** ** The scaler sees the training rows only *)

(** C3. The scaler is fitted on the training rows only.  Take two feature
    tables with the same labels and weights, the same number of rows, and the
    same rows at the training positions of the split, however they differ at
    the test positions.  Whenever the split-and-scale cell returns on both,
    the fitted scaler is the same, namely the one fitted on the training
    rows, and so are the scaled training rows; each test partition is the
    transform of its rows by that one scaler; and each run fits a scaler
    exactly once, on the training rows. *)
Theorem scaler_fitted_on_training_rows_only
    (Scaler Model : Type) (lib : Libraries Scaler Model)
    (X X' : DataFrame) (y weights : list Cell) (parts : list nat * list nat)
    (d d' : SplitData Scaler) :
  empty X = false ->
  empty X' = false ->
  List.length (rows X) = List.length (rows X') ->
  train_test_split lib (List.length (rows X)) (stratify_argument y) = ok parts ->
  (forall i, In i (fst parts) -> nth_error (rows X) i = nth_error (rows X') i) ->
  outcome (split_and_scale lib X y weights) = ok d ->
  outcome (split_and_scale lib X' y weights) = ok d' ->
  scaler d = scaler d'
  /\ X_train_scaled d = X_train_scaled d'
  /\ exists s X_train X_test X_test',
       scaler d = Some s
       /\ take (rows X) (fst parts) = ok X_train
       /\ StandardScaler_fit lib X_train = ok s
       /\ take (rows X) (snd parts) = ok X_test
       /\ StandardScaler_transform lib s X_test = ok (X_test_scaled d)
       /\ take (rows X') (snd parts) = ok X_test'
       /\ StandardScaler_transform lib s X_test' = ok (X_test_scaled d')
       /\ filter is_scaler_fit (effects (split_and_scale lib X y weights))
          = [ScalerFit (List.length X_train)]
       /\ filter is_scaler_fit (effects (split_and_scale lib X' y weights))
          = [ScalerFit (List.length X_train)].
Proof.
  intros Hne Hne' Hlen Hsplit Hagree Hd Hd'.
  destruct (split_and_scale_returned lib X y weights Hne Hd)
    as (p & X_train & X_test & s & Hp & HXtr & HXte & Hytr & Hyte & Hwtr & Hwte
        & Hfit & Htr & Hte & Hs).
  destruct (split_and_scale_returned lib X' y weights Hne' Hd')
    as (p' & X_train' & X_test' & s' & Hp' & HXtr' & HXte' & Hytr' & Hyte' & Hwtr' & Hwte'
        & Hfit' & Htr' & Hte' & Hs').
  rewrite Hsplit in Hp. injection Hp as <-.
  rewrite <- Hlen, Hsplit in Hp'. injection Hp' as <-.
  rewrite <- (take_ext _ _ _ Hagree), HXtr in HXtr'. injection HXtr' as <-.
  rewrite Hfit in Hfit'. injection Hfit' as <-.
  rewrite Htr in Htr'. injection Htr' as E.
  split; [rewrite Hs, Hs'; reflexivity|].
  split; [exact E|].
  exists s, X_train, X_test, X_test'.
  repeat (split; [assumption|]).
  split.
  - rewrite (split_and_scale_runs lib X y weights Hne Hsplit HXtr HXte Hytr Hyte Hwtr Hwte
               Hfit Htr Hte).
    reflexivity.
  - assert (Hsplit' : train_test_split lib (List.length (rows X')) (stratify_argument y)
                      = ok parts) by (rewrite <- Hlen; exact Hsplit).
    assert (HXtr' : take (rows X') (fst parts) = ok X_train)
      by (rewrite <- (take_ext _ _ _ Hagree); exact HXtr).
    rewrite E in Htr.
    rewrite (split_and_scale_runs lib X' y weights Hne' Hsplit' HXtr' HXte' Hytr' Hyte'
               Hwtr' Hwte' Hfit Htr Hte').
    reflexivity.
Qed.

Lemma scaler_fitted_on_training_rows_only_witness :
  match outcome (split_and_scale example_libraries example_X example_y example_weights),
        outcome (split_and_scale example_libraries example_X' example_y example_weights)
  with
  | inr d, inr d' =>
      scaler d = scaler d' /\ X_train_scaled d = X_train_scaled d'
  | _, _ => False
  end.
Proof.
  destruct (outcome (split_and_scale example_libraries example_X example_y example_weights))
    as [e|d] eqn:Hd; [vm_compute in Hd; discriminate Hd|].
  destruct (outcome (split_and_scale example_libraries example_X' example_y example_weights))
    as [e|d'] eqn:Hd'; [vm_compute in Hd'; discriminate Hd'|].
  pose proof (@scaler_fitted_on_training_rows_only (list (float * float)) unit
                example_libraries example_X example_X' example_y example_weights
                ([0; 1], [2; 3])%nat d d') as H.
  destruct H as [Hs [Ht _]].
  - reflexivity.
  - reflexivity.
  - reflexivity.
  - reflexivity.
  - intros i [<-|[<-|[]]]; reflexivity.
  - exact Hd.
  - exact Hd'.
  - split; [exact Hs | exact Ht].
Defined.

(** ** A dataset with one label *)

Section OneLabel.

Variables Scaler Model : Type.
Variable lib : Libraries Scaler Model.

Lemma In_firstn {A} (a : A) (k : nat) (l : list A) : In a (firstn k l) -> In a l.
Proof.
  revert k. induction l as [|b l IH]; intros [|k]; simpl; try tauto.
  intros [H|H]; [left; exact H | right; exact (IH k H)].
Qed.

(** Whatever the libraries answer, the effects of the cell are an initial
    part of one fixed sequence. *)
Lemma split_and_scale_effects (X : DataFrame) (y weights : list Cell) :
  empty X = false ->
  exists n_train n_test k,
    effects (split_and_scale lib X y weights)
    = firstn (S k)
        [ TrainTestSplit (match stratify_argument y with Some _ => true | None => false end);
          Stdout (TrainingSetSize n_train);
          Stdout (TestSetSize n_test);
          ScalerFit n_train;
          ScalerTransform n_train;
          ScalerTransform n_test;
          Stdout FeaturesScaled ].
Proof.
  intros Hne.
  unfold split_and_scale. rewrite Hne. cbn [negb]. cbv zeta.
  rewrite bind_tell. cbn [effects fst].
  destruct (train_test_split lib (List.length (rows X)) (stratify_argument y))
    as [e|parts]; [exists 0%nat, 0%nat, 0%nat; reflexivity|].
  rewrite bind_lift_ok.
  destruct (take (rows X) (fst parts)) as [e|X_train];
    [exists 0%nat, 0%nat, 0%nat; reflexivity|].
  rewrite bind_lift_ok.
  destruct (take (rows X) (snd parts)) as [e|X_test];
    [exists 0%nat, 0%nat, 0%nat; reflexivity|].
  rewrite bind_lift_ok.
  destruct (take y (fst parts)) as [e|ytr]; [exists 0%nat, 0%nat, 0%nat; reflexivity|].
  rewrite bind_lift_ok.
  destruct (take y (snd parts)) as [e|yte]; [exists 0%nat, 0%nat, 0%nat; reflexivity|].
  rewrite bind_lift_ok.
  destruct (take weights (fst parts)) as [e|wtr]; [exists 0%nat, 0%nat, 0%nat; reflexivity|].
  rewrite bind_lift_ok.
  destruct (take weights (snd parts)) as [e|wte]; [exists 0%nat, 0%nat, 0%nat; reflexivity|].
  rewrite bind_lift_ok, !bind_print, bind_tell. cbn [effects fst].
  exists (List.length X_train), (List.length X_test).
  destruct (StandardScaler_fit lib X_train) as [e|s]; [exists 3%nat; reflexivity|].
  rewrite bind_lift_ok, bind_tell. cbn [effects fst].
  destruct (StandardScaler_transform lib s X_train) as [e|A]; [exists 4%nat; reflexivity|].
  rewrite bind_lift_ok, bind_tell. cbn [effects fst].
  destruct (StandardScaler_transform lib s X_test) as [e|B]; [exists 5%nat; reflexivity|].
  exists 6%nat. reflexivity.
Qed.

Lemma one_label_not_stratified (y : list Cell) :
  (nunique y <= 1)%nat -> stratify_argument y = None.
Proof.
  unfold stratify_argument. intros H.
  destruct (Nat.ltb_spec 1 (nunique y)) as [Hlt|_]; [lia | reflexivity].
Qed.

End OneLabel.

(** A dataset whose four rows are all signal goes through "Define Features"
    and "Split Data and Scale Features" without any report of its one
    label: the split is called unstratified, the cell prints the two sizes
    and "Features scaled.", and it leaves a fitted scaler. *)
Lemma one_label_is_split_and_scaled :
  get_column example_signal_only "isSignal" = ok [CInt 1; CInt 1; CInt 1; CInt 1]
  /\ nunique [CInt 1; CInt 1; CInt 1; CInt 1] = 1%nat
  /\ effects (bind (define_X_y example_signal_only)
                (fun Xyw => split_and_scale example_libraries
                              (fst (fst Xyw)) (snd (fst Xyw)) (snd Xyw)))
     = [ Stdout (FeaturesDefined (4, 10)%nat 4 4);
         TrainTestSplit false;
         Stdout (TrainingSetSize 2);
         Stdout (TestSetSize 2);
         ScalerFit 2;
         ScalerTransform 2;
         ScalerTransform 2;
         Stdout FeaturesScaled ]
  /\ match outcome (bind (define_X_y example_signal_only)
                      (fun Xyw => split_and_scale example_libraries
                                    (fst (fst Xyw)) (snd (fst Xyw)) (snd Xyw))) with
     | inr d =>
         match scaler d with
         | Some _ => (List.length (y_train d), List.length (y_test d))
         | None => (0, 0)%nat
         end
     | inl _ => (0, 0)%nat
     end = (2, 2)%nat.
Proof. repeat split; vm_compute; reflexivity. Qed.

(** C6 (amended). When the label column has a single distinct value and the
    feature table is not empty, the split-and-scale cell does not flag it:
    [stratify] is [None], the first thing the cell does is call
    [train_test_split] unstratified, all it ever prints are the two
    partition sizes and "Features scaled.", and when the library calls
    return it leaves a fitted scaler and both scaled partitions. *)
Theorem one_label_falls_back_to_unstratified_split
    (Scaler Model : Type) (lib : Libraries Scaler Model)
    (X : DataFrame) (y weights : list Cell) :
  empty X = false ->
  (nunique y <= 1)%nat ->
  stratify_argument y = None
  /\ (exists rest,
        effects (split_and_scale lib X y weights) = TrainTestSplit false :: rest
        /\ forall m, In (Stdout m) rest ->
             (exists n, m = TrainingSetSize n) \/ (exists n, m = TestSetSize n)
             \/ m = FeaturesScaled)
  /\ (forall parts X_train X_test y_train y_test w_train w_test s
             X_train_scaled X_test_scaled,
        train_test_split lib (List.length (rows X)) None = ok parts ->
        take (rows X) (fst parts) = ok X_train ->
        take (rows X) (snd parts) = ok X_test ->
        take y (fst parts) = ok y_train ->
        take y (snd parts) = ok y_test ->
        take weights (fst parts) = ok w_train ->
        take weights (snd parts) = ok w_test ->
        StandardScaler_fit lib X_train = ok s ->
        StandardScaler_transform lib s X_train = ok X_train_scaled ->
        StandardScaler_transform lib s X_test = ok X_test_scaled ->
        split_and_scale lib X y weights
        = ([ TrainTestSplit false;
             Stdout (TrainingSetSize (List.length X_train));
             Stdout (TestSetSize (List.length X_test));
             ScalerFit (List.length X_train);
             ScalerTransform (List.length X_train);
             ScalerTransform (List.length X_test);
             Stdout FeaturesScaled ],
           ok (mkSplitData X_train_scaled X_test_scaled y_train y_test w_train w_test
                 (Some s)))).
Proof.
  intros Hne Hone.
  pose proof (one_label_not_stratified y Hone) as Hnone.
  split; [exact Hnone|]. split.
  - destruct (split_and_scale_effects lib X y weights Hne) as (n1 & n2 & k & Heff).
    rewrite Hnone in Heff. cbn [firstn] in Heff.
    eexists. split; [exact Heff|].
    intros m Hin. apply In_firstn in Hin.
    cbn [In] in Hin.
    destruct Hin as [H|[H|[H|[H|[H|[H|[]]]]]]]; try discriminate H.
    + injection H as <-. left. exists n1. reflexivity.
    + injection H as <-. right. left. exists n2. reflexivity.
    + injection H as <-. right. right. reflexivity.
  - intros parts X_train X_test y_train y_test w_train w_test s A B
           Hsplit HXtr HXte Hytr Hyte Hwtr Hwte Hfit Htr Hte.
    rewrite <- Hnone in Hsplit.
    rewrite (split_and_scale_runs lib X y weights Hne Hsplit HXtr HXte Hytr Hyte Hwtr Hwte
               Hfit Htr Hte).
    rewrite Hnone. reflexivity.
Qed.

Lemma one_label_falls_back_to_unstratified_split_witness :
  stratify_argument [CInt 1; CInt 1; CInt 1; CInt 1] = None
  /\ exists rest,
       effects (split_and_scale example_libraries example_X
                  [CInt 1; CInt 1; CInt 1; CInt 1] example_weights)
       = TrainTestSplit false :: rest.
Proof.
  destruct (@one_label_falls_back_to_unstratified_split (list (float * float)) unit
              example_libraries example_X [CInt 1; CInt 1; CInt 1; CInt 1] example_weights)
    as [Hnone [[rest [Heff _]] _]].
  - reflexivity.
  - vm_compute. lia.
  - split; [exact Hnone|]. exists rest. exact Heff.
Defined.

(** ** Event weights *)

Section EventWeights.

Variable num : Numerics.
Variable fields : list string.
Variable is_signal_flag : Z.

Hypothesis photon_fields : has_photon_fields fields = true.

Lemma survivors_have_two_photons (W : Type) (events : list (Event W)) :
  Forall (fun ev => @n_photons_cut W ev = true)
         (filter (passes_all_cuts num (W:=W)) events).
Proof.
  apply Forall_forall. intros ev Hin. apply filter_In in Hin.
  destruct Hin as [_ Hall]. unfold passes_all_cuts, cuts in Hall.
  cbn [forallb] in Hall. apply andb_true_iff in Hall. tauto.
Qed.

Lemma leading_total (W : Type) (events : list (Event W)) :
  Forall (fun ev => @n_photons_cut W ev = true) events ->
  exists p, leading events = ok p /\ List.length p = List.length events.
Proof.
  intros H. destruct (leading_mask (fun _ => true) H) as [p [Hp Hmap]].
  exists p. split; [exact Hp|].
  apply (f_equal (@List.length bool)) in Hmap.
  rewrite !length_map in Hmap. exact Hmap.
Qed.

Lemma eventWeight_column (pws : list ((Photon * Photon) * float)) :
  get_column
    (mkDataFrame df_dict_keys
       (map (fun pw => feature_row num is_signal_flag (fst pw) (snd pw)) pws))
    "eventWeight"
  = ok (map (fun pw => CFloat (snd pw)) pws).
Proof.
  unfold get_column, column_position. cbn [columns rows].
  change (index_of "eventWeight" df_dict_keys) with (Some 12%nat).
  cbv beta iota. rewrite rbind_ok.
  induction pws as [|pw pws IH]; cbn [map mapM].
  - reflexivity.
  - rewrite IH. reflexivity.
Qed.

Lemma map_snd_combine {A B} (l : list A) (l' : list B) :
  List.length l = List.length l' -> map snd (List.combine l l') = l'.
Proof.
  revert l'. induction l as [|a l IH]; intros [|b l'] H; simpl in *;
    try discriminate; [reflexivity|].
  rewrite IH by lia. reflexivity.
Qed.

(** The loop body, once the weights of the survivors are known. *)
Lemma frame_of_events_emits (W : Type) (weight_column : list (Event W) -> Result WeightArray)
    (events : list (Event W)) (ws : list float) :
  List.length ws = List.length (filter (passes_all_cuts num (W:=W)) events) ->
  (forall p,
     leading (filter (passes_all_cuts num (W:=W)) events) = ok p ->
     rbind (event_weights fields weight_column (filter (passes_all_cuts num (W:=W)) events)
              (map (fun q => photon_pt (fst q)) p))
           nominal_weights = ok (W1 ws)) ->
  emits_weights (frame_of_events num fields weight_column is_signal_flag events) ws.
Proof.
  intros Hlen Hw. unfold frame_of_events.
  rewrite (preselection_survivors num fields events photon_fields), rbind_ok.
  pose proof (survivors_have_two_photons events) as H2.
  set (s := filter (passes_all_cuts num (W:=W)) events) in *.
  destruct s as [|ev s'] eqn:Es.
  - destruct ws; [reflexivity | discriminate Hlen].
  - cbn [is_empty].
    destruct (leading_total H2) as [p [Hp Hlp]].
    rewrite Hp, rbind_ok.
    specialize (Hw p Hp).
    destruct (event_weights fields weight_column (ev :: s')
                (map (fun q => photon_pt (fst q)) p)) as [e|w0]; [discriminate Hw|].
    cbn [rbind] in Hw. cbn [rbind]. rewrite Hw, rbind_ok.
    rewrite Hlen, <- Hlp, Nat.eqb_refl.
    destruct ws as [|w ws']; [discriminate Hlen|].
    unfold emits_weights. eexists. split; [reflexivity|]. cbn [rows].
    split.
    + rewrite length_map, length_combine, Hlp, Hlen. apply Nat.min_id.
    + rewrite eventWeight_column, <- map_map, map_snd_combine; [reflexivity|].
      rewrite Hlp, Hlen. reflexivity.
Qed.

End EventWeights.

Lemma map_const_length {A B C} (c : C) (l : list A) (l' : list B) :
  List.length l = List.length l' -> map (fun _ => c) l = map (fun _ => c) l'.
Proof.
  revert l'. induction l as [|a l IH]; intros [|b l'] H; simpl in *;
    try discriminate; [reflexivity|].
  rewrite (IH l') by lia. reflexivity.
Qed.

(** With a sequence per event the loop body ends before a frame is built:
    without a survivor at the [continue] after the cuts, with one at the
    test on [type.content.length]. *)
Lemma weight_sequences_raise (num : Numerics) (fields : list string) (is_signal_flag : Z)
    (events : list (Event (list float))) :
  has_photon_fields fields = true ->
  has_field fields "mcEventWeight" = true ->
  frame_of_array num is_signal_flag (mkArray fields (NestedWeights events))
  = if is_empty (filter (passes_all_cuts num (W:=list float)) events)
    then ok None
    else raise (AttributeError "length").
Proof.
  intros Hf Hw.
  change (frame_of_array num is_signal_flag (mkArray fields (NestedWeights events)))
    with (frame_of_events num fields (fun evs' => ok (W2 (map mcEventWeight evs')))
            is_signal_flag events).
  unfold frame_of_events.
  rewrite (preselection_survivors num fields events Hf), rbind_ok.
  pose proof (survivors_have_two_photons num events) as H2.
  destruct (filter (passes_all_cuts num (W:=list float)) events) as [|ev s] eqn:Es;
    [reflexivity|].
  cbn [is_empty].
  destruct (leading_total H2) as [p [Hp _]].
  rewrite Hp, rbind_ok. unfold event_weights. rewrite Hw, rbind_ok.
  reflexivity.
Qed.

(** C8. On an array with the six photon fields: (1) with a weight per event,
    the [eventWeight] column of the frame a file contributes has one entry
    per surviving event, in order, the event's [mcEventWeight] itself;
    (2) without the [mcEventWeight] field, the entries are 1.0; (3) with a
    sequence per event the first entry is not taken: as soon as an event
    survives the cuts, the test on [event_weights.type.content.length],
    which comes before [event_weights[:,0]], raises [AttributeError], and
    the file contributes no frame. *)
Theorem event_weight_by_kind_of_branch
    (num : Numerics) (fields : list string) (is_signal_flag : Z) :
  has_photon_fields fields = true ->
  (forall events : list (Event float),
     has_field fields "mcEventWeight" = true ->
     emits_weights
       (frame_of_array num is_signal_flag (mkArray fields (FlatWeights events)))
       (map mcEventWeight (filter (passes_all_cuts num (W:=float)) events)))
  /\ (forall (W : Type) (weight_column : list (Event W) -> Result WeightArray)
             (events : list (Event W)),
        has_field fields "mcEventWeight" = false ->
        emits_weights
          (frame_of_events num fields weight_column is_signal_flag events)
          (map (fun _ => 1%float) (filter (passes_all_cuts num (W:=W)) events)))
  /\ (forall (events : list (Event (list float))) (ev : Event (list float)),
        has_field fields "mcEventWeight" = true ->
        In ev events ->
        passes_all_cuts num ev = true ->
        frame_of_array num is_signal_flag (mkArray fields (NestedWeights events))
        = raise (AttributeError "length")).
Proof.
  intros Hf. split; [|split].
  - intros events Hw.
    change (frame_of_array num is_signal_flag (mkArray fields (FlatWeights events)))
      with (frame_of_events num fields (fun evs' => ok (W1 (map mcEventWeight evs')))
              is_signal_flag events).
    apply (@frame_of_events_emits num fields is_signal_flag Hf).
    + apply length_map.
    + intros p _. unfold event_weights. rewrite Hw, rbind_ok. reflexivity.
  - intros W weight_column events Hw.
    apply (@frame_of_events_emits num fields is_signal_flag Hf).
    + apply length_map.
    + intros p Hp. unfold event_weights. rewrite Hw, rbind_ok.
      destruct (leading_total (survivors_have_two_photons num events)) as [p' [Hp' Hlen]].
      rewrite Hp in Hp'. injection Hp' as <-.
      rewrite map_map. cbn [nominal_weights].
      f_equal. f_equal. apply map_const_length. exact Hlen.
  - intros events ev Hw Hin Hpass.
    rewrite (@weight_sequences_raise num fields is_signal_flag events Hf Hw).
    assert (Hs : In ev (filter (passes_all_cuts num (W:=list float)) events))
      by (apply filter_In; split; assumption).
    destruct (filter (passes_all_cuts num (W:=list float)) events);
      [contradiction | reflexivity].
Qed.

Lemma event_weight_by_kind_of_branch_witness :
  emits_weights
    (frame_of_array example_numerics 1
       (mkArray branches_to_read_mc (FlatWeights example_events)))
    [1.5; 0.25]%float
  /\ emits_weights
       (frame_of_array example_numerics 1
          (mkArray photon_branches (NoWeightBranch example_events_unweighted)))
       [1]%float
  /\ frame_of_array example_numerics 0
       (mkArray branches_to_read_mc (NestedWeights example_events_nested))
     = raise (AttributeError "length").
Proof.
  split; [|split].
  - exact (proj1 (@event_weight_by_kind_of_branch example_numerics branches_to_read_mc 1
                    eq_refl) example_events eq_refl).
  - exact (proj1 (proj2 (@event_weight_by_kind_of_branch example_numerics
                           photon_branches 1 eq_refl))
             unit (fun _ => raise (AttributeError "mcEventWeight"))
             example_events_unweighted eq_refl).
  - exact (proj2 (proj2 (@event_weight_by_kind_of_branch example_numerics
                           branches_to_read_mc 0 eq_refl))
             example_events_nested
             (mkEvent [example_photon_1; example_photon_2] [1.5; 1.4; 1.6]%float)
             eq_refl (or_introl eq_refl) eq_refl).
Defined.

(** ** Files that cannot be read *)

Section FailedReads.

Variable num : Numerics.
Variable world : World.
Variable is_signal_flag : Z.
Variable tree : string.
Variable branches : list string.

(** The loop returns what the readable files contribute, in their order. *)
Lemma load_files_outcome (all_files : list string) (df_list : list DataFrame) :
  outcome (load_files num world is_signal_flag tree branches all_files df_list)
  = rbind (frames_of num is_signal_flag (loaded world tree branches all_files))
          (fun frames => ok (df_list ++ frames)).
Proof.
  revert df_list. induction all_files as [|f rest IH]; intros df_list.
  - cbn. rewrite app_nil_r. reflexivity.
  - cbn [load_files]. unfold loaded. cbn [flat_map]. fold (loaded world tree branches rest).
    destruct (read_events world f tree branches) as [e|events].
    + rewrite bind_print. cbn [outcome snd app]. apply IH.
    + cbn [app frames_of].
      destruct (len events =? 0)%nat.
      * rewrite bind_print. cbn [outcome snd]. apply IH.
      * destruct (frame_of_array num is_signal_flag events) as [e|[df|]].
        -- reflexivity.
        -- rewrite bind_lift_ok, IH, rbind_ok.
           destruct (frames_of num is_signal_flag (loaded world tree branches rest))
             as [e|frames]; [reflexivity|].
           cbn [rbind ok]. rewrite <- app_assoc. reflexivity.
        -- rewrite bind_lift_ok, IH, rbind_ok.
           destruct (frames_of num is_signal_flag (loaded world tree branches rest))
             as [e|frames]; reflexivity.
Qed.

(** A loop that runs to its end has printed the error of every file it
    could not read. *)
Lemma load_files_logs (all_files : list string) (df_list result : list DataFrame)
    (f : string) (e : Exception) :
  outcome (load_files num world is_signal_flag tree branches all_files df_list) = ok result ->
  In f all_files ->
  read_events world f tree branches = inl e ->
  In (Stdout (ErrorReadingFile f e))
     (effects (load_files num world is_signal_flag tree branches all_files df_list)).
Proof.
  revert df_list. induction all_files as [|g rest IH]; intros df_list Hok Hin Hread.
  - contradiction.
  - cbn [load_files] in *.
    destruct (read_events world g tree branches) as [e'|events] eqn:Hg.
    + rewrite bind_print in *. cbn [outcome effects fst snd] in *.
      destruct Hin as [->|Hin].
      * rewrite Hread in Hg. injection Hg as <-. left. reflexivity.
      * right. exact (IH df_list Hok Hin Hread).
    + assert (Hin' : In f rest).
      { destruct Hin as [->|Hin]; [|exact Hin]. rewrite Hread in Hg. discriminate Hg. }
      destruct (len events =? 0)%nat.
      * rewrite bind_print in *. cbn [outcome effects fst snd] in *.
        right. exact (IH df_list Hok Hin' Hread).
      * destruct (frame_of_array num is_signal_flag events) as [e'|[df|]].
        -- discriminate Hok.
        -- rewrite bind_lift_ok in *. exact (IH _ Hok Hin' Hread).
        -- rewrite bind_lift_ok in *. exact (IH _ Hok Hin' Hread).
Qed.

Lemma loaded_nothing (all_files : list string) :
  (forall f, In f all_files -> exists e, read_events world f tree branches = inl e) ->
  loaded world tree branches all_files = [].
Proof.
  induction all_files as [|f rest IH]; intros H; [reflexivity|].
  unfold loaded. cbn [flat_map]. fold (loaded world tree branches rest).
  destruct (H f (or_introl eq_refl)) as [e ->].
  apply IH. intros g Hg. apply H. right. exact Hg.
Qed.

End FailedReads.

(** C7. A file that cannot be read is logged and skipped, and only that file:
    the loop prints the error and goes on with the remaining files and the
    frames collected so far.  The table the loader returns is computed from
    the arrays of the files that could be read, in the order of the glob:
    the frames they contribute are concatenated and the rows with a missing
    value dropped.  When the loader returns, its rows are those rows, and the
    error of every file that could not be read has been printed.  A read
    failure never ends the call: if no file can be read, the loader returns
    the empty table. *)
Theorem failed_reads_are_skipped
    (num : Numerics) (world : World) (file_paths_pattern : string) (is_signal_flag : Z)
    (tree_name_param : string) (branches_param : list string) :
  let all_files := glob_glob world file_paths_pattern in
  let arrays := loaded world tree_name_param branches_param all_files in
  let call := load_and_preprocess_mc_for_mva num world file_paths_pattern is_signal_flag
                tree_name_param branches_param in
  (forall f e rest df_list,
     read_events world f tree_name_param branches_param = inl e ->
     load_files num world is_signal_flag tree_name_param branches_param (f :: rest) df_list
     = (Stdout (ErrorReadingFile f e)
          :: effects (load_files num world is_signal_flag tree_name_param branches_param
                        rest df_list),
        outcome (load_files num world is_signal_flag tree_name_param branches_param
                   rest df_list)))
  /\ outcome call
     = rbind (frames_of num is_signal_flag arrays)
             (fun frames =>
                ok (if is_empty frames then pd_DataFrame else dropna (pd_concat frames)))
  /\ (forall df,
        outcome call = ok df ->
        exists frames,
          frames_of num is_signal_flag arrays = ok frames
          /\ rows df = filter (fun row => negb (existsb isna row)) (flat_map rows frames))
  /\ (forall df f e,
        outcome call = ok df ->
        In f all_files ->
        read_events world f tree_name_param branches_param = inl e ->
        In (Stdout (ErrorReadingFile f e)) (effects call))
  /\ ((forall f, In f all_files ->
                 exists e, read_events world f tree_name_param branches_param = inl e) ->
      outcome call = ok pd_DataFrame).
Proof.
  intros all_files arrays call.
  pose proof (load_files_outcome num world is_signal_flag tree_name_param
                branches_param all_files []) as Hloop.
  fold arrays in Hloop. cbn [app] in Hloop.
  assert (Hout : outcome call
                 = rbind (frames_of num is_signal_flag arrays)
                     (fun frames =>
                        ok (if is_empty frames then pd_DataFrame
                            else dropna (pd_concat frames)))).
  { unfold call, load_and_preprocess_mc_for_mva. fold all_files.
    destruct (is_empty all_files) eqn:Efiles.
    - apply is_empty_nil in Efiles. unfold arrays. rewrite Efiles. reflexivity.
    - rewrite bind_print. cbn [outcome snd].
      destruct (frames_of num is_signal_flag arrays) as [e|frames].
      + rewrite (@bind_raise _ _ _ _ e Hloop). reflexivity.
      + rewrite (@bind_ok _ _ _ _ frames Hloop). cbn [rbind ok outcome snd].
        destruct (is_empty frames); reflexivity. }
  split.
  { intros f e rest df_list Hread. cbn [load_files]. rewrite Hread.
    rewrite bind_print. reflexivity. }
  split; [exact Hout|]. split; [|split].
  - intros df Hdf. rewrite Hout in Hdf.
    destruct (frames_of num is_signal_flag arrays) as [e|frames]; [discriminate Hdf|].
    exists frames. split; [reflexivity|].
    cbn [rbind ok] in Hdf. injection Hdf as <-.
    destruct frames as [|df0 frames]; reflexivity.
  - intros df f e Hdf Hin Hread. rewrite Hout in Hdf.
    destruct (frames_of num is_signal_flag arrays) as [e'|frames]; [discriminate Hdf|].
    pose proof (@load_files_logs num world is_signal_flag tree_name_param branches_param
                  all_files [] frames f e Hloop Hin Hread) as Hlog.
    unfold call, load_and_preprocess_mc_for_mva. fold all_files.
    destruct (is_empty all_files) eqn:Efiles.
    + apply is_empty_nil in Efiles. rewrite Efiles in Hin. contradiction.
    + rewrite bind_print. cbn [effects fst]. right.
      rewrite (@bind_ok _ _ _ _ frames Hloop). cbn [fst].
      apply in_or_app. left. exact Hlog.
  - intros Hall. rewrite Hout. unfold arrays.
    rewrite (loaded_nothing world tree_name_param branches_param all_files Hall).
    reflexivity.
Qed.

(** On the small file system: the first signal file cannot be opened and the
    third has no weight branch; both are logged and skipped, and the table
    holds the two surviving events of the second. *)
Example skipped_files_on_example_world :
  let call := load_and_preprocess_mc_for_mva example_numerics example_world
                (mc_signal_hyy_file_pattern example_world) 1 tree_name
                branches_to_read_mc in
  List.length (loaded example_world tree_name branches_to_read_mc
                 (glob_glob example_world (mc_signal_hyy_file_pattern example_world)))
  = 1%nat
  /\ option_map shape (match outcome call with inr df => Some df | inl _ => None end)
     = Some (2, 14)%nat
  /\ filter (fun e => match e with Stdout (ErrorReadingFile _ _) => true | _ => false end)
       (effects call)
     = [ Stdout (ErrorReadingFile "/work/data/DAOD_PHYSLITE.38191712._000001.pool.root.1"
                   (FileNotFoundError
                      "/work/data/DAOD_PHYSLITE.38191712._000001.pool.root.1:analysis"));
         Stdout (ErrorReadingFile "/work/data/DAOD_PHYSLITE.38191712._000003.pool.root.1"
                   (KeyInFileError "mcEventWeight")) ].
Proof. repeat split; vm_compute; reflexivity. Qed.

(** ** A tree without the weight branch *)

Lemma tree_arrays_fields (tree : Tree) (branches_param : list string) (events : Array) :
  tree_arrays tree branches_param = ok events -> fields events = branches_param.
Proof.
  unfold tree_arrays.
  destruct (find (fun b => negb (has_field (tree_keys tree) b)) branches_param);
    [discriminate|].
  intros H. injection H as <-. reflexivity.
Qed.

Lemma tree_arrays_missing (tree : Tree) (branches_param : list string) (b : string) :
  In b branches_param ->
  has_field (tree_keys tree) b = false ->
  exists k, tree_arrays tree branches_param = raise (KeyInFileError k).
Proof.
  intros Hin Hb. unfold tree_arrays.
  destruct (find (fun b => negb (has_field (tree_keys tree) b)) branches_param)
    as [k|] eqn:E.
  - exists k. reflexivity.
  - exfalso. pose proof (find_none _ _ E b Hin) as H. cbv beta in H.
    rewrite Hb in H. discriminate H.
Qed.

(** C10. [branches_to_read_mc] always asks for [mcEventWeight].  So a file
    whose tree has no such branch makes the read raise [KeyInFileError]; in
    the loop the file is logged and skipped, and the loop goes on with the
    files after it and the frames before it, unchanged.  Conversely every
    array read with [branches_to_read_mc] has the field [mcEventWeight], so
    on it [event_weights] is the branch, never the ones of the default. *)
Theorem missing_weight_branch_skips_the_file
    (num : Numerics) (world : World) (file_path : string) (tree : Tree) :
  uproot_open world (file_path ++ ":" ++ tree_name)%string = ok tree ->
  has_field (tree_keys tree) "mcEventWeight" = false ->
  (exists k,
     read_events world file_path tree_name branches_to_read_mc = raise (KeyInFileError k)
     /\ forall is_signal_flag rest df_list,
          load_files num world is_signal_flag tree_name branches_to_read_mc
            (file_path :: rest) df_list
          = (Stdout (ErrorReadingFile file_path (KeyInFileError k))
               :: effects (load_files num world is_signal_flag tree_name
                             branches_to_read_mc rest df_list),
             outcome (load_files num world is_signal_flag tree_name
                        branches_to_read_mc rest df_list)))
  /\ (forall f events,
        read_events world f tree_name branches_to_read_mc = ok events ->
        has_field (fields events) "mcEventWeight" = true
        /\ forall (W : Type) (weight_column : list (Event W) -> Result WeightArray)
                  (survivors : list (Event W)) (ph1_pt : list float),
             event_weights (fields events) weight_column survivors ph1_pt
             = weight_column survivors).
Proof.
  intros Hopen Hkey. split.
  - destruct (@tree_arrays_missing tree branches_to_read_mc "mcEventWeight")
      as [k Hk]; [cbn; tauto | exact Hkey |].
    assert (Hread : read_events world file_path tree_name branches_to_read_mc
                    = raise (KeyInFileError k)).
    { unfold read_events. rewrite Hopen. exact Hk. }
    exists k. split; [exact Hread|].
    intros is_signal_flag rest df_list. cbn [load_files].
    rewrite Hread. unfold raise. rewrite bind_print. reflexivity.
  - intros f events Hread.
    assert (Hfields : fields events = branches_to_read_mc).
    { unfold read_events in Hread.
      destruct (uproot_open world (f ++ ":" ++ tree_name)%string) as [e|t];
        [discriminate Hread|].
      exact (tree_arrays_fields _ _ Hread). }
    rewrite Hfields. split; [reflexivity|].
    intros W weight_column survivors ph1_pt. reflexivity.
Qed.

Lemma missing_weight_branch_skips_the_file_witness :
  read_events example_world "/work/data/DAOD_PHYSLITE.38191712._000003.pool.root.1"
    tree_name branches_to_read_mc
  = raise (KeyInFileError "mcEventWeight")
  /\ exists k,
       load_files example_numerics example_world 1 tree_name branches_to_read_mc
         ["/work/data/DAOD_PHYSLITE.38191712._000003.pool.root.1"] []
       = ([Stdout (ErrorReadingFile "/work/data/DAOD_PHYSLITE.38191712._000003.pool.root.1"
                     (KeyInFileError k))],
          ok []).
Proof.
  split; [reflexivity|].
  destruct (@missing_weight_branch_skips_the_file example_numerics example_world
              "/work/data/DAOD_PHYSLITE.38191712._000003.pool.root.1"
              (mkTree photon_branches (NoWeightBranch example_events_unweighted))
              eq_refl eq_refl) as [[k [_ Hloop]] _].
  exists k. rewrite (Hloop 1%Z [] []). reflexivity.
Defined.

(** * Further properties of the notebook *)

(** ** The rows the loader returns *)

Section LoaderRows.

Variable num : Numerics.
Variable is_signal_flag : Z.

Lemma leading_pairs (W : Type) (events : list (Event W)) (p : list (Photon * Photon)) :
  leading events = ok p ->
  Forall2 (fun ev q => leading_pair ev = ok q) events p.
Proof.
  unfold leading. revert p. induction events as [|ev events IH]; intros p H; cbn [mapM] in H.
  - injection H as <-. constructor.
  - destruct (leading_pair ev) as [e|q] eqn:Hq; [discriminate H|].
    rewrite rbind_ok in H.
    destruct (mapM leading_pair events) as [e|p'] eqn:Hp'; [discriminate H|].
    rewrite rbind_ok in H. injection H as <-.
    constructor; [exact Hq | apply IH; reflexivity].
Qed.

Lemma survivor_pairs (W : Type) (events : list (Event W)) (p : list (Photon * Photon)) :
  leading (filter (passes_all_cuts num (W:=W)) events) = ok p ->
  Forall (fun q => tight_id q = true /\ pt_thresholds q = true /\ isolation q = true
                   /\ eta_transition q = true /\ mass_isolation num q = true) p.
Proof.
  intros H. apply leading_pairs in H.
  assert (Hall : Forall (fun ev => passes_all_cuts num ev = true)
                   (filter (passes_all_cuts num (W:=W)) events)).
  { apply Forall_forall. intros ev Hin. apply filter_In in Hin. tauto. }
  induction H as [|ev q s p Hq _ IH]; [constructor|].
  inversion Hall as [|? ? Hev Hrest]; subst.
  constructor; [|exact (IH Hrest)].
  unfold passes_all_cuts, cuts in Hev. cbn [forallb] in Hev.
  unfold on_leading in Hev. rewrite Hq in Hev.
  repeat rewrite andb_true_iff in Hev. tauto.
Qed.

Lemma frame_of_events_rows (W : Type) (fields : list string)
    (weight_column : list (Event W) -> Result WeightArray)
    (events : list (Event W)) (df : DataFrame) :
  has_photon_fields fields = true ->
  frame_of_events num fields weight_column is_signal_flag events = ok (Some df) ->
  columns df = df_dict_keys
  /\ Forall (survivor_row num is_signal_flag) (rows df).
Proof.
  intros Hf H. unfold frame_of_events in H.
  rewrite (preselection_survivors num fields events Hf), rbind_ok in H.
  destruct (is_empty (filter (passes_all_cuts num (W:=W)) events)); [discriminate H|].
  destruct (leading (filter (passes_all_cuts num (W:=W)) events)) as [e|p] eqn:Hp;
    [discriminate H|].
  rewrite rbind_ok in H.
  pose proof (survivor_pairs events Hp) as Hcuts.
  destruct (event_weights fields weight_column
              (filter (passes_all_cuts num (W:=W)) events)
              (map (fun q => photon_pt (fst q)) p)) as [e|w0]; [discriminate H|].
  rewrite rbind_ok in H.
  destruct (nominal_weights w0) as [e|[values|values]]; try discriminate H.
  rewrite rbind_ok in H.
  destruct (List.length values =? List.length p)%nat; [|discriminate H].
  injection H as <-. cbn [columns rows]. split; [reflexivity|].
  apply Forall_forall. intros row Hin. apply in_map_iff in Hin.
  destruct Hin as [[q w] [<- Hin]]. apply in_combine_l in Hin.
  rewrite Forall_forall in Hcuts. specialize (Hcuts q Hin).
  exists q, w. cbn [fst snd]. tauto.
Qed.

Lemma frame_of_array_rows (events : Array) (df : DataFrame) :
  has_photon_fields (fields events) = true ->
  frame_of_array num is_signal_flag events = ok (Some df) ->
  columns df = df_dict_keys
  /\ Forall (survivor_row num is_signal_flag) (rows df).
Proof.
  intros Hf H. unfold frame_of_array in H.
  destruct (entries events) as [evs|evs|evs];
    eapply frame_of_events_rows; eassumption.
Qed.

Lemma frames_of_rows (arrays : list Array) (frames : list DataFrame) :
  Forall (fun a => has_photon_fields (fields a) = true) arrays ->
  frames_of num is_signal_flag arrays = ok frames ->
  Forall (fun df => columns df = df_dict_keys
                    /\ Forall (survivor_row num is_signal_flag) (rows df)) frames.
Proof.
  intros Hall. revert frames.
  induction Hall as [|a arrays Ha _ IH]; intros frames H; cbn [frames_of] in H.
  - injection H as <-. constructor.
  - destruct (len a =? 0)%nat; [exact (IH frames H)|].
    destruct (frame_of_array num is_signal_flag a) as [e|frame] eqn:Hframe;
      [discriminate H|].
    rewrite rbind_ok in H.
    destruct (frames_of num is_signal_flag arrays) as [e|frames'];
      [discriminate H|].
    rewrite rbind_ok in H. injection H as <-.
    destruct frame as [df|]; [|exact (IH frames' eq_refl)].
    constructor; [eapply frame_of_array_rows; eassumption | exact (IH frames' eq_refl)].
Qed.

Lemma survivor_row_within_cuts (row : list Cell) :
  survivor_row num is_signal_flag row -> row_within_cuts is_signal_flag row = true.
Proof.
  intros (p & w & -> & _ & _ & Hiso & Heta & Hmass).
  unfold feature_row, row_within_cuts. cbv zeta.
  unfold isolation in Hiso. unfold eta_transition in Heta. unfold mass_isolation in Hmass.
  cbv zeta in Hmass.
  apply andb_true_iff in Hiso, Heta, Hmass.
  destruct Hiso as [-> ->], Heta as [-> ->], Hmass as [-> ->].
  rewrite Z.eqb_refl. reflexivity.
Qed.

End LoaderRows.

Lemma loaded_fields (world : World) (tree : string) (branches : list string)
    (all_files : list string) :
  Forall (fun a => fields a = branches) (loaded world tree branches all_files).
Proof.
  induction all_files as [|f rest IH]; [constructor|].
  unfold loaded. cbn [flat_map]. fold (loaded world tree branches rest).
  unfold read_events at 1.
  destruct (uproot_open world (f ++ ":" ++ tree)%string) as [e|t]; cbn [rbind app];
    [exact IH|].
  destruct (tree_arrays t branches) as [e|a] eqn:Ha; cbn [app]; [exact IH|].
  constructor; [exact (tree_arrays_fields _ _ Ha) | exact IH].
Qed.

(** X1. Whatever the files hold, the table the loader returns (for a branch
    list with the six photon branches) is either [pd.DataFrame()] or has the
    fourteen columns of [df_dict]; every row has fourteen cells, none of them
    missing, carries the label the loader was called with, and shows the
    cuts: both normalized pt above 0.35, both eta outside the transition
    region, both normalized isolations below 0.055. *)
Theorem loader_rows_are_within_cuts
    (num : Numerics) (world : World) (file_paths_pattern : string) (is_signal_flag : Z)
    (tree_name_param : string) (branches_param : list string) (df : DataFrame) :
  has_photon_fields branches_param = true ->
  outcome (load_and_preprocess_mc_for_mva num world file_paths_pattern is_signal_flag
             tree_name_param branches_param) = ok df ->
  (df = pd_DataFrame \/ columns df = df_dict_keys)
  /\ forallb (fun row => row_within_cuts is_signal_flag row && negb (existsb isna row))
       (rows df) = true
  /\ Forall (fun row => List.length row = 14%nat) (rows df).
Proof.
  intros Hf Hdf.
  pose proof (load_files_outcome num world is_signal_flag tree_name_param branches_param
                (glob_glob world file_paths_pattern) []) as Hloop.
  cbn [app] in Hloop.
  assert (Harrays : Forall (fun a => has_photon_fields (fields a) = true)
                      (loaded world tree_name_param branches_param
                         (glob_glob world file_paths_pattern))).
  { eapply Forall_impl; [|apply loaded_fields]. cbv beta. intros a ->. exact Hf. }
  destruct (frames_of num is_signal_flag
              (loaded world tree_name_param branches_param
                 (glob_glob world file_paths_pattern))) as [e|frames] eqn:Hframes.
  { exfalso. cbn [rbind] in Hloop. unfold load_and_preprocess_mc_for_mva in Hdf.
    destruct (is_empty (glob_glob world file_paths_pattern)) eqn:E.
    - apply is_empty_nil in E. rewrite E in Hframes. discriminate Hframes.
    - rewrite bind_print in Hdf. cbn [outcome snd] in Hdf.
      rewrite (@bind_raise _ _ _ _ e Hloop) in Hdf. discriminate Hdf. }
  cbn [rbind] in Hloop.
  pose proof (@frames_of_rows num is_signal_flag _ _ Harrays Hframes) as Hrows.
  assert (Hresult : df = if is_empty frames then pd_DataFrame
                         else dropna (pd_concat frames)).
  { unfold load_and_preprocess_mc_for_mva in Hdf.
    destruct (is_empty (glob_glob world file_paths_pattern)) eqn:E.
    - apply is_empty_nil in E. rewrite E in Hframes. injection Hframes as <-.
      injection Hdf as <-. reflexivity.
    - rewrite bind_print in Hdf. cbn [outcome snd] in Hdf.
      rewrite (@bind_ok _ _ _ _ frames Hloop) in Hdf. cbn [outcome snd] in Hdf.
      destruct (is_empty frames); injection Hdf as <-; reflexivity. }
  destruct frames as [|df0 frames]; cbn [is_empty] in Hresult; subst df.
  - split; [left; reflexivity|]. split; [reflexivity | constructor].
  - assert (Hflat : Forall (survivor_row num is_signal_flag)
                      (flat_map rows (df0 :: frames))).
    { apply Forall_forall. intros row Hin. apply in_flat_map in Hin.
      destruct Hin as [dfi [Hdfi Hin]].
      rewrite Forall_forall in Hrows. destruct (Hrows dfi Hdfi) as [_ Hi].
      rewrite Forall_forall in Hi. exact (Hi row Hin). }
    split; [|split].
    + right. inversion Hrows as [|? ? [Hc _] _]; subst. exact Hc.
    + cbn [dropna pd_concat rows]. apply forallb_forall. intros row Hin.
      apply filter_In in Hin. destruct Hin as [Hin Hna].
      rewrite Forall_forall in Hflat.
      rewrite (survivor_row_within_cuts (Hflat row Hin)), Hna. reflexivity.
    + cbn [dropna pd_concat rows]. apply Forall_forall. intros row Hin.
      apply filter_In in Hin. destruct Hin as [Hin _].
      rewrite Forall_forall in Hflat.
      destruct (Hflat row Hin) as (p & w & -> & _). reflexivity.
Qed.

Lemma loader_rows_are_within_cuts_witness :
  match outcome (load_and_preprocess_mc_for_mva example_numerics example_world
                   (mc_signal_hyy_file_pattern example_world) 1 tree_name
                   branches_to_read_mc) with
  | inr df =>
      columns df = df_dict_keys
      /\ List.length (rows df) = 2%nat
      /\ forallb (fun row => row_within_cuts 1 row && negb (existsb isna row)) (rows df)
         = true
  | inl _ => False
  end.
Proof.
  destruct (outcome (load_and_preprocess_mc_for_mva example_numerics example_world
                       (mc_signal_hyy_file_pattern example_world) 1 tree_name
                       branches_to_read_mc)) as [e|df] eqn:Hdf;
    [vm_compute in Hdf; discriminate Hdf|].
  destruct (@loader_rows_are_within_cuts example_numerics example_world
              (mc_signal_hyy_file_pattern example_world) 1 tree_name
              branches_to_read_mc df eq_refl Hdf) as [_ [Hcuts _]].
  vm_compute in Hdf. injection Hdf as <-.
  split; [reflexivity|]. split; [reflexivity | exact Hcuts].
Defined.

(** ** Features and target of a complete table *)

Lemma cells_of_row (row : list Cell) :
  List.length row = 14%nat ->
  mapM (cell_at row) (seq 0 10) = ok (firstn 10 row)
  /\ cell_at row 13 = ok (nth 13 row (CInt 0))
  /\ cell_at row 12 = ok (nth 12 row (CInt 0)).
Proof.
  intros H.
  do 15 (destruct row as [|? row]; try discriminate H).
  repeat split.
Qed.

Lemma mapM_pointwise {A B} (f : A -> Result B) (g : A -> B) (l : list A) :
  Forall (fun a => f a = ok (g a)) l -> mapM f l = ok (map g l).
Proof.
  induction 1 as [|a l Ha _ IH]; [reflexivity|].
  cbn [mapM map]. rewrite Ha, rbind_ok, IH. reflexivity.
Qed.

(** X2. On a table that is not empty, has the columns of [df_dict] and
    fourteen cells in every row (as the loader's tables have), "Define
    Features" finds no feature missing and does not raise: [X] has exactly
    the columns of [mva_features_list], in that order, and the first ten
    cells of every row; [y] is the [isSignal] cell and [weights] the
    [eventWeight] cell of every row, so the three have one entry per row and
    [m_yy] and [pt_yy] are in none of them. *)
Theorem define_X_y_on_complete_table (df_combined_mc : DataFrame) :
  empty df_combined_mc = false ->
  columns df_combined_mc = df_dict_keys ->
  Forall (fun row => List.length row = 14%nat) (rows df_combined_mc) ->
  missing_features df_combined_mc = []
  /\ define_X_y df_combined_mc
     = ([ Stdout (FeaturesDefined (List.length (rows df_combined_mc), 10%nat)
                    (List.length (rows df_combined_mc))
                    (List.length (rows df_combined_mc))) ],
        ok (mkDataFrame mva_features_list (map (firstn 10) (rows df_combined_mc)),
            map (fun row => nth 13 row (CInt 0)) (rows df_combined_mc),
            map (fun row => nth 12 row (CInt 0)) (rows df_combined_mc))).
Proof.
  destruct df_combined_mc as [cols rs]. cbn [columns rows].
  intros Hne -> Hrows.
  assert (Hmiss : missing_features (mkDataFrame df_dict_keys rs) = []) by reflexivity.
  split; [exact Hmiss|].
  assert (HX : get_columns (mkDataFrame df_dict_keys rs) mva_features_list
               = ok (mkDataFrame mva_features_list (map (firstn 10) rs))).
  { unfold get_columns.
    change (mapM (column_position (mkDataFrame df_dict_keys rs)) mva_features_list)
      with (ok (seq 0 10)).
    rewrite rbind_ok. cbn [rows].
    rewrite (mapM_pointwise (fun row => mapM (cell_at row) (seq 0 10)) (firstn 10) (l := rs)).
    - reflexivity.
    - eapply Forall_impl; [|exact Hrows]. intros row Hrow.
      exact (proj1 (cells_of_row row Hrow)). }
  assert (Hy : get_column (mkDataFrame df_dict_keys rs) "isSignal"
               = ok (map (fun row => nth 13 row (CInt 0)) rs)).
  { unfold get_column.
    change (column_position (mkDataFrame df_dict_keys rs) "isSignal") with (ok 13%nat).
    rewrite rbind_ok. cbn [rows].
    apply (mapM_pointwise (fun row => cell_at row 13) (fun row => nth 13 row (CInt 0))).
    eapply Forall_impl; [|exact Hrows]. intros row Hrow.
    exact (proj1 (proj2 (cells_of_row row Hrow))). }
  assert (Hw : get_column (mkDataFrame df_dict_keys rs) "eventWeight"
               = ok (map (fun row => nth 12 row (CInt 0)) rs)).
  { unfold get_column.
    change (column_position (mkDataFrame df_dict_keys rs) "eventWeight") with (ok 12%nat).
    rewrite rbind_ok. cbn [rows].
    apply (mapM_pointwise (fun row => cell_at row 12) (fun row => nth 12 row (CInt 0))).
    eapply Forall_impl; [|exact Hrows]. intros row Hrow.
    exact (proj2 (proj2 (cells_of_row row Hrow))). }
  unfold define_X_y. rewrite Hne, Hmiss. cbn [negb is_empty].
  rewrite HX, bind_lift_ok, Hy, bind_lift_ok, Hw, bind_lift_ok.
  unfold shape. cbn [rows columns]. rewrite !length_map. reflexivity.
Qed.

Lemma define_X_y_on_complete_table_witness :
  missing_features example_signal_only = []
  /\ outcome (define_X_y example_signal_only)
     = ok (mkDataFrame mva_features_list (map (firstn 10) (rows example_signal_only)),
           [CInt 1; CInt 1; CInt 1; CInt 1],
           map CFloat [1.5; 0.25; 1.5; 0.25]%float).
Proof.
  destruct (@define_X_y_on_complete_table example_signal_only) as [Hmiss Hdef].
  - reflexivity.
  - reflexivity.
  - repeat constructor.
  - split; [exact Hmiss|]. rewrite Hdef. reflexivity.
Defined.

(** ** Assembling the dataset *)

Lemma take_in_range {A} (d : A) (l : list A) (indices : list nat) :
  Forall (fun i => (i < List.length l)%nat) indices ->
  take l indices = ok (map (fun i => nth i l d) indices).
Proof.
  unfold take. intros H.
  apply (mapM_pointwise _ (fun i => nth i l d)).
  eapply Forall_impl; [|exact H]. intros i Hi. cbv beta in *.
  destruct (nth_error l i) as [a|] eqn:E.
  - rewrite (nth_error_nth _ _ d E). reflexivity.
  - apply nth_error_None in E. lia.
Qed.

Lemma nth_over_seq {A} (d : A) (l : list A) :
  map (fun i => nth i l d) (seq 0 (List.length l)) = l.
Proof.
  induction l as [|a l IH]; [reflexivity|].
  cbn [List.length seq map nth]. rewrite <- seq_shift, map_map. cbn [nth].
  rewrite IH. reflexivity.
Qed.

(** Indexing with a rearrangement of all positions rearranges the list. *)
Lemma take_permutation {A} (l : list A) (order : list nat) :
  Permutation order (seq 0 (List.length l)) ->
  exists l', take l order = ok l' /\ Permutation l' l.
Proof.
  intros Hperm. destruct l as [|d l0] eqn:El.
  - apply Permutation_sym, Permutation_nil in Hperm. subst order.
    exists []. split; [reflexivity | constructor].
  - rewrite <- El in *. clear El l0.
    exists (map (fun i => nth i l d) order). split.
    + apply take_in_range. apply Forall_forall. intros i Hi.
      apply (Permutation_in _ Hperm) in Hi. apply in_seq in Hi. lia.
    + eapply Permutation_trans; [apply Permutation_map; exact Hperm|].
      rewrite nth_over_seq. apply Permutation_refl.
Qed.

(** X3. The assembled dataset.  With both tables non-empty the rows of
    signal and background are concatenated and reordered by the seeded
    sample: when that order is a rearrangement of all positions, the call
    does not raise, the columns are those of the signal table and the rows
    are the rows of both tables, each as often as before.  With exactly one
    table empty, the other one is the dataset, unchanged and not shuffled,
    after a warning. *)
Theorem combine_mc_keeps_every_row
    (Scaler Model : Type) (lib : Libraries Scaler Model)
    (df_signal_mc df_background_mc : DataFrame) :
  (empty df_signal_mc = false ->
   empty df_background_mc = false ->
   Permutation
     (sample_order lib (List.length (rows df_signal_mc ++ rows df_background_mc)))
     (seq 0 (List.length (rows df_signal_mc ++ rows df_background_mc))) ->
   exists df,
     outcome (combine_mc lib df_signal_mc df_background_mc) = ok df
     /\ columns df = columns df_signal_mc
     /\ Permutation (rows df) (rows df_signal_mc ++ rows df_background_mc))
  /\ (empty df_signal_mc = false ->
      empty df_background_mc = true ->
      combine_mc lib df_signal_mc df_background_mc
      = ([Stdout WarningBackgroundEmpty], ok df_signal_mc))
  /\ (empty df_signal_mc = true ->
      empty df_background_mc = false ->
      combine_mc lib df_signal_mc df_background_mc
      = ([Stdout WarningSignalEmpty], ok df_background_mc)).
Proof.
  split; [|split].
  - intros Hs Hb Hperm. unfold combine_mc. rewrite Hs, Hb. cbn [negb andb].
    cbv zeta. cbn [pd_concat flat_map columns rows]. rewrite app_nil_r.
    destruct (take_permutation _ Hperm) as [l' [Htake Hl']].
    rewrite bind_print, Htake, bind_lift_ok, bind_print.
    exists (mkDataFrame (columns df_signal_mc) l').
    cbn [outcome snd ret columns rows]. repeat split. exact Hl'.
  - intros Hs Hb. unfold combine_mc. rewrite Hs, Hb. reflexivity.
  - intros Hs Hb. unfold combine_mc. rewrite Hs, Hb. reflexivity.
Qed.

(** On the stand-in shuffle (the reversed order) and two tables of four rows. *)
Example combine_mc_on_example :
  match outcome (combine_mc example_libraries example_signal_only example_signal_only) with
  | inr df =>
      columns df = df_dict_keys
      /\ rows df = rev (rows example_signal_only ++ rows example_signal_only)
  | inl _ => False
  end.
Proof. vm_compute. split; reflexivity. Qed.

(** ** When the split is stratified *)

Section Stratify.

Lemma int_eqb (c c' : Cell) : is_int c -> is_int c' -> cell_eqb c c' = true -> c = c'.
Proof.
  intros [m ->] [n ->] H. cbn in H. apply Z.eqb_eq in H. subst. reflexivity.
Qed.

Lemma distinct_keeps (l : list Cell) :
  Forall is_int l -> forall c, In c l -> In c (distinct l).
Proof.
  induction 1 as [|a l Ha Hl IH]; intros c Hin; [contradiction|].
  cbn [distinct].
  destruct (existsb (cell_eqb a) l) eqn:E.
  - destruct Hin as [<-|Hin]; [|exact (IH c Hin)].
    apply existsb_exists in E. destruct E as [x [Hx Hax]].
    rewrite Forall_forall in Hl.
    rewrite (int_eqb Ha (Hl x Hx) Hax). apply IH. exact Hx.
  - destruct Hin as [<-|Hin]; [left; reflexivity | right; exact (IH c Hin)].
Qed.

Lemma distinct_of_constant (l : list Cell) (a : Z) :
  (forall c, In c l -> c = CInt a) -> (List.length (distinct l) <= 1)%nat.
Proof.
  induction l as [|c l IH]; intros H; [cbn; lia|].
  cbn [distinct].
  assert (Hl : forall c', In c' l -> c' = CInt a) by (intros c' Hc'; apply H; right; exact Hc').
  destruct l as [|c' l'].
  - cbn. lia.
  - rewrite (H c (or_introl eq_refl)), (Hl c' (or_introl eq_refl)).
    cbn [existsb cell_eqb]. rewrite Z.eqb_refl. cbn [orb].
    rewrite <- (Hl c' (or_introl eq_refl)). exact (IH Hl).
Qed.

Lemma two_elements {A} (x y : A) (l : list A) :
  In x l -> In y l -> x <> y -> (2 <= List.length l)%nat.
Proof.
  destruct l as [|a [|b l]]; cbn; intros Hx Hy Hxy; try lia; try contradiction.
  destruct Hx as [<-|[]], Hy as [<-|[]]. contradiction.
Qed.

Lemma filter_notna_int (l : list Cell) :
  Forall is_int l -> filter (fun c => negb (isna c)) l = l.
Proof.
  induction 1 as [|c l [n ->] _ IH]; [reflexivity|].
  cbn [filter isna negb]. rewrite IH. reflexivity.
Qed.

End Stratify.

(** X4. For a label column of integers, the split is stratified exactly when
    two different labels occur: then [stratify] is the label column itself;
    when every label is the same, [stratify] is [None]. *)
Theorem stratified_iff_two_labels (y : list Cell) :
  Forall is_int y ->
  ((exists a b, a <> b /\ In (CInt a) y /\ In (CInt b) y) ->
   stratify_argument y = Some y)
  /\ ((exists a, forall c, In c y -> c = CInt a) ->
      stratify_argument y = None).
Proof.
  intros Hint. unfold stratify_argument, nunique.
  rewrite (filter_notna_int Hint). split.
  - intros (a & b & Hab & Ha & Hb).
    assert (H2 : (2 <= List.length (distinct y))%nat).
    { apply (two_elements (x := CInt a) (y := CInt b)).
      - exact (distinct_keeps Hint _ Ha).
      - exact (distinct_keeps Hint _ Hb).
      - intros E. injection E as E. exact (Hab E). }
    destruct (Nat.ltb_spec 1 (List.length (distinct y))); [reflexivity | lia].
  - intros [a Ha]. pose proof (distinct_of_constant y Ha) as H1.
    destruct (Nat.ltb_spec 1 (List.length (distinct y))); [lia | reflexivity].
Qed.

Lemma stratified_iff_two_labels_witness :
  stratify_argument example_y = Some example_y
  /\ stratify_argument [CInt 1; CInt 1; CInt 1; CInt 1] = None.
Proof.
  split.
  - apply (proj1 (@stratified_iff_two_labels example_y
                    ltac:(repeat constructor; eexists; reflexivity))).
    exists 1%Z, 0%Z. split; [discriminate|]. split; cbn; tauto.
  - apply (proj2 (@stratified_iff_two_labels [CInt 1; CInt 1; CInt 1; CInt 1]
                    ltac:(repeat constructor; eexists; reflexivity))).
    exists 1%Z. intros c Hc. cbn in Hc. intuition congruence.
Defined.

(** ** Sample weights and the fit *)

(** X5. The event weights take no part in the fit.  Two runs of the
    split-and-scale cell on the same features and labels with different
    weights leave the same scaler, the same scaled partitions and the same
    labels, and the training cell then does the same on both: the same
    calls, the same output and the same classifier. *)
Theorem weights_do_not_reach_the_fit
    (Scaler Model : Type) (lib : Libraries Scaler Model)
    (X : DataFrame) (y weights weights' : list Cell) (d d' : SplitData Scaler) :
  empty X = false ->
  outcome (split_and_scale lib X y weights) = ok d ->
  outcome (split_and_scale lib X y weights') = ok d' ->
  scaler d = scaler d'
  /\ X_train_scaled d = X_train_scaled d'
  /\ X_test_scaled d = X_test_scaled d'
  /\ y_train d = y_train d'
  /\ y_test d = y_test d'
  /\ train lib d = train lib d'.
Proof.
  intros Hne Hd Hd'.
  destruct (split_and_scale_returned lib X y weights Hne Hd)
    as (p & X_train & X_test & s & Hp & HXtr & HXte & Hytr & Hyte & _ & _
        & Hfit & Htr & Hte & Hs).
  destruct (split_and_scale_returned lib X y weights' Hne Hd')
    as (p' & X_train' & X_test' & s' & Hp' & HXtr' & HXte' & Hytr' & Hyte' & _ & _
        & Hfit' & Htr' & Hte' & Hs').
  rewrite Hp in Hp'. injection Hp' as <-.
  rewrite HXtr in HXtr'. injection HXtr' as <-.
  rewrite HXte in HXte'. injection HXte' as <-.
  rewrite Hfit in Hfit'. injection Hfit' as <-.
  rewrite Htr in Htr'. injection Htr' as E1.
  rewrite Hte in Hte'. injection Hte' as E2.
  rewrite Hytr in Hytr'. injection Hytr' as E3.
  rewrite Hyte in Hyte'. injection Hyte' as E4.
  repeat split; try assumption.
  - rewrite Hs, Hs'. reflexivity.
  - unfold train. rewrite E1, E2, E3, E4. reflexivity.
Qed.

Lemma weights_do_not_reach_the_fit_witness :
  match outcome (split_and_scale example_libraries example_X example_y example_weights),
        outcome (split_and_scale example_libraries example_X example_y
                   [CInt 1; CInt 1; CInt 1; CInt 1])
  with
  | inr d, inr d' =>
      scaler d = scaler d' /\ train example_libraries d = train example_libraries d'
  | _, _ => False
  end.
Proof.
  destruct (outcome (split_and_scale example_libraries example_X example_y example_weights))
    as [e|d] eqn:Hd; [vm_compute in Hd; discriminate Hd|].
  destruct (outcome (split_and_scale example_libraries example_X example_y
                       [CInt 1; CInt 1; CInt 1; CInt 1]))
    as [e|d'] eqn:Hd'; [vm_compute in Hd'; discriminate Hd'|].
  destruct (@weights_do_not_reach_the_fit (list (float * float)) unit example_libraries
              example_X example_y example_weights [CInt 1; CInt 1; CInt 1; CInt 1] d d'
              eq_refl Hd Hd') as (Hs & _ & _ & _ & _ & Ht).
  split; [exact Hs | exact Ht].
Defined.

(** ** Saving *)



(** ** Output paths *)

Lemma append_cancel (a x y : string) : (a ++ x)%string = (a ++ y)%string -> x = y.
Proof.
  induction a as [|c a IH]; cbn; intros H; [exact H|].
  injection H as H. exact (IH H).
Qed.

(** X7. Whatever the working directory, the model and the scaler are written
    to different paths: neither file overwrites the other. *)
Theorem model_and_scaler_paths_differ (world : World) :
  String.eqb (mva_model_path world) (mva_scaler_path world) = false.
Proof.
  apply String.eqb_neq.
  unfold mva_model_path, mva_scaler_path, output_model_dir, os_path_join.
  destruct (String.eqb (notebook_base_dir world) ""); [discriminate|].
  destruct (ends_with_slash (notebook_base_dir world)); intros H.
  - apply append_cancel in H. discriminate H.
  - apply append_cancel in H. discriminate H.
Qed.

(** ** Exceptions after a successful read *)

Lemma read_events_fields (world : World) (f tree : string) (branches : list string)
    (events : Array) :
  read_events world f tree branches = ok events -> fields events = branches.
Proof.
  unfold read_events. intros H.
  destruct (uproot_open world (f ++ ":" ++ tree)%string) as [e|t]; [discriminate H|].
  exact (tree_arrays_fields _ _ H).
Qed.

(** X8. The [try] covers the read only.  If the branch list does not ask for
    [photon_pt], the first file that is read with at least one entry raises
    [AttributeError] at [events.photon_pt]; nothing catches it: the loop
    stops there, the remaining files are not opened, and the frames
    collected so far are lost with the call. *)
Theorem missing_photon_pt_ends_the_call
    (num : Numerics) (world : World) (is_signal_flag : Z)
    (tree_name_param : string) (branches_param : list string)
    (f : string) (events : Array) :
  has_field branches_param "photon_pt" = false ->
  read_events world f tree_name_param branches_param = ok events ->
  len events <> 0%nat ->
  frame_of_array num is_signal_flag events = raise (AttributeError "photon_pt")
  /\ (forall rest df_list,
        load_files num world is_signal_flag tree_name_param branches_param
          (f :: rest) df_list
        = ([], raise (AttributeError "photon_pt")))
  /\ (forall file_paths_pattern rest,
        glob_glob world file_paths_pattern = f :: rest ->
        load_and_preprocess_mc_for_mva num world file_paths_pattern is_signal_flag
          tree_name_param branches_param
        = ([Stdout (ProcessingFiles (S (List.length rest)) file_paths_pattern)],
           raise (AttributeError "photon_pt"))).
Proof.
  intros Hpt Hread Hlen.
  assert (Hframe : frame_of_array num is_signal_flag events
                   = raise (AttributeError "photon_pt")).
  { pose proof (read_events_fields _ _ _ _ Hread) as Hfields.
    unfold frame_of_array. rewrite Hfields.
    destruct (entries events) as [evs|evs|evs];
      unfold frame_of_events, preselection, field; rewrite Hpt; reflexivity. }
  assert (Hloop : forall rest df_list,
             load_files num world is_signal_flag tree_name_param branches_param
               (f :: rest) df_list
             = ([], raise (AttributeError "photon_pt"))).
  { intros rest df_list. cbn [load_files]. rewrite Hread.
    cbv beta iota delta [ok].
    destruct (Nat.eqb_spec (len events) 0) as [E|_]; [contradiction|].
    rewrite Hframe. reflexivity. }
  split; [exact Hframe|]. split; [exact Hloop|].
  intros pattern rest Hglob. unfold load_and_preprocess_mc_for_mva.
  rewrite Hglob. cbn [is_empty List.length]. rewrite Hloop. reflexivity.
Qed.

Lemma missing_photon_pt_ends_the_call_witness :
  load_and_preprocess_mc_for_mva example_numerics example_world
    (mc_background_hyy_file_pattern example_world) 0 tree_name
    ["photon_eta"; "mcEventWeight"]
  = ([Stdout (ProcessingFiles 1 (mc_background_hyy_file_pattern example_world))],
     raise (AttributeError "photon_pt")).
Proof.
  destruct (@missing_photon_pt_ends_the_call example_numerics example_world 0 tree_name
              ["photon_eta"; "mcEventWeight"]
              "/work/data/DAOD_PHYSLITE.37110937._000011.pool.root.1"
              (mkArray ["photon_eta"; "mcEventWeight"]
                 (NestedWeights example_events_nested))
              eq_refl eq_refl ltac:(discriminate)) as [_ [_ H]].
  exact (H (mc_background_hyy_file_pattern example_world) [] eq_refl).
Defined.

(** X9. A file whose [mcEventWeight] holds a sequence per event ends the
    loader call as soon as one of its events survives the cuts: the
    [AttributeError] of the test on [type.content.length] is raised after
    the [try], so the remaining files are not opened and the frames
    collected so far are lost with the call.  When none of its events
    survives, the file is passed over without a message and the loop goes
    on with the next file. *)
Theorem weight_sequences_end_the_call
    (num : Numerics) (world : World) (is_signal_flag : Z)
    (tree_name_param : string) (branches_param : list string)
    (f : string) (events : list (Event (list float))) :
  has_photon_fields branches_param = true ->
  has_field branches_param "mcEventWeight" = true ->
  read_events world f tree_name_param branches_param
  = ok (mkArray branches_param (NestedWeights events)) ->
  ((exists ev, In ev events /\ passes_all_cuts num ev = true) ->
   (forall rest df_list,
      load_files num world is_signal_flag tree_name_param branches_param
        (f :: rest) df_list
      = ([], raise (AttributeError "length")))
   /\ (forall file_paths_pattern rest,
         glob_glob world file_paths_pattern = f :: rest ->
         load_and_preprocess_mc_for_mva num world file_paths_pattern is_signal_flag
           tree_name_param branches_param
         = ([Stdout (ProcessingFiles (S (List.length rest)) file_paths_pattern)],
            raise (AttributeError "length"))))
  /\ (events <> [] ->
      (forall ev, In ev events -> passes_all_cuts num ev = false) ->
      forall rest df_list,
        load_files num world is_signal_flag tree_name_param branches_param
          (f :: rest) df_list
        = load_files num world is_signal_flag tree_name_param branches_param
            rest df_list).
Proof.
  intros Hf Hw Hread.
  pose proof (@weight_sequences_raise num branches_param is_signal_flag events Hf Hw) as Hframe.
  assert (Hstep : events <> [] ->
            forall rest df_list,
              load_files num world is_signal_flag tree_name_param branches_param
                (f :: rest) df_list
              = bind (lift (frame_of_array num is_signal_flag
                              (mkArray branches_param (NestedWeights events))))
                  (fun frame =>
                     match frame with
                     | None =>
                         load_files num world is_signal_flag tree_name_param
                           branches_param rest df_list
                     | Some df =>
                         load_files num world is_signal_flag tree_name_param
                           branches_param rest (df_list ++ [df])
                     end)).
  { intros Hne rest df_list. cbn [load_files]. rewrite Hread.
    cbv beta iota delta [ok].
    destruct (Nat.eqb_spec (len (mkArray branches_param (NestedWeights events))) 0)
      as [E|_]; [|reflexivity].
    cbn in E. destruct events; [contradiction | discriminate E]. }
  split.
  - intros (ev & Hin & Hpass).
    assert (Hs : In ev (filter (passes_all_cuts num (W:=list float)) events))
      by (apply filter_In; split; assumption).
    assert (Hne : events <> []) by (intros ->; contradiction).
    assert (Hloop : forall rest df_list,
               load_files num world is_signal_flag tree_name_param branches_param
                 (f :: rest) df_list
               = ([], raise (AttributeError "length"))).
    { intros rest df_list. rewrite (Hstep Hne), Hframe.
      destruct (filter (passes_all_cuts num (W:=list float)) events);
        [contradiction | reflexivity]. }
    split; [exact Hloop|].
    intros pattern rest Hglob. unfold load_and_preprocess_mc_for_mva.
    rewrite Hglob. cbn [is_empty List.length]. rewrite Hloop. reflexivity.
  - intros Hne Hnone rest df_list. rewrite (Hstep Hne), Hframe.
    assert (Hs : filter (passes_all_cuts num (W:=list float)) events = []).
    { destruct (filter (passes_all_cuts num (W:=list float)) events) as [|ev s] eqn:E;
        [reflexivity|].
      assert (Hin : In ev (ev :: s)) by (left; reflexivity).
      rewrite <- E in Hin. apply filter_In in Hin. destruct Hin as [Hin Hpass].
      rewrite (Hnone ev Hin) in Hpass. discriminate Hpass. }
    rewrite Hs. cbn [is_empty]. rewrite bind_lift_ok. reflexivity.
Qed.

Lemma weight_sequences_end_the_call_witness :
  load_and_preprocess_mc_for_mva example_numerics example_world
    (mc_background_hyy_file_pattern example_world) 0 tree_name branches_to_read_mc
  = ([Stdout (ProcessingFiles 1 (mc_background_hyy_file_pattern example_world))],
     raise (AttributeError "length")).
Proof.
  destruct (@weight_sequences_end_the_call example_numerics example_world 0 tree_name
              branches_to_read_mc
              "/work/data/DAOD_PHYSLITE.37110937._000011.pool.root.1"
              example_events_nested eq_refl eq_refl eq_refl) as [H _].
  destruct H as [_ H].
  - exists (mkEvent [example_photon_1; example_photon_2] [1.5; 1.4; 1.6]%float).
    split; [left; reflexivity | reflexivity].
  - exact (H (mc_background_hyy_file_pattern example_world) [] eq_refl).
Defined.

(** ** The angular difference past the finite numbers *)

Lemma sub_self (x : float) : is_finite x = true -> (x - x)%float = 0%float.
Proof.
  intros Hx. rewrite is_finite_spec in Hx. apply Prim2SF_inj.
  rewrite FloatAxioms.sub_spec. change (Prim2SF 0) with (S754_zero false).
  destruct (Prim2SF x) as [s|s| |s m e]; try discriminate Hx.
  - destruct s; reflexivity.
  - unfold SF64sub. cbn [SFsub]. cbv zeta. rewrite Z.sub_diag. reflexivity.
Qed.

(** X10. The angular difference never raises.  It is NaN exactly when
    [ph1_phi - ph2_phi + np.pi] is not finite: an angle that is NaN or
    infinite, or a difference that overflows.  For two equal finite angles it
    is exactly 0. *)
Theorem delta_phi_yy_is_nan_past_finite (ph1_phi ph2_phi : float) :
  is_nan (delta_phi_yy ph1_phi ph2_phi)
  = negb (is_finite (ph1_phi - ph2_phi + np_pi)%float)
  /\ (is_finite ph1_phi = true -> delta_phi_yy ph1_phi ph1_phi = 0%float).
Proof.
  split.
  - destruct (is_finite (ph1_phi - ph2_phi + np_pi)%float) eqn:Hfin; cbn [negb].
    + destruct (delta_phi_yy_finite ph1_phi ph2_phi Hfin) as [Fd _].
      unfold is_nan. rewrite (@eqb_Zval _ _ Fd Fd), Z.eqb_refl. reflexivity.
    + rewrite (delta_phi_yy_not_finite ph1_phi ph2_phi Hfin). reflexivity.
  - intros Hfin. unfold delta_phi_yy. cbv zeta. rewrite (@sub_self ph1_phi Hfin).
    vm_compute. reflexivity.
Qed.

(** The two orders of a pair can differ in the last digit. *)
Example delta_phi_yy_of_both_orders :
  delta_phi_yy 3.1 0 = 3.0999999999999996%float
  /\ delta_phi_yy 0 3.1 = 3.1%float
  /\ delta_phi_yy 1 1 = 0%float
  /\ is_nan (delta_phi_yy infinity 0) = true.
Proof. repeat split; vm_compute; reflexivity. Qed.

(** ** A degenerate diphoton mass *)

Section DegenerateMass.

Local Open Scope float_scope.

(** A number above a positive threshold, divided by +0, is +infinity. *)
Lemma div_by_zero_is_infinity (x c : float) :
  PrimFloat.ltb c x = true -> PrimFloat.ltb 0 c = true -> x / 0 = infinity.
Proof.
  intros H Hc.
  rewrite ltb_spec in H, Hc.
  apply Prim2SF_inj. rewrite div_spec.
  change (Prim2SF 0) with (S754_zero false) in *.
  change (Prim2SF infinity) with (S754_infinity false).
  unfold SFltb, SFcompare in H, Hc.
  destruct (Prim2SF x) as [s|s| |s m e], (Prim2SF c) as [sc|sc| |sc mc ec];
    try discriminate;
    try (destruct s; try discriminate; reflexivity);
    try (destruct sc; try discriminate; destruct s; try discriminate; reflexivity).
Qed.

Lemma div_by_nan_is_nan (x : float) : x / nan = nan.
Proof.
  apply Prim2SF_inj. rewrite div_spec.
  change (Prim2SF nan) with S754_nan.
  destruct (Prim2SF x) as [s|s| |s m e]; reflexivity.
Qed.

(** X11. Division by the mass is IEEE division.  A pair that passed the pt
    thresholds and whose diphoton mass is exactly +0 passes the mass cut:
    both pt/m_yy are +infinity, which is above 0.35 and is not a missing
    value, so [dropna] keeps the row.  A pair whose mass is NaN fails the
    cut. *)
Theorem degenerate_mass_at_the_mass_cut (num : Numerics) (p : Photon * Photon) :
  (diphoton_mass num (fst p) (snd p) = 0 ->
   pt_thresholds p = true ->
   mass_isolation num p = true
   /\ photon_pt (fst p) / diphoton_mass num (fst p) (snd p) = infinity
   /\ photon_pt (snd p) / diphoton_mass num (fst p) (snd p) = infinity
   /\ isna (CFloat infinity) = false)
  /\ (diphoton_mass num (fst p) (snd p) = nan ->
      mass_isolation num p = false).
Proof.
  split.
  - intros Hm Hpt. unfold pt_thresholds, gt in Hpt.
    apply andb_true_iff in Hpt. destruct Hpt as [H1 H2].
    assert (E1 : photon_pt (fst p) / 0 = infinity)
      by (apply (div_by_zero_is_infinity (c := 50)); [exact H1 | reflexivity]).
    assert (E2 : photon_pt (snd p) / 0 = infinity)
      by (apply (div_by_zero_is_infinity (c := 30)); [exact H2 | reflexivity]).
    unfold mass_isolation. cbv zeta. rewrite Hm, E1, E2.
    repeat split.
  - intros Hm. unfold mass_isolation. cbv zeta.
    rewrite Hm, !div_by_nan_is_nan. reflexivity.
Qed.

End DegenerateMass.

(** With a mass of +0 for every pair, the first example event passes all six
    cuts and its row is kept, with infinite normalized pt. *)
Example zero_mass_row_is_kept :
  let num := mkNumerics (fun _ _ => 0%float) (diphoton_pt example_numerics)
               (np_tanh example_numerics) (np_power example_numerics) in
  option_map
    (fun df => map (firstn 2) (rows (dropna df)))
    (match frame_of_array num 1
             (mkArray branches_to_read_mc (FlatWeights (firstn 1 example_events))) with
     | inr frame => frame
     | inl _ => None
     end)
  = Some [[CFloat infinity; CFloat infinity]].
Proof. vm_compute. reflexivity. Qed.

(** ** Nothing is written by a run that does not complete *)




Section NoDumps.

Variable world : World.
Variables Scaler Model : Type.
Variable lib : Libraries Scaler Model.






End NoDumps.


(** ** The quick check of the distributions *)

Section QuickCheck.

Variables Scaler Model : Type.
Variable lib : Libraries Scaler Model.

Lemma index_of_lt (name : string) (names : list string) (i : nat) :
  index_of name names = Some i -> (i < List.length names)%nat.
Proof.
  revert i. induction names as [|n names IH]; intros i H; cbn [index_of] in H.
  - discriminate H.
  - destruct (String.eqb name n).
    + injection H as <-. cbn. lia.
    + destruct (index_of name names) as [j|]; [|discriminate H].
      injection H as <-. specialize (IH j eq_refl). cbn. lia.
Qed.

Lemma get_column_complete (rs : list (list Cell)) (name : string) (i : nat) :
  Forall (fun row => List.length row = 14%nat) rs ->
  index_of name df_dict_keys = Some i ->
  get_column (mkDataFrame df_dict_keys rs) name
  = ok (map (fun row => nth i row (CInt 0)) rs).
Proof.
  intros Hrows Hi. unfold get_column, column_position. cbn [columns rows].
  rewrite Hi, rbind_ok.
  apply (mapM_pointwise (fun row => cell_at row i) (fun row => nth i row (CInt 0))).
  eapply Forall_impl; [|exact Hrows]. intros row Hrow. unfold cell_at.
  rewrite (nth_error_nth' row (CInt 0)); [reflexivity|].
  rewrite Hrow. exact (@index_of_lt _ _ _ Hi).
Qed.

Lemma rows_where_complete (rs : list (list Cell)) (test : Cell -> bool) :
  Forall (fun row => List.length row = 14%nat) rs ->
  rows_where (mkDataFrame df_dict_keys rs) test
  = ok (mkDataFrame df_dict_keys
          (filter (fun row => test (nth 13 row (CInt 0))) rs)).
Proof.
  intros Hrows. unfold rows_where.
  rewrite (@get_column_complete rs "isSignal" 13 Hrows eq_refl), rbind_ok.
  cbn [columns rows]. rewrite map_map.
  rewrite (select_map_filter (fun row => test (nth 13 row (CInt 0))) rs). reflexivity.
Qed.

(** On a table with the columns of [df_dict], a histogram is [plt.hist] of
    the cells described by [cells_where]: no label is missing. *)
Lemma hist_complete (rs : list (list Cell)) (test : Cell -> bool) (feature : string)
    (i : nat) :
  Forall (fun row => List.length row = 14%nat) rs ->
  index_of feature df_dict_keys = Some i ->
  hist lib (mkDataFrame df_dict_keys rs) test feature
  = plt_hist lib (cells_where (mkDataFrame df_dict_keys rs) test i)
                 (cells_where (mkDataFrame df_dict_keys rs) test 12).
Proof.
  intros Hrows Hi. unfold hist.
  pose proof (Forall_filter_keeps (fun row => test (nth 13 row (CInt 0))) Hrows) as Hsel.
  rewrite (@rows_where_complete rs test Hrows), rbind_ok.
  rewrite (@get_column_complete _ feature i Hsel Hi), !rbind_ok.
  rewrite (@get_column_complete _ "eventWeight" 12 Hsel eq_refl), rbind_ok.
  reflexivity.
Qed.

Lemma feature_is_a_key (feature : string) :
  In feature mva_features_list ->
  index_of feature df_dict_keys = Some (key_position feature)
  /\ in_columns (mkDataFrame df_dict_keys []) feature = true.
Proof.
  intros Hin. cbn [mva_features_list In] in Hin.
  repeat (destruct Hin as [<-|Hin]; [split; reflexivity|]). contradiction.
Qed.

Lemma plot_features_returns (rs : list (list Cell)) (features : list string) :
  Forall (fun row => List.length row = 14%nat) rs ->
  Forall (fun f => In f mva_features_list) features ->
  Forall (hist_returns lib (mkDataFrame df_dict_keys rs)) features ->
  plot_features lib (mkDataFrame df_dict_keys rs) features
  = (map PltShow features, ok tt).
Proof.
  intros Hrows Hin Hret. induction Hin as [|f features Hf _ IH]; [reflexivity|].
  inversion Hret as [|? ? [H1 H0] Hrest]; subst.
  destruct (@feature_is_a_key f Hf) as [Hi Hcol].
  cbn [plot_features map].
  change (in_columns (mkDataFrame df_dict_keys rs) f)
    with (in_columns (mkDataFrame df_dict_keys []) f).
  rewrite Hcol, !(@hist_complete rs _ _ _ Hrows Hi), H1, H0, !bind_lift_ok, bind_tell, (IH Hrest).
  reflexivity.
Qed.

Lemma plot_features_raises (rs : list (list Cell)) (shown : list string)
    (feature : string) (rest : list string) (e : Exception) :
  Forall (fun row => List.length row = 14%nat) rs ->
  Forall (fun f => In f mva_features_list) (shown ++ feature :: rest) ->
  Forall (hist_returns lib (mkDataFrame df_dict_keys rs)) shown ->
  hist_raises lib (mkDataFrame df_dict_keys rs) feature e ->
  plot_features lib (mkDataFrame df_dict_keys rs) (shown ++ feature :: rest)
  = (map PltShow shown, raise e).
Proof.
  intros Hrows Hin Hret Hraise. induction shown as [|f shown IH].
  - cbn [app] in *. inversion Hin as [|? ? Hf _]; subst.
    destruct (@feature_is_a_key feature Hf) as [Hi Hcol].
    cbn [plot_features map].
    change (in_columns (mkDataFrame df_dict_keys rs) feature)
      with (in_columns (mkDataFrame df_dict_keys []) feature).
    rewrite Hcol, !(@hist_complete rs _ _ _ Hrows Hi).
    destruct Hraise as [H1|[H1 H0]].
    + rewrite H1. reflexivity.
    + rewrite H1, H0, bind_lift_ok. reflexivity.
  - cbn [app] in *. inversion Hin as [|? ? Hf Hin']; subst.
    inversion Hret as [|? ? [H1 H0] Hrest]; subst.
    destruct (@feature_is_a_key f Hf) as [Hi Hcol].
    cbn [plot_features map].
    change (in_columns (mkDataFrame df_dict_keys rs) f)
      with (in_columns (mkDataFrame df_dict_keys []) f).
    rewrite Hcol, !(@hist_complete rs _ _ _ Hrows Hi), H1, H0, !bind_lift_ok, bind_tell.
    rewrite (IH Hin' Hrest). reflexivity.
Qed.

End QuickCheck.

(** X13. The quick check.  On a table that is not empty, has the columns of
    [df_dict] and fourteen cells in every row, no label is missing and only
    [plt.hist] can stop the cell.  When the two histograms of every feature
    return, the cell shows one figure per feature of [mva_features_list], in
    the order of the list, and prints no warning.  When a histogram raises,
    the cell ends with that exception after the figures of the features
    before it.  On an empty table the cell only prints that the plots are
    skipped. *)
Theorem quick_check_on_complete_table
    (Scaler Model : Type) (lib : Libraries Scaler Model) (df_combined_mc : DataFrame) :
  (empty df_combined_mc = false ->
   columns df_combined_mc = df_dict_keys ->
   Forall (fun row => List.length row = 14%nat) (rows df_combined_mc) ->
   (Forall (hist_returns lib df_combined_mc) mva_features_list ->
    quick_check lib df_combined_mc = (map PltShow mva_features_list, ok tt))
   /\ (forall shown feature rest e,
         mva_features_list = shown ++ feature :: rest ->
         Forall (hist_returns lib df_combined_mc) shown ->
         hist_raises lib df_combined_mc feature e ->
         quick_check lib df_combined_mc = (map PltShow shown, raise e)))
  /\ (empty df_combined_mc = true ->
      quick_check lib df_combined_mc = ([Stdout SkippingFeaturePlots], ok tt)).
Proof.
  split.
  - destruct df_combined_mc as [cols rs]. cbn [columns rows].
    intros Hne -> Hrows.
    assert (Hall : Forall (fun f => In f mva_features_list) mva_features_list)
      by (apply Forall_forall; intros f Hf; exact Hf).
    unfold quick_check. rewrite Hne. cbn [negb]. split.
    + intros Hret. exact (@plot_features_returns _ _ lib rs _ Hrows Hall Hret).
    + intros shown feature rest e Heq Hret Hraise.
      assert (Hall' : Forall (fun f => In f mva_features_list) (shown ++ feature :: rest))
        by (rewrite <- Heq; exact Hall).
      rewrite Heq.
      exact (@plot_features_raises _ _ lib rs _ _ _ _ Hrows Hall' Hret Hraise).
  - intros He. unfold quick_check. rewrite He. reflexivity.
Qed.

(** With a histogram that refuses infinite values: the table of the example
    files is plotted feature by feature; the table with a row of zero mass,
    whose [ph1_pt_norm] is infinite, stops the cell at the first
    histogram. *)
Example quick_check_on_example :
  quick_check example_libraries example_signal_only
  = (map PltShow mva_features_list, ok tt)
  /\ columns example_zero_mass = df_dict_keys
  /\ map (firstn 2) (rows example_zero_mass) = [[CFloat infinity; CFloat infinity]]
  /\ quick_check example_libraries example_zero_mass = ([], raise ValueError)
  /\ outcome (assemble_and_train example_world example_libraries
                example_zero_mass pd_DataFrame)
     = raise ValueError.
Proof. repeat split; vm_compute; reflexivity. Qed.
